(* ===== verification/_CoqProject ===== *)
-Q . S2P
Prelude.v
Wire.v
RingBuffer.v
Fifo.v
Registry.v
Hcall.v
Machine.v
Spec.v
Refinement.v
Liveness.v
Qom.v
Lifecycle.v
System.v
