(* ===== verification/Prelude.v ===== *)
(** * Verification of the sPAPR virtual terminal ([src/hw/spapr_vty.c])

    The program is the paravirtualised serial console that QEMU offers to a
    PowerPC guest: one [VIOsPAPRVTYDevice] per terminal, holding a 16-byte
    ring buffer filled by the host character backend and drained by the
    guest through the hypercall [H_GET_TERM_CHAR]; the opposite direction
    ([H_PUT_TERM_CHAR]) writes through to the backend without buffering.

    ** Parts of the program and the files that model them

    - [Prelude] (this file): machine integers as [Z] with explicit
      wrap-around ([wrap], [u32_add], [u32_sub]), the result monad [res]
      whose errors are the fatal paths of the C code ([fault]), the names
      of the functions whose address the code takes ([fn_ptr]), the
      observable effects ([event]), the two loop combinators the C loops are translated
      with ([for_loop], [while_loop]) and their invariant rules, the
      inevitability predicate [eventually] with its measure rule, the
      tactics ([zmod], [res_simpl]) and the hint database [vty].
    - [Wire]: the 16-byte wire chunk and its two big-endian 64-bit words
      (the stores of [h_put_term_char], lines 92-93, and the loads of
      [h_get_term_char], lines 120-121).
    - [RingBuffer]: the device record (lines 8-13) and the three functions
      that touch the ring: [vty_can_receive] (15-20), [vty_receive] (22-35),
      [vty_getchars] (37-47); the well-formedness invariant [vty_wf] and the
      abstraction function [contents].
    - [Fifo]: the bounded byte queue the ring promises to its users, as
      the class [ByteQueue] of operations and the class [ByteQueueLaws] of
      laws on the abstract contents; the reference implementation
      [list_queue] (a list of at most [cap] bytes); the instance
      [vty_byte_queue] whose operations are [vty_receive] and
      [vty_getchars], with its laws discharged from [RingBuffer]; and the
      theorems on runs of operations, proved against the interface.
    - [Registry]: the VIO bus as the ordered list of its children,
      [spapr_vty_get_default] (160-193) and [vty_lookup] (195-210).
    - [Hcall]: [vty_putchars] (49-55), [spapr_vty_init] (57-70) and the
      two hypercall handlers [h_put_term_char] (73-98) and
      [h_get_term_char] (100-124).
    - [Machine]: the terminals of a machine as a labelled transition
      system.  A step is one of the three ways the code is entered: the
      backend of a terminal calls the receive callback registered by
      [spapr_vty_init], or the guest makes one of the two hypercalls
      registered by [spapr_vty_register_types] (212-217).  [step] and
      [steps] are the relation, [machine_step] and [machine_run] the same
      as functions; [bus_wf] is the invariant, [enabled] the contracts of
      the callers.
    - [Spec]: the abstract machine the code implements.  A terminal is
      its address, its line, its backend and the list of its unread
      bytes; [resolve] says what an address stands for, [spec_input],
      [spec_put] and [spec_get] what the three calls do, [spec_step] and
      [spec_run] mirror [machine_step] and [machine_run].
    - [Refinement]: the abstraction [abs] from the machine to the abstract
      machine and the proof that every call and every run commutes with
      it, fatal errors included.
    - [Liveness]: the machine closed with its two callers for one
      terminal, as the relation [io_step] on results of [io_state]: a
      backend that holds what [qemu_chr_add_handlers] was given
      ([chr_handlers]), polls with the function registered as
      [fd_can_read] ([call_can_read]) and delivers at least one byte and
      at most as many as the poll answered with the function registered
      as [fd_read] ([call_read]), and a guest that reads when the
      interrupt is pending.  Each step is the call as the code runs it; a
      call that faults leads to a state with no successor.
    - [Qom]: the property table (135-139), [spapr_vty_class_init]
      (141-151), [spapr_vty_info] (153-158), [spapr_vty_register_types]
      (212-217) and [type_init] (219), on an object model that is a table
      of types and a table of hypercall handlers.
    - [Lifecycle]: [spapr_vty_create] (126-133) through the tables of
      [Qom], the sequence of creations [create_all] that builds the bus
      before the guest runs, and the start-up [boot] from any tables.
    - [System]: start-up followed by operation: the closed system of
      [Liveness] on a machine that [boot] built, with the backend
      holding what the registration of [spapr_vty_init] (line 66) gave
      it.

    ** How state and effects are modelled

    C integers keep their width: [uint32_t] cursors are [Z] reduced by
    [wrap 32] after each arithmetic operation, [target_ulong] is 64 bits
    wide (the machine is ppc64), [int] values are plain [Z] in ranges where
    no overflow can occur (loop counters bounded by 16 or by [size]). Bytes
    are [Z] in [0, 256). C arrays are lists read with [!!] and updated with
    [<[i:=x]>]; an access the C code would make outside the array is the
    error [OutOfBounds]. A pointer to a device is the index of the device
    in the bus, so that a handler that mutates the device it looked up
    mutates the bus; [qdev_create] puts the new device at the head of the
    list, as the C list does, so creation moves the older devices one
    index up, and the machine is run on the bus as it is once creation is
    over. [assert] failing is [Err AssertFail], [exit(1)] is
    [Err (Exit 1)], [hw_error] is [Err HwError], using a non-VTY device
    through a VTY pointer is [Err TypeConfusion] (the C cast itself
    checks nothing; the fault stands for the use of the fields of a VTY
    in an object that has none). A function pointer is the name of the
    function ([fn_ptr]); the table of types is a finite map from type
    names and the hypercall table a finite map from opcodes. Calls into
    QEMU that leave this file ([qemu_irq_pulse], [qemu_chr_fe_write],
    [qemu_chr_add_handlers] with the functions and the device it is
    given) are recorded as [event]s in the order the code makes them. A
    call that faults returns the fault alone: the events it made before
    the fault (the pulse of [vty_receive] before its assertion fails) are
    not part of the result.

    ** Fuel

    [vty_getchars] is a [while] loop; it is run with fuel [Z.to_nat max],
    one unit per iteration. Theorems in [RingBuffer] show that this fuel is
    never exhausted (the loop counter [n] reaches [max] first), for every
    state, well-formed or not, and that more fuel gives the same result.

    ** What the theorems show

    - integers: wrap-around of the cursors at 2^32 is invisible, because 16
      divides 2^32;
    - ring buffer: every operation preserves [vty_wf]; [vty_receive]
      appends to [contents], [vty_getchars] removes a prefix of it; the
      assertion fails exactly on overflow; the interrupt is pulsed exactly
      on the empty to non-empty edge;
    - wire: encoding and decoding the two words are inverse;
    - registry: the default device is the first VTY with the least [reg];
    - hypercalls: status codes on every branch, the bytes written (each
      byte of the payload as bits of the two registers) and read,
      independence from uninitialised stack bytes; a write to the address
      of a device that is not a terminal is not refused (the lookup by
      [reg] does not look at the type);
    - queue contract: every sequence of [vty_receive] and [vty_getchars]
      calls on a well-formed terminal is simulated by the same operations
      on a list of at most 16 bytes, failures included, and hands bytes
      out in the order they came in;
    - machine: [steps] preserves [bus_wf] and the static part of the bus,
      so every [reg] resolves alike in every reachable state; what the
      guest decodes from its reads of a terminal is what the backend
      delivered to it, in order; in a run, a delivery pulses the interrupt
      exactly when it brings a byte and the guest has read all that came
      before; a child on which no call of a run is made is unchanged at
      its end; a run that respects the contracts of the callers
      ([vty_can_receive] as a byte count, addresses of terminals) never
      aborts; the registers a read returns are 64-bit values and the
      count is at most 16; [vty_receive] moves [in] by [size] modulo 2^32;
    - refinement: every run of the machine is the run of the abstract
      machine of [Spec] on the abstraction, with the same replies, the
      same outside calls and the same faults; [vty_lookup] is [resolve];
    - liveness: every interleaving of the backend and the
      interrupt-driven guest of [Liveness] is finite, never stuck before
      the end, reaches no fault (a poll of a terminal that is not there,
      a delivery into a full ring, a read that leaves an array), and
      ends with the whole input received in order; the measure is twice
      the input left plus the unread bytes; this holds for the terminal
      of every entry of a configuration with distinct addresses after
      [boot], with the backend calling the functions and the device that
      [spapr_vty_init] registered for that entry;
    - registration: [spapr_vty_register_types] in closed form, with the
      abort on a slot taken by another handler;
    - creation: the bus [create_all] builds in closed form; creation
      without a backend exits; on a machine that [boot] started, whose bus
      was built by [spapr_vty_create] alone, no hypercall can abort.

    ** Bounds

    Nothing is bounded for the sake of the proofs: traces, runs,
    configurations and the input of the backend are arbitrary lists,
    cursors range over all 32-bit values, registers over all 64-bit
    values. The only fuel is that of [vty_getchars] above.

    ** Not modelled

    The character backend, the interrupt controller, the hypercall
    layer and the object model are code of other files. They are
    modelled from their contracts, no further than the terminal uses
    them: the backend delivers bytes through the registered callbacks
    and its writes are recorded as events; an interrupt is the event of
    its pulse, and the guest of [Liveness] latches it; the object model
    is the two tables of [Qom] and the three functions [spapr_vty_create]
    calls, as described in [Lifecycle]; the dispatcher [spapr_hypercall]
    (the handlers are entered directly), the KVM-specific hypercall table,
    the device tree fields the class carries ([dt_name] and the like are
    stored, never interpreted) and the properties that
    [DEFINE_SPAPR_PROPERTIES] expands to are left out. The calls run one
    at a time, as on the single thread of the program; a machine where
    they overlap is not modelled. The text [spapr_vty_init] prints before
    it exits is not modelled. [spapr_vio_find_by_reg] compares the
    address as the handlers pass it, a 64-bit register; the backend of
    [Machine] and [Liveness] always passes [vty_receive] the number of
    bytes it delivers as [size] (other sizes are covered by the theorems
    of [RingBuffer] on [vty_receive] itself). *)

From stdpp Require Import base numbers list option.

#[export] Set Warnings "-clear-no-such-hyp".

Local Open Scope Z_scope.

(** ** Notation scope *)

Declare Scope vty_scope.
Delimit Scope vty_scope with vty.

(** ** Machine integers *)

Definition wrap (w z : Z) : Z := z mod 2 ^ w.

Definition in_width (w z : Z) : Prop := 0 ≤ z < 2 ^ w.

#[export] Instance in_width_dec w z : Decision (in_width w z).
Proof. unfold in_width. apply _. Defined.

(** [uint32_t] addition and subtraction. *)
Definition u32_add (a b : Z) : Z := wrap 32 (a + b).
Definition u32_sub (a b : Z) : Z := wrap 32 (a - b).

Infix "⊕" := u32_add (at level 50, left associativity) : vty_scope.
Infix "⊖" := u32_sub (at level 50, left associativity) : vty_scope.

(** A [uint8_t]. *)
Definition is_byte (b : Z) : Prop := in_width 8 b.

#[export] Instance is_byte_dec b : Decision (is_byte b).
Proof. unfold is_byte. apply _. Defined.

(** A C truth value: [int] 1 or 0. *)
Definition Z_of_bool (b : bool) : Z := if b then 1 else 0.

(** C's [&&] applied to an [int]: non-zero is true. *)
Definition Z_truth (z : Z) : bool := negb (z =? 0).

(** ** Faults, effects and the result monad *)

(** The ways the C code stops instead of returning. *)
Inductive fault : Type :=
| AssertFail            (* assert(...) failed: abort() *)
| OutOfBounds           (* an array access outside its bounds *)
| NullDeref             (* a NULL or dangling pointer dereferenced *)
| TypeConfusion         (* a device used through a pointer of another type *)
| Exit (code : Z)       (* exit(code) *)
| HwError               (* hw_error(...): abort() *)
| OutOfFuel.          (* the model's loop bound was hit; never the code's *)

#[export] Instance fault_eq_dec : EqDecision fault.
Proof. solve_decision. Defined.

(** A pointer to a function is the name of the function.  These are the
    functions of the file whose address is taken (lines 66-67, 146, 157,
    214-215 and 219); [FN_extern] stands for the functions of other
    files. *)
Inductive fn_ptr : Type :=
| FN_vty_can_receive
| FN_vty_receive
| FN_spapr_vty_init
| FN_spapr_vty_class_init
| FN_spapr_vty_register_types
| FN_h_put_term_char
| FN_h_get_term_char
| FN_extern (id : nat).

#[export] Instance fn_ptr_eq_dec : EqDecision fn_ptr.
Proof. solve_decision. Defined.

(** Calls that leave the file, in the order they are made.  A call that
    ends in a fault takes the events of that call with it: the program is
    gone, and with it the interrupt controller and the guest that would
    have seen them. *)
Inductive event : Type :=
| EvIrqPulse (irq : Z)                      (* qemu_irq_pulse(irq) *)
| EvChrWrite (chr : Z) (data : list Z)      (* qemu_chr_fe_write(chr, buf, len) *)
| EvChrAddHandlers (chr : Z) (fd_can_read fd_read fd_event : option fn_ptr)
                   (opaque : nat).
    (* qemu_chr_add_handlers(chr, fd_can_read, fd_read, fd_event, opaque);
       [None] is NULL *)

#[export] Instance event_eq_dec : EqDecision event.
Proof. solve_decision. Defined.

Inductive res (A : Type) : Type :=
| Ok (a : A)
| Err (e : fault).
Arguments Ok {A} a.
Arguments Err {A} e.

#[export] Instance res_eq_dec `{EqDecision A} : EqDecision (res A).
Proof. solve_decision. Defined.

#[export] Instance res_ret : MRet res := @Ok.
#[export] Instance res_bind : MBind res :=
  λ A B f m, match m with Ok a => f a | Err e => Err e end.
#[export] Instance res_fmap : FMap res :=
  λ A B f m, match m with Ok a => Ok (f a) | Err e => Err e end.

Definition is_Ok {A} (m : res A) : Prop := ∃ a, m = Ok a.

#[export] Instance is_Ok_dec {A} (m : res A) : Decision (is_Ok m).
Proof.
  refine (match m with Ok a => left _ | Err e => right _ end);
    unfold is_Ok; [eauto | intros [? ?]; discriminate].
Defined.

(** An array read: [a[i]], a fault outside the array. *)
Definition array_get {A} (a : list A) (i : Z) : res A :=
  if decide (0 ≤ i) then
    match a !! Z.to_nat i with Some x => Ok x | None => Err OutOfBounds end
  else Err OutOfBounds.

(** An array write: [a[i] = x], a fault outside the array. *)
Definition array_set {A} (a : list A) (i : Z) (x : A) : res (list A) :=
  if decide (0 ≤ i < Z.of_nat (length a)) then Ok (<[Z.to_nat i := x]> a)
  else Err OutOfBounds.

(** [memset(a + off, x, n)], a fault when the range leaves the array. *)
Definition array_memset {A} (a : list A) (off : Z) (x : A) (n : Z) : res (list A) :=
  if decide (0 ≤ off ∧ 0 ≤ n ∧ off + n ≤ Z.of_nat (length a)) then
    Ok (take (Z.to_nat off) a ++ replicate (Z.to_nat n) x
        ++ drop (Z.to_nat (off + n)) a)
  else Err OutOfBounds.

(** ** Loops *)

(** [for (i = start; i < start + n; i++) s = body(i, s);] *)
Fixpoint for_loop {St : Type} (n : nat) (i : Z) (body : Z → St → res St)
    (s : St) : res St :=
  match n with
  | O => Ok s
  | S n' => s' ← body i s; for_loop n' (i + 1) body s'
  end.

(** [while (cond(s)) s = body(s);] with one unit of fuel per iteration. *)
Fixpoint while_loop {St : Type} (fuel : nat) (cond : St → bool)
    (body : St → res St) (s : St) : res St :=
  if cond s then
    match fuel with
    | O => Err OutOfFuel
    | S fuel' => s' ← body s; while_loop fuel' cond body s'
    end
  else Ok s.

(** ** Inevitability *)

(** [eventually step P s]: every sequence of steps from [s] reaches a
    state where [P] holds, and does so without getting stuck before. *)
Inductive eventually {S : Type} (step : S → S → Prop) (P : S → Prop) : S → Prop :=
  | eventually_done s : P s → eventually step P s
  | eventually_step s :
      (∃ s', step s s') → (∀ s', step s s' → eventually step P s') →
      eventually step P s.

(** ** Tactics *)

(** Linear arithmetic with [mod] and [/] by constants, after unfolding the
    machine-integer operations. *)
Ltac zmod :=
  unfold u32_add, u32_sub, wrap, is_byte, in_width in *;
  change (2 ^ 8) with 256 in *;
  change (2 ^ 32) with 4294967296 in *;
  change (2 ^ 64) with 18446744073709551616 in *;
  Z.div_mod_to_equations; lia.

(** Simplify binds of the result monad on constructors. *)
Ltac res_simpl :=
  repeat match goal with
  | |- context [mbind _ (Ok _)] => unfold mbind at 1, res_bind at 1; cbn beta iota
  | |- context [mbind _ (Err _)] => unfold mbind at 1, res_bind at 1; cbn beta iota
  | H : Ok _ = Ok _ |- _ => injection H as H; try subst
  | H : Err _ = Ok _ |- _ => discriminate H
  | H : Ok _ = Err _ |- _ => discriminate H
  end.

(** Case analysis on the result bound first in a hypothesis. *)
Ltac res_bind_inv H :=
  match type of H with
  | mbind _ ?m = _ =>
      let E := fresh "E" in
      destruct m eqn:E; cbn [mbind res_bind] in H; [| discriminate H]
  end.

(** Discharge a decidable closed proposition by evaluation. *)
Ltac by_compute := apply (bool_decide_unpack _); vm_compute; exact I.

Create HintDb vty discriminated.
Create Rewrite HintDb vty.

(** ** Lemmas on machine integers *)

Lemma wrap_in_width w z : 0 ≤ w → in_width w (wrap w z).
Proof. intros. apply Z.mod_pos_bound. by apply Z.pow_pos_nonneg. Qed.

Lemma wrap_small w z : in_width w z → wrap w z = z.
Proof. intros. by apply Z.mod_small. Qed.

Lemma wrap_idemp w z : wrap w (wrap w z) = wrap w z.
Proof. unfold wrap. apply Zmod_mod. Qed.

(** 16 divides 2^32: reducing a cursor modulo 2^32 does not change the
    slot it addresses. *)
Lemma wrap32_mod16 z : wrap 32 z mod 16 = z mod 16.
Proof. zmod. Qed.

Lemma u32_add_in_width a b : in_width 32 (u32_add a b).
Proof. by apply wrap_in_width. Qed.

Lemma u32_sub_in_width a b : in_width 32 (u32_sub a b).
Proof. by apply wrap_in_width. Qed.

Lemma u32_sub_diag a : u32_sub a a = 0.
Proof. zmod. Qed.

Lemma u32_sub_0_iff a b :
  in_width 32 a → in_width 32 b → u32_sub a b = 0 ↔ a = b.
Proof. intros; split; intros; zmod. Qed.

(** Advancing the minuend by [k] advances the difference by [k], as long
    as the result stays below 2^32. *)
Lemma u32_sub_add_l a b k :
  0 ≤ k → u32_sub a b + k < 2 ^ 32 → u32_sub (u32_add a k) b = u32_sub a b + k.
Proof. intros; zmod. Qed.

(** Advancing the subtrahend by [k] shrinks the difference by [k], as long
    as the difference is at least [k]. *)
Lemma u32_sub_add_r a b k :
  0 ≤ k ≤ u32_sub a b → u32_sub a (u32_add b k) = u32_sub a b - k.
Proof. intros; zmod. Qed.

Lemma u32_add_mod16 a k : u32_add a k mod 16 = (a + k) mod 16.
Proof. apply wrap32_mod16. Qed.

(** The slot of [b + d], for a distance [d] that is not a multiple of 16,
    differs from the slot of [b]. *)
Lemma mod16_add_neq b d : 0 < d < 16 → (b + d) mod 16 ≠ b mod 16.
Proof. intros; zmod. Qed.

Lemma Z_of_bool_truth b : Z_truth (Z_of_bool b) = b.
Proof. by destruct b. Qed.

#[export] Hint Resolve wrap_in_width u32_add_in_width u32_sub_in_width : vty.
#[export] Hint Rewrite wrap_idemp wrap32_mod16 u32_sub_diag u32_add_mod16
  Z_of_bool_truth : vty.

(** ** Lemmas on the result monad *)

Lemma res_bind_Ok {A B} (f : A → res B) (m : res A) (b : B) :
  m ≫= f = Ok b ↔ ∃ a, m = Ok a ∧ f a = Ok b.
Proof. destruct m; cbn; split; [eauto | intros (? & [= ->] & ?) | | intros (? & ? & ?)]; done. Qed.

Lemma res_bind_Err {A B} (f : A → res B) (m : res A) (e : fault) :
  m ≫= f = Err e ↔ m = Err e ∨ ∃ a, m = Ok a ∧ f a = Err e.
Proof. destruct m; cbn; naive_solver. Qed.

Lemma array_get_Ok {A} (a : list A) i x :
  array_get a i = Ok x ↔ 0 ≤ i ∧ a !! Z.to_nat i = Some x.
Proof.
  unfold array_get. case_decide; [| naive_solver lia].
  destruct (a !! Z.to_nat i); naive_solver.
Qed.

Lemma array_get_in_range {A} (a : list A) i :
  0 ≤ i < Z.of_nat (length a) → is_Ok (array_get a i).
Proof.
  intros Hi. destruct (lookup_lt_is_Some_2 a (Z.to_nat i)) as [x Hx]; [lia |].
  exists x. apply array_get_Ok. split; [lia | done].
Qed.

Lemma array_set_Ok {A} (a : list A) i x :
  0 ≤ i < Z.of_nat (length a) → array_set a i x = Ok (<[Z.to_nat i := x]> a).
Proof. intros. unfold array_set. by rewrite decide_True. Qed.

(** Zeroing the tail of an array from [off] on keeps its first [off]
    elements and its length. *)
Lemma array_memset_tail {A} (a : list A) off x :
  0 ≤ off ≤ Z.of_nat (length a) →
  array_memset a off x (Z.of_nat (length a) - off)
  = Ok (take (Z.to_nat off) a ++ replicate (length a - Z.to_nat off) x).
Proof.
  intros. unfold array_memset. rewrite decide_True by lia.
  rewrite drop_ge, app_nil_r by lia. do 3 f_equal. lia.
Qed.

Lemma array_set_length {A} (a a' : list A) i x :
  array_set a i x = Ok a' → length a' = length a.
Proof. unfold array_set. case_decide; [intros [= <-] | done]. by rewrite length_insert. Qed.

(** ** Loop rules *)

Section loops.
Context {St : Type}.
Implicit Types (body : Z → St → res St) (s : St).

(** Invariant rule for [for]: an invariant [P i] that every successful
    iteration carries to [P (i + 1)], and under which the body does not
    fail, holds at the end, and the loop does not fail. *)
Lemma for_loop_inv (P : Z → St → Prop) body n i s :
  P i s →
  (∀ j t, i ≤ j < i + Z.of_nat n → P j t → ∃ t', body j t = Ok t' ∧ P (j + 1) t') →
  ∃ s', for_loop n i body s = Ok s' ∧ P (i + Z.of_nat n) s'.
Proof.
  revert i s. induction n as [|n IH]; intros i s HP Hstep; simpl.
  - exists s. by rewrite Z.add_0_r.
  - destruct (Hstep i s) as (t & -> & HP'); [lia | done |]. cbn.
    destruct (IH (i + 1) t HP') as (s' & -> & Hs').
    + intros j u Hj. apply Hstep. lia.
    + exists s'. split; [done |]. by replace (i + Z.of_nat (S n)) with (i + 1 + Z.of_nat n) by lia.
Qed.

(** A failing iteration fails the loop: if the invariant holds up to
    iteration [k] and the body fails there, so does the loop. *)
Lemma for_loop_fail (P : Z → St → Prop) body n i s k e :
  (k < n)%nat →
  P i s →
  (∀ j t, i ≤ j < i + Z.of_nat k → P j t → ∃ t', body j t = Ok t' ∧ P (j + 1) t') →
  (∀ t, P (i + Z.of_nat k) t → body (i + Z.of_nat k) t = Err e) →
  for_loop n i body s = Err e.
Proof.
  revert i s k. induction n as [|n IH]; intros i s k Hk HP Hstep Hfail; [lia |].
  simpl. destruct k as [|k].
  - rewrite Z.add_0_r in Hfail. by rewrite (Hfail s HP).
  - destruct (Hstep i s) as (t & -> & HP'); [lia | done |]. cbn.
    apply (IH (i + 1) t k); [lia | done | |].
    + intros j u Hj. apply Hstep. lia.
    + intros u. replace (i + 1 + Z.of_nat k) with (i + Z.of_nat (S k)) by lia. apply Hfail.
Qed.

Lemma for_loop_split body n m i s :
  for_loop (n + m) i body s =
  for_loop n i body s ≫= for_loop m (i + Z.of_nat n) body.
Proof.
  revert i s. induction n as [|n IH]; intros i s; simpl.
  - by rewrite Z.add_0_r.
  - destruct (body i s) as [t|e]; cbn; [| done].
    rewrite IH. by replace (i + 1 + Z.of_nat n) with (i + Z.of_nat (S n)) by lia.
Qed.
End loops.

Section while.
Context {St : Type}.
Implicit Types (cond : St → bool) (body : St → res St) (s : St).

(** Variant rule for [while]: with a measure that every iteration
    decreases and an invariant it preserves, fuel equal to the measure
    is enough, the loop ends in a state where the condition is false,
    and the invariant holds there. *)
Lemma while_loop_variant (P : St → Prop) (μ : St → nat) cond body fuel s :
  P s →
  (μ s ≤ fuel)%nat →
  (∀ t, P t → cond t = true →
        ∃ t', body t = Ok t' ∧ P t' ∧ (μ t' < μ t)%nat) →
  ∃ s', while_loop fuel cond body s = Ok s' ∧ P s' ∧ cond s' = false.
Proof.
  revert s. induction fuel as [|fuel IH]; intros s HP Hμ Hstep;
    simpl; destruct (cond s) eqn:Hc;
    try (exists s; by split_and!).
  - destruct (Hstep s HP Hc) as (? & _ & _ & ?). lia.
  - destruct (Hstep s HP Hc) as (t & -> & HP' & Hlt). cbn.
    apply IH; [done | lia | done].
Qed.

(** Fuel equal to a measure that every successful iteration decreases
    is never exhausted, whatever the body does otherwise. *)
Lemma while_loop_fuel_enough (μ : St → nat) cond body fuel s :
  (μ s ≤ fuel)%nat →
  (∀ t, cond t = true → (0 < μ t)%nat) →
  (∀ t t', cond t = true → body t = Ok t' → (μ t' < μ t)%nat) →
  (∀ t, body t ≠ Err OutOfFuel) →
  while_loop fuel cond body s ≠ Err OutOfFuel.
Proof.
  intros Hμ Hpos Hdec Hbody. revert s Hμ.
  induction fuel as [|fuel IH]; intros s Hμ; simpl;
    destruct (cond s) eqn:Hc; try done.
  - specialize (Hpos s Hc). lia.
  - destruct (body s) as [t|e] eqn:Hb; cbn.
    + apply IH. specialize (Hdec s t Hc Hb). lia.
    + intros [= ->]. by apply (Hbody s).
Qed.

(** The result does not depend on the fuel once it is enough. *)
Lemma while_loop_fuel_mono cond body fuel fuel' s :
  (fuel ≤ fuel')%nat →
  while_loop fuel cond body s ≠ Err OutOfFuel →
  while_loop fuel' cond body s = while_loop fuel cond body s.
Proof.
  revert fuel' s. induction fuel as [|fuel IH]; intros fuel' s Hle;
    simpl; destruct fuel' as [|fuel']; simpl; destruct (cond s); try done; try lia.
  destruct (body s) as [t|e]; cbn; [| done]. apply IH. lia.
Qed.
End while.

(** ** Lemmas on lists *)

Lemma seqZ_snoc m n : 0 ≤ n → seqZ m (n + 1) = seqZ m n ++ [m + n].
Proof. intros. rewrite seqZ_app by lia. done. Qed.

Lemma take_snoc_lookup {A} (l : list A) n x :
  l !! n = Some x → take (S n) l = take n l ++ [x].
Proof. apply take_S_r. Qed.

Lemma resize_take_app {A} (l : list A) n m x :
  (n ≤ length l)%nat → (n ≤ m)%nat →
  resize m x (take n l) = take n l ++ replicate (m - n) x.
Proof.
  intros Hn Hm. rewrite resize_ge by (rewrite length_take; lia).
  by rewrite length_take, Nat.min_l by lia.
Qed.

(** ** Inevitability by a measure *)

Section eventually.
Context {S : Type} (step : S → S → Prop).

(** From the states of an invariant, where a state either satisfies [P]
    or has a step, and every step keeps the invariant and lowers a
    measure, [P] is inevitable. *)
Lemma eventually_measure (inv : S → Prop) (μ : S → nat) (P : S → Prop) :
  (∀ s, inv s → P s ∨ ((∃ s', step s s') ∧
                        ∀ s', step s s' → inv s' ∧ (μ s' < μ s)%nat)) →
  ∀ s, inv s → eventually step P s.
Proof.
  intros Hstep. cut (∀ n s, (μ s < n)%nat → inv s → eventually step P s).
  { intros Hn s. apply (Hn (Datatypes.S (μ s))). lia. }
  induction n as [| n IH]; intros s Hlt Hinv; [lia |].
  destruct (Hstep s Hinv) as [HP | [Hex Hall]]; [by apply eventually_done |].
  apply eventually_step; [done |]. intros s' Hs'.
  destruct (Hall s' Hs') as [Hinv' Hlt']. apply IH; [lia | done].
Qed.

Lemma eventually_weaken (P Q : S → Prop) s :
  (∀ s', P s' → Q s') → eventually step P s → eventually step Q s.
Proof.
  intros HPQ. induction 1 as [s HP | s Hex _ IH];
    [by apply eventually_done, HPQ | by apply eventually_step].
Qed.
End eventually.
