(* ===== verification/Wire.v ===== *)
(** * Wire: the 16-byte chunk and its two big-endian words

    Both hypercalls move a 16-byte buffer through two 64-bit registers.
    [h_put_term_char] stores the registers into [buf] with
    [*((uint64_t * )buf) = cpu_to_be64(char0_7)] (lines 92-93 of
    [src/hw/spapr_vty.c]); [h_get_term_char] loads them back with
    [be64_to_cpu( *((uint64_t * )buf))] (lines 120-121). This file gives the
    bytes such a store leaves in memory and the word such a load reads, on
    any host, and proves that they are inverse of each other. *)

From stdpp Require Import base numbers list list_numbers.
From S2P Require Import Prelude.

Local Open Scope Z_scope.

(** ** Definitions *)

(** The [n] low bytes of [w], most significant first. *)
Fixpoint be_split (n : nat) (w : Z) : list Z :=
  match n with
  | O => []
  | S n' => be_split n' (w ≫ 8) ++ [Z.land w 255]
  end.

(** The word whose big-endian bytes are [bs]. *)
Definition be_combine (bs : list Z) : Z :=
  foldl (λ acc b, Z.lor (acc ≪ 8) b) 0 bs.

(** The eight bytes that [*(uint64_t * )p = cpu_to_be64(w)] stores at [p]. *)
Definition cpu_to_be64 (w : Z) : list Z := be_split 8 w.

(** The word that [be64_to_cpu( *(uint64_t * )p)] loads from the eight bytes
    at [p]. *)
Definition be64_to_cpu (bs : list Z) : Z := be_combine (take 8 bs).

(** Lines 92-93: the 16-byte buffer after both stores. *)
Definition chunk_of_words (char0_7 char8_15 : Z) : list Z :=
  cpu_to_be64 char0_7 ++ cpu_to_be64 char8_15.

(** Lines 120-121: the two words loaded from the buffer, the second from
    [(uint64_t * )buf + 1], eight bytes further. *)
Definition words_of_chunk (buf : list Z) : Z * Z :=
  (be64_to_cpu buf, be64_to_cpu (drop 8 buf)).

(** ** Big-endian is reversed little-endian *)

Lemma be_split_le n w :
  be_split n w = reverse (Z_to_little_endian (Z.of_nat n) 8 w).
Proof.
  revert w. induction n as [|n IH]; intros w; [done |].
  rewrite Nat2Z.inj_succ, Z_to_little_endian_succ by lia.
  rewrite reverse_cons. simpl. by rewrite IH.
Qed.

Lemma be_combine_snoc bs b :
  be_combine (bs ++ [b]) = Z.lor (be_combine bs ≪ 8) b.
Proof. unfold be_combine. by rewrite foldl_app. Qed.

Lemma be_combine_le bs : be_combine bs = little_endian_to_Z 8 (reverse bs).
Proof.
  induction bs as [|b bs IH] using rev_ind; [done |].
  rewrite be_combine_snoc, reverse_snoc. simpl.
  by rewrite IH, Z.lor_comm.
Qed.

(** ** Shape of the encoding *)

Lemma length_be_split n w : length (be_split n w) = n.
Proof.
  revert w. induction n as [|n IH]; intros w; [done |].
  simpl. rewrite length_app, IH. simpl. lia.
Qed.

Lemma length_cpu_to_be64 w : length (cpu_to_be64 w) = 8%nat.
Proof. apply length_be_split. Qed.

Lemma length_chunk_of_words w0 w1 : length (chunk_of_words w0 w1) = 16%nat.
Proof. unfold chunk_of_words. by rewrite length_app, !length_cpu_to_be64. Qed.

Lemma be_split_bytes n w : Forall is_byte (be_split n w).
Proof.
  rewrite be_split_le. apply Forall_reverse.
  apply (Z_to_little_endian_bound (Z.of_nat n) 8 w); lia.
Qed.

Lemma chunk_of_words_bytes w0 w1 : Forall is_byte (chunk_of_words w0 w1).
Proof. apply Forall_app; split; apply be_split_bytes. Qed.

Lemma be_combine_bound bs :
  Forall is_byte bs → 0 ≤ be_combine bs < 2 ^ (Z.of_nat (length bs) * 8).
Proof.
  intros Hbs. rewrite be_combine_le, <-(length_reverse bs).
  apply little_endian_to_Z_bound; [lia |]. by apply Forall_reverse.
Qed.

(** A word loaded from bytes is a 64-bit value. *)
Lemma be64_to_cpu_in_width bs : Forall is_byte bs → in_width 64 (be64_to_cpu bs).
Proof.
  intros Hbs. unfold be64_to_cpu, in_width.
  pose proof (be_combine_bound (take 8 bs) (Forall_take _ _ _ Hbs)) as [? Hlt].
  split; [done |]. eapply Z.lt_le_trans; [exact Hlt |].
  apply Z.pow_le_mono_r; [lia |]. rewrite length_take. lia.
Qed.

(** Byte [i] of the stored word is bits [8 * (n - 1 - i)] and up: byte 0
    is the most significant one. *)
Lemma be_split_lookup n w (i : nat) :
  (i < n)%nat →
  be_split n w !! i = Some (Z.land (w ≫ (8 * Z.of_nat (n - 1 - i))) 255).
Proof.
  intros Hi. rewrite be_split_le.
  pose proof (length_Z_to_little_endian (Z.of_nat n) 8 w) as Hlen.
  apply reverse_lookup_Some. split; [| lia].
  apply Z_to_little_endian_lookup_Some; [lia .. |].
  split; [lia |]. change (Z.ones 8) with 255. do 2 f_equal. lia.
Qed.

(** ** Round trips *)

Global Arguments be_split : simpl never.
Global Arguments cpu_to_be64 : simpl never.
Global Arguments be64_to_cpu : simpl never.

Lemma be_combine_split n w :
  be_combine (be_split n w) = w mod 2 ^ (Z.of_nat n * 8).
Proof.
  rewrite be_combine_le, be_split_le, reverse_involutive.
  apply little_endian_to_Z_to_little_endian; lia.
Qed.

Lemma be_split_combine bs :
  Forall is_byte bs → be_split (length bs) (be_combine bs) = bs.
Proof.
  intros Hbs. rewrite be_split_le, be_combine_le.
  rewrite Z_to_little_endian_to_Z, reverse_involutive;
    [done | by rewrite length_reverse | lia | by apply Forall_reverse].
Qed.

Lemma be64_to_cpu_app w rest : be64_to_cpu (cpu_to_be64 w ++ rest) = wrap 64 w.
Proof.
  unfold be64_to_cpu, cpu_to_be64.
  rewrite take_app_length' by (by rewrite length_be_split).
  apply be_combine_split.
Qed.

Lemma be64_to_cpu_take bs : be64_to_cpu (take 8 bs) = be64_to_cpu bs.
Proof. unfold be64_to_cpu. by rewrite take_take. Qed.

Lemma cpu_to_be64_to_cpu bs :
  length bs = 8%nat → Forall is_byte bs → cpu_to_be64 (be64_to_cpu bs) = bs.
Proof.
  intros Hlen Hbs. unfold be64_to_cpu, cpu_to_be64.
  rewrite take_ge by lia. rewrite <-Hlen. by apply be_split_combine.
Qed.

(** Two stores of the words loaded from the two halves of a 16-byte
    buffer rebuild the buffer. *)
Lemma cpu_to_be64_pair buf :
  length buf = 16%nat → Forall is_byte buf →
  cpu_to_be64 (be64_to_cpu buf) ++ cpu_to_be64 (be64_to_cpu (drop 8 buf)) = buf.
Proof.
  intros Hlen Hbs. etrans; [| apply (take_drop 8 buf)]. f_equal.
  - rewrite <-be64_to_cpu_take.
    apply cpu_to_be64_to_cpu; [rewrite length_take; lia | by apply Forall_take].
  - apply cpu_to_be64_to_cpu; [rewrite length_drop; lia | by apply Forall_drop].
Qed.

(** C35: Loading the two words from a buffer that was filled by storing
    [char0_7] and [char8_15] gives the two words back, reduced to 64 bits:
    the stores of [h_put_term_char] and the loads of [h_get_term_char] are
    inverse of each other. *)
Theorem words_of_chunk_of_words char0_7 char8_15 :
  words_of_chunk (chunk_of_words char0_7 char8_15)
  = (wrap 64 char0_7, wrap 64 char8_15).
Proof.
  unfold words_of_chunk, chunk_of_words. f_equal.
  - apply be64_to_cpu_app.
  - rewrite drop_app_length' by (by rewrite length_cpu_to_be64).
    rewrite <-(app_nil_r (cpu_to_be64 char8_15)). apply be64_to_cpu_app.
Qed.

(** C36: Storing the two words loaded from a 16-byte buffer rebuilds the
    buffer byte for byte, in the original order. *)
Theorem chunk_of_words_of_chunk buf :
  length buf = 16%nat → Forall is_byte buf →
  chunk_of_words (words_of_chunk buf).1 (words_of_chunk buf).2 = buf.
Proof.
  intros Hlen Hbs. unfold chunk_of_words, words_of_chunk. cbn [fst snd].
  by apply cpu_to_be64_pair.
Qed.

Lemma chunk_of_words_of_chunk_witness :
  chunk_of_words (words_of_chunk (seqZ 65 16)).1 (words_of_chunk (seqZ 65 16)).2
  = seqZ 65 16.
Proof.
  apply chunk_of_words_of_chunk; [done |].
  apply Forall_forall. intros b Hb. apply elem_of_seqZ in Hb.
  unfold is_byte, in_width. lia.
Defined.

(** Byte [i] of the buffer read off the registers: bytes 0 to 7 come from
    the first word and bytes 8 to 15 from the second, each word most
    significant byte first. *)
Lemma chunk_of_words_lookup char0_7 char8_15 (i : nat) :
  (i < 16)%nat →
  chunk_of_words char0_7 char8_15 !! i
  = Some (Z.land ((if decide (i < 8)%nat then char0_7 else char8_15)
                    ≫ (8 * Z.of_nat (7 - i mod 8))) 255).
Proof.
  intros Hi. unfold chunk_of_words, cpu_to_be64. case_decide.
  - rewrite lookup_app_l, be_split_lookup, Nat.mod_small
      by (rewrite ?length_be_split; lia).
    do 4 f_equal; lia.
  - rewrite lookup_app_r, length_be_split, be_split_lookup
      by (rewrite ?length_be_split; lia).
    rewrite <-(Nat.mod_unique i 8 1 (i - 8)) by lia. do 4 f_equal; lia.
Qed.

(** Byte 0 of the payload is the most significant byte of the first
    word and byte 15 the least significant byte of the second. *)
Theorem chunk_of_words_byte_order char0_7 char8_15 :
  chunk_of_words char0_7 char8_15 !! 0%nat = Some (Z.land (char0_7 ≫ 56) 255) ∧
  chunk_of_words char0_7 char8_15 !! 15%nat = Some (Z.land char8_15 255).
Proof.
  unfold chunk_of_words, cpu_to_be64. split.
  - rewrite lookup_app_l by (rewrite length_be_split; lia).
    by rewrite be_split_lookup by lia.
  - rewrite lookup_app_r by (rewrite length_be_split; lia).
    rewrite length_be_split, be_split_lookup by lia. simpl.
    by rewrite Z.shiftr_0_r.
Qed.
