(* ===== verification/RingBuffer.v ===== *)
(** * RingBuffer: the device record and its 16-byte ring

    Models lines 6-47 of [src/hw/spapr_vty.c]: the constant
    [VTERM_BUFSIZE], the struct [VIOsPAPRVTYDevice], and the three functions
    that read or move the cursors: [vty_can_receive], [vty_receive] and
    [vty_getchars]. The cursors [in] and [out] are [uint32_t] counters that
    only grow (modulo 2^32); byte number [c] lives in slot [c % 16].

    The file then states the invariant [vty_wf] of the record, the
    abstraction [contents] (the unread bytes, oldest first) and proves, for
    each function, what it does to [contents] on every branch. *)

From stdpp Require Import base numbers list option.
From S2P Require Import Prelude.

Local Open Scope Z_scope.
Local Open Scope vty_scope.

(** ** Data *)

(** [#define VTERM_BUFSIZE 16] *)
Definition VTERM_BUFSIZE : Z := 16.

(** The part of [VIOsPAPRDevice] (hw/spapr_vio.h) the terminal uses: the
    address [reg] the guest names the device by, and its interrupt line. *)
Record VIOsPAPRDevice : Type := mkVIO {
  sdev_reg : Z;
  sdev_qirq : Z;
}.

(** [struct VIOsPAPRVTYDevice]. [dev_chardev] is a pointer: [None] is NULL. *)
Record VIOsPAPRVTYDevice : Type := mkVTY {
  dev_sdev : VIOsPAPRDevice;
  dev_chardev : option Z;
  dev_in : Z;
  dev_out : Z;
  dev_buf : list Z;
}.

#[export] Instance VIOsPAPRDevice_eq_dec : EqDecision VIOsPAPRDevice.
Proof. solve_decision. Defined.

#[export] Instance VIOsPAPRVTYDevice_eq_dec : EqDecision VIOsPAPRVTYDevice.
Proof. solve_decision. Defined.

(** ** Operations *)

(** [vty_can_receive] (lines 15-20): the subtraction is done on [uint32_t]
    and compared unsigned; the result is the [int] 1 or 0. *)
Definition vty_can_receive (dev : VIOsPAPRVTYDevice) : Z :=
  Z_of_bool (dev_in dev ⊖ dev_out dev <? VTERM_BUFSIZE).

(** One iteration of the loop of [vty_receive] (lines 32-33): the
    assertion, then the store at slot [in % 16] and the post-increment. *)
Definition vty_receive_body (buf : list Z) (i : Z) (dev : VIOsPAPRVTYDevice)
  : res VIOsPAPRVTYDevice :=
  if dev_in dev ⊖ dev_out dev <? VTERM_BUFSIZE then
    b ← array_get buf i;
    slots ← array_set (dev_buf dev) (dev_in dev `mod` VTERM_BUFSIZE) b;
    Ok (mkVTY (dev_sdev dev) (dev_chardev dev) (dev_in dev ⊕ 1) (dev_out dev) slots)
  else Err AssertFail.

(** [vty_receive] (lines 22-35). The interrupt is pulsed before the loop,
    when the ring is empty and [size] is non-zero; then [size] bytes are
    stored one at a time. When the assertion of the loop fails the
    program is gone and the result is the fault alone: the pulse made
    before it is not part of the result, and no theorem is about the
    events of a call that faults. *)
Definition vty_receive (dev : VIOsPAPRVTYDevice) (buf : list Z) (size : Z)
  : res (VIOsPAPRVTYDevice * list event) :=
  let irq :=
    if (dev_in dev =? dev_out dev) && Z_truth size
    then [EvIrqPulse (sdev_qirq (dev_sdev dev))] else [] in
  dev' ← for_loop (Z.to_nat size) 0 (vty_receive_body buf) dev;
  Ok (dev', irq).

(** The state of the loop of [vty_getchars]: the device, the caller's
    buffer and the counter [n]. *)
Definition getchars_state : Type := VIOsPAPRVTYDevice * list Z * Z.

(** The loop condition (line 42). *)
Definition vty_getchars_cond (max : Z) (s : getchars_state) : bool :=
  let '(dev, _, n) := s in (n <? max) && negb (dev_out dev =? dev_in dev).

(** The loop body (line 43): [buf[n++] = dev->buf[dev->out++ % 16]]. *)
Definition vty_getchars_body (s : getchars_state) : res getchars_state :=
  let '(dev, buf, n) := s in
  b ← array_get (dev_buf dev) (dev_out dev `mod` VTERM_BUFSIZE);
  buf' ← array_set buf n b;
  Ok (mkVTY (dev_sdev dev) (dev_chardev dev) (dev_in dev) (dev_out dev ⊕ 1)
            (dev_buf dev), buf', n + 1).

(** [vty_getchars] (lines 37-47), run with one unit of fuel per possible
    iteration; the result is the device, the caller's buffer and [n]. *)
Definition vty_getchars (dev : VIOsPAPRVTYDevice) (buf : list Z) (max : Z)
  : res getchars_state :=
  while_loop (Z.to_nat max) (vty_getchars_cond max) vty_getchars_body
             (dev, buf, 0).

(** ** Invariant and abstraction *)

(** Number of unread bytes, as the code computes it. *)
Definition used (dev : VIOsPAPRVTYDevice) : Z := dev_in dev ⊖ dev_out dev.

(** The well-formed devices: cursors in range, a 16-slot array of bytes,
    at most 16 unread bytes. *)
Definition vty_wf (dev : VIOsPAPRVTYDevice) : Prop :=
  in_width 32 (dev_in dev) ∧ in_width 32 (dev_out dev) ∧
  length (dev_buf dev) = 16%nat ∧ used dev ≤ VTERM_BUFSIZE ∧
  Forall is_byte (dev_buf dev).

#[export] Instance vty_wf_dec dev : Decision (vty_wf dev).
Proof. unfold vty_wf. apply _. Defined.

(** The slot of byte number [c]. *)
Definition slot (c : Z) : nat := Z.to_nat (c `mod` VTERM_BUFSIZE).

(** The unread bytes, oldest first: bytes number [out], [out + 1], ...,
    [in - 1]. *)
Definition contents (dev : VIOsPAPRVTYDevice) : list Z :=
  (λ k, dev_buf dev !!! slot (dev_out dev + k)) <$> seqZ 0 (used dev).

(** A device right after allocation: zeroed memory. *)
Definition vty_zeroed (s : VIOsPAPRDevice) (chr : option Z) : VIOsPAPRVTYDevice :=
  mkVTY s chr 0 0 (replicate 16 0).

(** The fields no ring operation touches. *)
Definition same_static (dev dev' : VIOsPAPRVTYDevice) : Prop :=
  dev_sdev dev' = dev_sdev dev ∧ dev_chardev dev' = dev_chardev dev.

(** The device after [n] bytes have been taken out: only [out] moved. *)
Definition vty_consume (dev : VIOsPAPRVTYDevice) (n : Z) : VIOsPAPRVTYDevice :=
  mkVTY (dev_sdev dev) (dev_chardev dev) (dev_in dev) (wrap 32 (dev_out dev + n))
        (dev_buf dev).

(** ** Slots *)

Lemma slot_lt c : (slot c < 16)%nat.
Proof. unfold slot, VTERM_BUFSIZE. zmod. Qed.

Lemma slot_Z c : Z.of_nat (slot c) = c `mod` 16.
Proof. unfold slot, VTERM_BUFSIZE. zmod. Qed.

(** Wrap-around of a cursor does not move its slot. *)
Lemma slot_wrap_add a k j : slot (a ⊕ k + j) = slot (a + k + j).
Proof. unfold slot, VTERM_BUFSIZE. f_equal. zmod. Qed.

(** The slot one past the unread bytes is the slot of [in]. *)
Lemma slot_out_used dev : slot (dev_out dev + used dev) = slot (dev_in dev).
Proof. unfold slot, used, VTERM_BUFSIZE. f_equal. zmod. Qed.

(** Two byte numbers less than 16 apart have different slots. *)
Lemma slot_add_neq c d : 0 < d < 16 → slot (c + d) ≠ slot c.
Proof.
  intros Hd Heq. apply (f_equal Z.of_nat) in Heq. rewrite !slot_Z in Heq.
  by apply (mod16_add_neq c d).
Qed.

#[export] Hint Resolve slot_lt : vty.

(** ** Basic facts on [used], [vty_wf] and [contents] *)

Lemma used_range dev : 0 ≤ used dev < 2 ^ 32.
Proof. apply u32_sub_in_width. Qed.

Lemma vty_wf_used dev : vty_wf dev → 0 ≤ used dev ≤ 16.
Proof. intros (_ & _ & _ & ? & _). pose proof (used_range dev). unfold VTERM_BUFSIZE in *. lia. Qed.

Lemma vty_wf_length dev : vty_wf dev → length (dev_buf dev) = 16%nat.
Proof. by intros (_ & _ & ? & _). Qed.

Lemma used_0_iff dev : vty_wf dev → used dev = 0 ↔ dev_in dev = dev_out dev.
Proof. intros (? & ? & _). by apply u32_sub_0_iff. Qed.

Lemma length_contents dev : length (contents dev) = Z.to_nat (used dev).
Proof. unfold contents. by rewrite length_fmap, length_seqZ. Qed.

Lemma contents_nil_iff dev : vty_wf dev → contents dev = [] ↔ dev_in dev = dev_out dev.
Proof.
  intros Hwf. rewrite <-used_0_iff by done. pose proof (used_range dev).
  rewrite <-length_zero_iff_nil, length_contents. lia.
Qed.

Lemma contents_bytes dev : vty_wf dev → Forall is_byte (contents dev).
Proof.
  intros Hwf. unfold contents. apply Forall_fmap, Forall_forall. intros k _. simpl.
  destruct Hwf as (_ & _ & Hlen & _ & Hb).
  eapply Forall_lookup_1; [done |].
  apply list_lookup_lookup_total_lt. rewrite Hlen. apply slot_lt.
Qed.

Lemma vty_zeroed_wf s chr : vty_wf (vty_zeroed s chr).
Proof. apply (bool_decide_unpack _). by vm_compute. Qed.

Lemma vty_zeroed_contents s chr : contents (vty_zeroed s chr) = [].
Proof. done. Qed.

(** ** One step of each loop *)

(** Storing one byte: the body of [vty_receive] on a ring that is not
    full appends the byte to the contents. *)
Lemma vty_receive_body_spec dev buf i b :
  vty_wf dev → used dev < 16 → 0 ≤ i → buf !! Z.to_nat i = Some b → is_byte b →
  ∃ dev', vty_receive_body buf i dev = Ok dev' ∧ vty_wf dev' ∧
          contents dev' = contents dev ++ [b] ∧ used dev' = used dev + 1 ∧
          dev_out dev' = dev_out dev ∧ same_static dev dev'.
Proof.
  intros Hwf Hu Hi Hb Hbyte. pose proof (vty_wf_used dev Hwf) as Hr.
  destruct Hwf as (Hin & Hout & Hlen & _ & Hbs).
  unfold vty_receive_body, array_set. fold (used dev).
  rewrite (proj2 (Z.ltb_lt _ _)) by done.
  rewrite (proj2 (array_get_Ok buf i b)) by done. cbn.
  rewrite decide_True by (rewrite Hlen; unfold VTERM_BUFSIZE; zmod). cbn.
  fold (slot (dev_in dev)). eexists; split; [done |].
  assert (Hu' : dev_in dev ⊕ 1 ⊖ dev_out dev = used dev + 1)
    by (apply u32_sub_add_l; unfold used in *; lia).
  split_and!; try done.
  - unfold vty_wf, used. simpl. rewrite Hu', length_insert.
    split_and!; [apply u32_add_in_width | done | done | unfold VTERM_BUFSIZE; lia |].
    by apply Forall_insert.
  - unfold contents, used; simpl. rewrite Hu'. fold (used dev).
    rewrite seqZ_snoc, fmap_app by lia. simpl. f_equal.
    + apply list_fmap_ext. intros j k Hk%lookup_seqZ.
      apply list_lookup_total_insert_ne. rewrite <-slot_out_used.
      replace (dev_out dev + used dev) with (dev_out dev + k + (used dev - k)) by lia.
      apply slot_add_neq. lia.
    + rewrite slot_out_used. f_equal.
      apply list_lookup_total_insert_eq. rewrite Hlen. apply slot_lt.
Qed.

(** Taking one byte: the body of [vty_getchars] on a ring that is not
    empty removes the oldest byte and stores it at [buf[n]]. *)
Lemma vty_getchars_body_spec dev buf n :
  vty_wf dev → dev_out dev ≠ dev_in dev → 0 ≤ n < Z.of_nat (length buf) →
  ∃ b, vty_getchars_body (dev, buf, n)
       = Ok (vty_consume dev 1, <[Z.to_nat n := b]> buf, n + 1) ∧
       vty_wf (vty_consume dev 1) ∧ contents dev = b :: contents (vty_consume dev 1).
Proof.
  intros Hwf Hne Hn. pose proof (vty_wf_used dev Hwf) as Hr.
  assert (Hpos : 0 < used dev).
  { pose proof (used_0_iff dev Hwf). destruct (decide (used dev = 0)); [naive_solver | lia]. }
  destruct Hwf as (Hin & Hout & Hlen & _ & Hbs).
  exists (dev_buf dev !!! slot (dev_out dev)).
  unfold vty_getchars_body, array_set. fold (slot (dev_out dev)).
  rewrite (proj2 (array_get_Ok _ _ (dev_buf dev !!! slot (dev_out dev)))); last first.
  { split; [unfold VTERM_BUFSIZE; zmod |]. fold (slot (dev_out dev)).
    apply list_lookup_lookup_total_lt. rewrite Hlen. apply slot_lt. }
  cbn. rewrite decide_True by done. cbn. split; [done |].
  assert (Hu' : dev_in dev ⊖ (dev_out dev ⊕ 1) = used dev - 1)
    by (apply u32_sub_add_r; unfold used in *; lia).
  fold (dev_out dev ⊕ 1) in *. split.
  - unfold vty_wf, used. simpl. fold (dev_out dev ⊕ 1). rewrite Hu'.
    split_and!; [done | apply u32_add_in_width | done | unfold VTERM_BUFSIZE; lia | done].
  - unfold contents at 1. rewrite seqZ_cons by done. rewrite fmap_cons.
    rewrite Z.add_0_r. f_equal.
    unfold contents, used; simpl. fold (dev_out dev ⊕ 1). rewrite Hu'. fold (used dev).
    rewrite <-(fmap_add_seqZ 1 0), <-list_fmap_compose. change (Z.pred ?x) with (x - 1).
    apply list_fmap_ext. intros _ k _. simpl.
    by rewrite slot_wrap_add, Z.add_assoc.
Qed.

Lemma vty_consume_0 dev : in_width 32 (dev_out dev) → vty_consume dev 0 = dev.
Proof.
  intros Hout. destruct dev. unfold vty_consume. simpl in *.
  by rewrite Z.add_0_r, wrap_small.
Qed.

Lemma vty_consume_consume dev n m :
  vty_consume (vty_consume dev n) m = vty_consume dev (n + m).
Proof. unfold vty_consume. simpl. f_equal. zmod. Qed.

(** ** [vty_receive] *)

Section receive.
Context (dev : VIOsPAPRVTYDevice) (buf : list Z).
Hypothesis Hwf : vty_wf dev.
Hypothesis Hbuf : Forall is_byte buf.

(** The invariant of the loop of [vty_receive] before iteration [i]. *)
Definition receive_inv (i : Z) (d : VIOsPAPRVTYDevice) : Prop :=
  vty_wf d ∧ contents d = contents dev ++ take (Z.to_nat i) buf ∧
  used d = used dev + i ∧ dev_out d = dev_out dev ∧ same_static dev d.

Lemma receive_inv_init : receive_inv 0 dev.
Proof. unfold receive_inv, same_static. rewrite app_nil_r. split_and!; [done .. | lia | done | done | done]. Qed.

(** An iteration on a ring that is not full keeps the invariant. *)
Lemma receive_inv_step i d :
  0 ≤ i < Z.of_nat (length buf) → used dev + i < 16 → receive_inv i d →
  ∃ d', vty_receive_body buf i d = Ok d' ∧ receive_inv (i + 1) d'.
Proof.
  intros Hi Hroom (Hd & Hc & Hu & Ho & Hs1 & Hs2).
  destruct (lookup_lt_is_Some_2 buf (Z.to_nat i)) as [b Hb]; [lia |].
  destruct (vty_receive_body_spec d buf i b) as (d' & -> & ? & Hc' & Hu' & Ho' & Hs1' & Hs2');
    [done | lia | lia | done | by eapply Forall_lookup_1 |].
  exists d'. split; [done |]. unfold receive_inv, same_static.
  rewrite Hc', Hc, Hu', Hu, Ho', Ho, Hs1', Hs2', <-app_assoc.
  replace (Z.to_nat (i + 1)) with (S (Z.to_nat i)) by lia.
  rewrite (take_S_r _ _ b) by done. split_and!; [done .. | lia | done | done | done].
Qed.

(** An iteration on a full ring trips the assertion. *)
Lemma receive_inv_full i d :
  used dev + i = 16 → receive_inv i d → vty_receive_body buf i d = Err AssertFail.
Proof.
  intros Hfull (_ & _ & Hu & _). unfold vty_receive_body. fold (used d).
  rewrite (proj2 (Z.ltb_ge _ _)); [done | unfold VTERM_BUFSIZE; lia].
Qed.

Lemma vty_receive_loop size :
  0 ≤ size ≤ Z.of_nat (length buf) → used dev + size ≤ 16 →
  ∃ dev', for_loop (Z.to_nat size) 0 (vty_receive_body buf) dev = Ok dev' ∧
          receive_inv size dev'.
Proof.
  intros Hsize Hroom.
  destruct (for_loop_inv receive_inv (vty_receive_body buf) (Z.to_nat size) 0 dev)
    as (dev' & ? & Hinv); [apply receive_inv_init | |].
  - intros j t Hj. apply receive_inv_step; lia.
  - exists dev'. by rewrite Z.add_0_l, Z2Nat.id in Hinv by lia.
Qed.

(** Without room the loop fills the free slots and then aborts. *)
Lemma vty_receive_loop_overflow size :
  size ≤ Z.of_nat (length buf) → 16 < used dev + size →
  for_loop (Z.to_nat size) 0 (vty_receive_body buf) dev = Err AssertFail.
Proof.
  intros Hsize Hover. pose proof (vty_wf_used dev Hwf).
  apply (for_loop_fail receive_inv _ _ 0 dev (Z.to_nat (16 - used dev)));
    [lia | by apply receive_inv_init | |].
  - intros j t Hj. apply receive_inv_step; lia.
  - intros t. apply receive_inv_full. lia.
Qed.
End receive.

(** The interrupt events [vty_receive] emits: one pulse of the device's
    line when the ring is empty and [size] is non-zero, nothing otherwise. *)
Definition receive_irq (dev : VIOsPAPRVTYDevice) (size : Z) : list event :=
  if bool_decide (contents dev = [] ∧ size ≠ 0)
  then [EvIrqPulse (sdev_qirq (dev_sdev dev))] else [].

Lemma vty_receive_irq_cond dev size :
  vty_wf dev →
  (dev_in dev =? dev_out dev) && Z_truth size = bool_decide (contents dev = [] ∧ size ≠ 0).
Proof.
  intros Hwf. unfold Z_truth. pose proof (contents_nil_iff dev Hwf).
  destruct (Z.eqb_spec (dev_in dev) (dev_out dev)), (Z.eqb_spec size 0); simpl;
    symmetry; (apply bool_decide_eq_true || apply bool_decide_eq_false); naive_solver.
Qed.

(** With room for [size] bytes [vty_receive] returns, and the device it
    returns satisfies the invariant of the loop after [size] iterations. *)
Lemma vty_receive_ok dev buf size :
  vty_wf dev → Forall is_byte buf →
  0 ≤ size ≤ Z.of_nat (length buf) → used dev + size ≤ 16 →
  ∃ dev', vty_receive dev buf size = Ok (dev', receive_irq dev size) ∧
          receive_inv dev buf size dev'.
Proof.
  intros Hwf Hbuf Hsize Hroom.
  destruct (vty_receive_loop dev buf Hwf Hbuf size Hsize Hroom) as (dev' & Hloop & Hinv).
  exists dev'. unfold vty_receive, receive_irq.
  by rewrite Hloop, vty_receive_irq_cond.
Qed.

(** A call of [vty_receive] that returns had room, and returned what
    [vty_receive_ok] says. *)
Lemma vty_receive_Ok_inv dev buf size dev' evs :
  vty_wf dev → Forall is_byte buf → 0 ≤ size ≤ Z.of_nat (length buf) →
  vty_receive dev buf size = Ok (dev', evs) →
  used dev + size ≤ 16 ∧ evs = receive_irq dev size ∧ receive_inv dev buf size dev'.
Proof.
  intros Hwf Hbuf Hsize Hrun. destruct (decide (used dev + size ≤ 16)) as [Hroom | Hfull].
  - destruct (vty_receive_ok dev buf size) as (d & Hrun' & Hinv); [done .. |].
    rewrite Hrun in Hrun'. by injection Hrun' as -> ->.
  - unfold vty_receive in Hrun.
    by rewrite vty_receive_loop_overflow in Hrun by (done || lia).
Qed.

(** C1: Refinement of enqueue: on a well-formed device with room for
    [size] more bytes, [vty_receive] returns, the unread bytes become the
    old ones followed by the first [size] bytes of [buf], the device stays
    well-formed, [out] and the static fields are unchanged, and the
    interrupt is pulsed once exactly when the ring was empty and [size] is
    not zero. *)
Theorem vty_receive_enqueues dev buf size :
  vty_wf dev → Forall is_byte buf →
  0 ≤ size ≤ Z.of_nat (length buf) → used dev + size ≤ 16 →
  ∃ dev', vty_receive dev buf size = Ok (dev', receive_irq dev size) ∧
          vty_wf dev' ∧
          contents dev' = contents dev ++ take (Z.to_nat size) buf ∧
          dev_out dev' = dev_out dev ∧ same_static dev dev'.
Proof.
  intros Hwf Hbuf Hsize Hroom.
  destruct (vty_receive_ok dev buf size) as (dev' & Hrun & Hd & Hc & _ & Ho & Hs);
    [done .. |].
  by exists dev'.
Qed.

(** C8: Overflow is fatal: when [size] bytes do not fit, the assertion of
    the loop fails (after the free slots have been filled) and
    [vty_receive] aborts instead of returning. *)
Theorem vty_receive_overflow dev buf size :
  vty_wf dev → Forall is_byte buf →
  size ≤ Z.of_nat (length buf) → 16 < used dev + size →
  vty_receive dev buf size = Err AssertFail.
Proof.
  intros Hwf Hbuf Hsize Hover. unfold vty_receive.
  by rewrite vty_receive_loop_overflow.
Qed.

(** C20: The cursor of the producer at the edge of its type: a call of
    [vty_receive] that returns has moved [in] forward by [size] modulo
    2^32 and left [out] alone; [in] is again a 32-bit value, the number
    of unread bytes computed from the two cursors has grown by exactly
    [size] and is at most 16, also when [in] has passed 2^32 - 1 and
    wrapped to a value below [out]. *)
Theorem vty_receive_cursors dev buf size dev' evs :
  vty_wf dev → Forall is_byte buf → 0 ≤ size ≤ Z.of_nat (length buf) →
  vty_receive dev buf size = Ok (dev', evs) →
  dev_in dev' = (dev_in dev + size) `mod` 2 ^ 32 ∧ dev_out dev' = dev_out dev ∧
  0 ≤ dev_in dev' < 2 ^ 32 ∧ used dev' = used dev + size ∧ 0 ≤ used dev' ≤ 16.
Proof.
  intros Hwf Hbuf Hsize Hrun. pose proof (vty_wf_used dev Hwf).
  apply vty_receive_Ok_inv in Hrun as (Hroom & _ & Hwf' & _ & Hu & Ho & _); [| done ..].
  pose proof (vty_wf_used dev' Hwf'). destruct Hwf as (Hin & Hout & _), Hwf' as (Hin' & _).
  split_and!; [| done || apply Hin' || lia ..]. unfold used in *. rewrite Ho in Hu. zmod.
Qed.

(** ** [vty_getchars] *)

(** What remains to run of the loop: [max - n] iterations at most. *)
Definition getchars_measure (max : Z) (s : getchars_state) : nat :=
  Z.to_nat (max - s.2).

Lemma vty_getchars_cond_measure max s :
  vty_getchars_cond max s = true → (0 < getchars_measure max s)%nat.
Proof.
  destruct s as [[d b] n]. unfold vty_getchars_cond, getchars_measure. simpl.
  intros [Hn%Z.ltb_lt _]%andb_prop. lia.
Qed.

Lemma vty_getchars_body_measure max s s' :
  vty_getchars_cond max s = true → vty_getchars_body s = Ok s' →
  (getchars_measure max s' < getchars_measure max s)%nat.
Proof.
  destruct s as [[d b] n]. unfold vty_getchars_cond, vty_getchars_body, getchars_measure.
  intros [Hn%Z.ltb_lt _]%andb_prop Hbody.
  apply res_bind_Ok in Hbody as (x & _ & Hbody).
  apply res_bind_Ok in Hbody as (b' & _ & [= <-]). simpl. lia.
Qed.

Lemma vty_getchars_body_no_fuel s : vty_getchars_body s ≠ Err OutOfFuel.
Proof.
  destruct s as [[d b] n]. unfold vty_getchars_body, array_get, array_set.
  repeat (case_decide || case_match); cbn; congruence.
Qed.

(** C18: Termination of the loop of [vty_getchars]: on every device, well
    formed or not, with every buffer and every [max], the fuel
    [Z.to_nat max] the model runs the loop with is not exhausted, and any
    larger amount of fuel gives the same result. *)
Theorem vty_getchars_fuel dev buf max fuel :
  vty_getchars dev buf max ≠ Err OutOfFuel ∧
  ((Z.to_nat max ≤ fuel)%nat →
   while_loop fuel (vty_getchars_cond max) vty_getchars_body (dev, buf, 0)
   = vty_getchars dev buf max).
Proof.
  assert (Hne : vty_getchars dev buf max ≠ Err OutOfFuel).
  { apply (while_loop_fuel_enough (getchars_measure max));
      [unfold getchars_measure; simpl; lia | apply vty_getchars_cond_measure
      | apply vty_getchars_body_measure | apply vty_getchars_body_no_fuel]. }
  split; [done |]. intros Hfuel. by apply while_loop_fuel_mono.
Qed.

Section getchars.
Context (dev : VIOsPAPRVTYDevice) (buf : list Z) (max : Z).
Hypothesis Hwf : vty_wf dev.
Hypothesis Hmax : 0 ≤ max ≤ Z.of_nat (length buf).

(** The invariant of the loop of [vty_getchars]: the bytes taken so far
    are in [b[0 .. n-1]], the rest of [b] is untouched, and the bytes
    taken followed by those still in the ring are the initial contents. *)
Definition getchars_inv (s : getchars_state) : Prop :=
  let '(d, b, n) := s in
  vty_wf d ∧ 0 ≤ n ≤ max ∧ length b = length buf ∧
  contents dev = take (Z.to_nat n) b ++ contents d ∧
  drop (Z.to_nat n) b = drop (Z.to_nat n) buf ∧ d = vty_consume dev n.

Lemma getchars_inv_init : getchars_inv (dev, buf, 0).
Proof.
  unfold getchars_inv. rewrite vty_consume_0 by apply Hwf.
  split_and!; try done; lia.
Qed.

Lemma getchars_inv_step s :
  getchars_inv s → vty_getchars_cond max s = true →
  ∃ s', vty_getchars_body s = Ok s' ∧ getchars_inv s' ∧
        (getchars_measure max s' < getchars_measure max s)%nat.
Proof.
  destruct s as [[d b] n].
  intros (Hd & Hn & Hlen & Hc & Hdrop & Hcons) Hcond.
  pose proof Hcond as [Hlt%Z.ltb_lt Hne%negb_true_iff%Z.eqb_neq]%andb_prop.
  destruct (vty_getchars_body_spec d b n) as (x & Hbody & Hd' & Hc'); [done | done | lia |].
  eexists. split; [done |]. split; [| by eapply vty_getchars_body_measure].
  unfold getchars_inv. rewrite length_insert.
  replace (Z.to_nat (n + 1)) with (S (Z.to_nat n)) by lia.
  split_and!; try done; try lia.
  - rewrite Hc, Hc'. rewrite (take_S_r _ _ x) by (apply list_lookup_insert_eq; lia).
    by rewrite take_insert_ge, <-app_assoc by lia.
  - rewrite drop_insert_lt by lia.
    replace (S (Z.to_nat n)) with (Z.to_nat n + 1)%nat by lia.
    by rewrite <-!drop_drop, Hdrop.
  - by rewrite Hcons, vty_consume_consume.
Qed.

(** The loop ends with the invariant and a false condition. *)
Lemma vty_getchars_loop :
  ∃ s, vty_getchars dev buf max = Ok s ∧ getchars_inv s ∧
       vty_getchars_cond max s = false.
Proof.
  apply (while_loop_variant getchars_inv (getchars_measure max));
    [apply getchars_inv_init | unfold getchars_measure; simpl; lia
    | intros t Ht Hc; by apply getchars_inv_step].
Qed.
End getchars.

(** The result of [vty_getchars] in closed form: [n = min max (used dev)]
    bytes are taken, and the device is the one given with [out] advanced
    by [n]. *)
Lemma vty_getchars_ok dev buf max :
  vty_wf dev → 0 ≤ max ≤ Z.of_nat (length buf) →
  let n := Z.to_nat (max `min` used dev) in
  vty_getchars dev buf max
  = Ok (vty_consume dev (Z.of_nat n), take n (contents dev) ++ drop n buf, Z.of_nat n) ∧
  vty_wf (vty_consume dev (Z.of_nat n)) ∧
  contents (vty_consume dev (Z.of_nat n)) = drop n (contents dev).
Proof.
  intros Hwf Hmax n.
  destruct (vty_getchars_loop dev buf max Hwf Hmax) as ([[d b] k] & Hrun & Hinv & Hcond).
  destruct Hinv as (Hd & Hk & Hlen & Hc & Hdrop & Hcons).
  assert (Hklen : length (take (Z.to_nat k) b) = Z.to_nat k) by (rewrite length_take; lia).
  assert (Hused : used dev = k + used d).
  { pose proof (used_range dev). pose proof (used_range d).
    apply (f_equal length) in Hc. rewrite length_app, !length_contents, Hklen in Hc. lia. }
  assert (Hn : n = Z.to_nat k).
  { unfold vty_getchars_cond in Hcond. pose proof (used_range d).
    apply andb_false_iff in Hcond as [Hge%Z.ltb_ge | Heq%negb_false_iff%Z.eqb_eq]; [lia |].
    symmetry in Heq. apply used_0_iff in Heq; [lia | done]. }
  rewrite Hrun, Hn, Z2Nat.id, <-Hcons by lia.
  rewrite Hc, take_app_length', drop_app_length', <-Hdrop, take_drop by done.
  by split_and!.
Qed.

(** C2: Refinement of dequeue: on a well-formed device, with a caller
    buffer of at least [max] bytes, [vty_getchars] returns
    [n = min max (used dev)], the first [n] unread bytes are in [buf[0..n-1]]
    in order, the rest of [buf] is untouched, the ring keeps the other
    unread bytes, [in], the slots and the static fields are unchanged and
    the device stays well-formed. *)
Theorem vty_getchars_dequeues dev buf max :
  vty_wf dev → 0 ≤ max ≤ Z.of_nat (length buf) →
  let n := Z.to_nat (max `min` used dev) in
  ∃ dev', vty_getchars dev buf max
          = Ok (dev', take n (contents dev) ++ drop n buf, Z.of_nat n) ∧
          vty_wf dev' ∧ contents dev' = drop n (contents dev) ∧
          dev_in dev' = dev_in dev ∧ dev_buf dev' = dev_buf dev ∧
          same_static dev dev'.
Proof.
  intros Hwf Hmax n.
  destruct (vty_getchars_ok dev buf max Hwf Hmax) as (Hrun & Hwf' & Hc).
  by exists (vty_consume dev (Z.of_nat n)).
Qed.

(** ** [vty_can_receive] and the delivery contract *)

(** C32: [vty_can_receive] answers 1 when fewer than 16 bytes are unread
    and 0 otherwise, on every device. *)
Theorem vty_can_receive_spec dev :
  vty_can_receive dev = Z_of_bool (bool_decide (length (contents dev) < 16)%nat).
Proof.
  unfold vty_can_receive, VTERM_BUFSIZE. fold (used dev).
  rewrite length_contents. pose proof (used_range dev). f_equal.
  destruct (Z.ltb_spec (used dev) 16); symmetry;
    [apply bool_decide_eq_true | apply bool_decide_eq_false]; lia.
Qed.

(** C33: The delivery contract is enough: a backend that offers at most as
    many bytes as [vty_can_receive] answered (so at most one) never trips
    the assertion of [vty_receive]. *)
Theorem vty_receive_gated dev buf size :
  vty_wf dev → Forall is_byte buf →
  0 ≤ size ≤ vty_can_receive dev → size ≤ Z.of_nat (length buf) →
  is_Ok (vty_receive dev buf size).
Proof.
  intros Hwf Hbuf Hsize Hlen. pose proof (vty_wf_used dev Hwf).
  destruct (vty_receive_ok dev buf size) as (dev' & -> & _); [done | done | lia | | by eexists].
  revert Hsize. unfold vty_can_receive, VTERM_BUFSIZE. fold (used dev).
  destruct (Z.ltb_spec (used dev) 16); simpl; lia.
Qed.

(** C34: The answer of [vty_can_receive] is a number of bytes, not a
    permission for a batch: with 15 unread bytes it answers 1, and a
    delivery of two bytes made on that answer stores one and aborts on
    the other. *)
Theorem vty_can_receive_one_byte dev a b :
  vty_wf dev → used dev = 15 → is_byte a → is_byte b →
  vty_can_receive dev = 1 ∧ vty_receive dev [a; b] 2 = Err AssertFail.
Proof.
  intros Hwf Hused Ha Hb. split.
  - unfold vty_can_receive, VTERM_BUFSIZE. fold (used dev). by rewrite Hused.
  - unfold vty_receive.
    assert (Forall is_byte [a; b]) by (by repeat apply Forall_cons_2).
    rewrite vty_receive_loop_overflow; [done | done || (simpl; lia) ..].
Qed.

(** C39: A negative [size] stores nothing, but still counts as non-zero
    in the test that guards the interrupt: on an empty ring the line is
    pulsed although no byte arrived. *)
Theorem vty_receive_negative_size dev buf size :
  size < 0 →
  vty_receive dev buf size
  = Ok (dev, if dev_in dev =? dev_out dev
             then [EvIrqPulse (sdev_qirq (dev_sdev dev))] else []).
Proof.
  intros Hneg. unfold vty_receive, Z_truth.
  replace (Z.to_nat size) with 0%nat by lia. simpl.
  by rewrite (proj2 (Z.eqb_neq size 0)), andb_true_r by lia.
Qed.

(** ** Witnesses *)

(** A device whose cursors have wrapped around 2^32: [out] is three below
    the limit and [in] is 2, with five unread bytes in slots 13, 14, 15, 0
    and 1. *)
Definition wrapped_dev : VIOsPAPRVTYDevice :=
  mkVTY (mkVIO 5 7) (Some 1) 2 (2 ^ 32 - 3) (seqZ 100 16).

Lemma wrapped_dev_wf : vty_wf wrapped_dev.
Proof. by_compute. Qed.

Lemma vty_receive_enqueues_witness :
  ∃ dev', vty_receive wrapped_dev [65; 66; 67] 3 = Ok (dev', receive_irq wrapped_dev 3) ∧
          vty_wf dev' ∧
          contents dev' = contents wrapped_dev ++ take (Z.to_nat 3) [65; 66; 67] ∧
          dev_out dev' = dev_out wrapped_dev ∧ same_static wrapped_dev dev'.
Proof.
  apply (vty_receive_enqueues wrapped_dev [65; 66; 67] 3);
    [apply wrapped_dev_wf | by_compute | by_compute | by_compute].
Defined.

(** [in] is one below 2^32 and two ahead of [out]; three more bytes take
    it to 2. *)
Definition edge_dev : VIOsPAPRVTYDevice :=
  mkVTY (mkVIO 5 7) (Some 1) (2 ^ 32 - 1) (2 ^ 32 - 3) (seqZ 100 16).

Lemma vty_receive_cursors_witness :
  ∃ dev', dev_in dev' = (dev_in edge_dev + 3) `mod` 2 ^ 32 ∧ dev_in dev' = 2 ∧
          used dev' = used edge_dev + 3.
Proof.
  destruct (vty_receive edge_dev [65; 66; 67] 3) as [[dev' evs] |] eqn:Hrun;
    [| by vm_compute in Hrun].
  destruct (vty_receive_cursors edge_dev [65; 66; 67] 3 dev' evs) as (Hin & _ & _ & Hu & _);
    [by_compute | by_compute | done | done |].
  exists dev'. by rewrite Hin, Hu.
Defined.

Lemma vty_receive_overflow_witness :
  vty_receive wrapped_dev (seqZ 0 12) 12 = Err AssertFail.
Proof.
  apply (vty_receive_overflow wrapped_dev (seqZ 0 12) 12);
    [apply wrapped_dev_wf | by_compute | by_compute | by_compute].
Defined.

Lemma vty_getchars_dequeues_witness :
  let n := Z.to_nat (16 `min` used wrapped_dev) in
  ∃ dev', vty_getchars wrapped_dev (replicate 16 255) 16
          = Ok (dev', take n (contents wrapped_dev) ++ drop n (replicate 16 255), Z.of_nat n) ∧
          vty_wf dev' ∧ contents dev' = drop n (contents wrapped_dev) ∧
          dev_in dev' = dev_in wrapped_dev ∧ dev_buf dev' = dev_buf wrapped_dev ∧
          same_static wrapped_dev dev'.
Proof.
  apply (vty_getchars_dequeues wrapped_dev (replicate 16 255) 16);
    [apply wrapped_dev_wf | by_compute].
Defined.

Lemma vty_receive_gated_witness :
  is_Ok (vty_receive wrapped_dev [65] 1).
Proof.
  apply (vty_receive_gated wrapped_dev [65] 1);
    [apply wrapped_dev_wf | by_compute | by_compute | by_compute].
Defined.

Lemma vty_can_receive_one_byte_witness :
  vty_can_receive (mkVTY (mkVIO 5 7) (Some 1) 15 0 (seqZ 100 16)) = 1 ∧
  vty_receive (mkVTY (mkVIO 5 7) (Some 1) 15 0 (seqZ 100 16)) [65; 66] 2 = Err AssertFail.
Proof.
  apply (vty_can_receive_one_byte (mkVTY (mkVIO 5 7) (Some 1) 15 0 (seqZ 100 16)) 65 66);
    [by_compute | done | by_compute | by_compute].
Defined.

Lemma vty_receive_negative_size_witness :
  vty_receive (vty_zeroed (mkVIO 5 7) (Some 1)) [] (-1)
  = Ok (vty_zeroed (mkVIO 5 7) (Some 1), [EvIrqPulse 7]).
Proof. apply (vty_receive_negative_size (vty_zeroed (mkVIO 5 7) (Some 1)) [] (-1)). lia. Defined.

Lemma vty_getchars_fuel_witness :
  vty_getchars wrapped_dev (replicate 16 255) 3 ≠ Err OutOfFuel ∧
  ((Z.to_nat 3 ≤ 40)%nat →
   while_loop 40 (vty_getchars_cond 3) vty_getchars_body (wrapped_dev, replicate 16 255, 0)
   = vty_getchars wrapped_dev (replicate 16 255) 3).
Proof. apply (vty_getchars_fuel wrapped_dev (replicate 16 255) 3 40). Defined.
