(* ===== verification/Fifo.v ===== *)
(** * Fifo: the contract of the bounded byte queue and its two implementations

    The hypercall handlers and the character backend use the ring of a
    terminal as a bounded first-in first-out queue of bytes.  This file
    states that contract once, as a class of operations [ByteQueue] and a
    class of laws [ByteQueueLaws] phrased on the abstract contents, and
    gives two implementations of it:

    - [list_queue cap], the reference: a list of at most [cap] bytes;
    - [vty_byte_queue], the ring of [RingBuffer]: the operations are
      [vty_receive] and [vty_getchars] of hw/spapr_vty.c as their callers
      use them.

    The theorems of section [client] are proved against the interface
    only: runs of operations on any lawful queue are simulated by the runs
    of the reference on its contents, and come out in the order they went
    in.  The laws of the ring are discharged from the lemmas of
    [RingBuffer], which makes those theorems hold of the code. *)

From stdpp Require Import base numbers list option.
From S2P Require Import Prelude.
From S2P Require Import RingBuffer.

#[local] Open Scope Z_scope.
#[local] Open Scope vty_scope.

(** ** The interface *)

(** The operations of a bounded byte queue with states [Q]. *)
Class ByteQueue (Q : Type) : Type := {
  bq_capacity : nat;
  bq_wf : Q → Prop;
  bq_contents : Q → list Z;
  bq_can_accept : Q → bool;
  bq_enqueue : Q → list Z → res Q;
  bq_dequeue : Q → nat → res (Q * list Z);
}.

(** What the operations promise, on the abstract contents. *)
Class ByteQueueLaws (Q : Type) `{!ByteQueue Q} : Prop := {
  bq_bound q : bq_wf q → (length (bq_contents q) ≤ bq_capacity)%nat;
  bq_bytes q : bq_wf q → Forall is_byte (bq_contents q);
  bq_can_accept_spec q :
    bq_can_accept q = bool_decide (length (bq_contents q) < bq_capacity)%nat;
  bq_enqueue_ok q bs :
    bq_wf q → Forall is_byte bs →
    (length (bq_contents q) + length bs ≤ bq_capacity)%nat →
    ∃ q', bq_enqueue q bs = Ok q' ∧ bq_wf q' ∧ bq_contents q' = bq_contents q ++ bs;
  bq_enqueue_full q bs :
    bq_wf q → Forall is_byte bs →
    (bq_capacity < length (bq_contents q) + length bs)%nat →
    bq_enqueue q bs = Err AssertFail;
  bq_dequeue_ok q n :
    bq_wf q →
    ∃ q', bq_dequeue q n = Ok (q', take n (bq_contents q)) ∧
          bq_wf q' ∧ bq_contents q' = drop n (bq_contents q);
}.

(** ** Runs of operations *)

(** What a user of the queue does: hand over bytes, or ask for at most
    [n]. *)
Inductive queue_op : Type :=
  | Enqueue (bs : list Z)
  | Dequeue (n : nat).

#[export] Instance queue_op_eq_dec : EqDecision queue_op.
Proof. solve_decision. Defined.

Definition op_ok (op : queue_op) : Prop :=
  match op with Enqueue bs => Forall is_byte bs | Dequeue _ => True end.

#[export] Instance op_ok_dec op : Decision (op_ok op).
Proof. destruct op; apply _. Defined.

(** The bytes a sequence of operations hands over. *)
Definition enqueued (ops : list queue_op) : list Z :=
  ops ≫= λ op, match op with Enqueue bs => bs | Dequeue _ => [] end.

(** One operation: the new state and what it returned. *)
Definition bq_step `{ByteQueue Q} (q : Q) (op : queue_op) : res (Q * list Z) :=
  match op with
  | Enqueue bs => q' ← bq_enqueue q bs; Ok (q', [])
  | Dequeue n => bq_dequeue q n
  end.

(** A sequence of operations: the final state and the bytes returned, in
    order.  The first failure ends the run. *)
Fixpoint bq_run `{ByteQueue Q} (q : Q) (ops : list queue_op) : res (Q * list Z) :=
  match ops with
  | [] => Ok (q, [])
  | op :: ops =>
      r ← bq_step q op;
      r' ← bq_run r.1 ops;
      Ok (r'.1, r.2 ++ r'.2)
  end.

(** ** The reference implementation *)

(** A list of at most [cap] bytes, oldest first. *)
Definition list_queue (cap : nat) : ByteQueue (list Z) := {|
  bq_capacity := cap;
  bq_wf l := (length l ≤ cap)%nat ∧ Forall is_byte l;
  bq_contents l := l;
  bq_can_accept l := bool_decide (length l < cap)%nat;
  bq_enqueue l bs :=
    if decide (length l + length bs ≤ cap)%nat then Ok (l ++ bs) else Err AssertFail;
  bq_dequeue l n := Ok (drop n l, take n l);
|}.

(** ** The ring of a terminal *)

(** The character layer hands [vty_receive] a buffer and its length. *)
Definition vty_enqueue (dev : VIOsPAPRVTYDevice) (bs : list Z) : res VIOsPAPRVTYDevice :=
  fst <$> vty_receive dev bs (Z.of_nat (length bs)).

(** A reader hands [vty_getchars] a buffer of [n] bytes and keeps the
    bytes the call reports. *)
Definition vty_dequeue (dev : VIOsPAPRVTYDevice) (n : nat)
  : res (VIOsPAPRVTYDevice * list Z) :=
  r ← vty_getchars dev (replicate n 0) (Z.of_nat n);
  Ok (r.1.1, take (Z.to_nat r.2) r.1.2).

#[export] Instance vty_byte_queue : ByteQueue VIOsPAPRVTYDevice := {|
  bq_capacity := 16;
  bq_wf := vty_wf;
  bq_contents := contents;
  bq_can_accept dev := Z_truth (vty_can_receive dev);
  bq_enqueue := vty_enqueue;
  bq_dequeue := vty_dequeue;
|}.

(** ** The laws of the reference *)

Lemma list_queue_laws cap : @ByteQueueLaws (list Z) (list_queue cap).
Proof.
  split; simpl.
  - by intros l [? _].
  - by intros l [_ ?].
  - done.
  - intros l bs [Hl Hb] Hbs Hroom. exists (l ++ bs). rewrite decide_True by done.
    split_and!; [done | by rewrite length_app | by apply Forall_app | done].
  - intros l bs _ _ Hfull. rewrite decide_False; [done | lia].
  - intros l n [Hl Hb]. exists (drop n l).
    split_and!; [done | rewrite length_drop; lia | by apply Forall_drop | done].
Qed.

(** ** The laws of the ring *)

Lemma vty_enqueue_ok dev bs :
  vty_wf dev → Forall is_byte bs → (length (contents dev) + length bs ≤ 16)%nat →
  ∃ dev', vty_enqueue dev bs = Ok dev' ∧ vty_wf dev' ∧ contents dev' = contents dev ++ bs.
Proof.
  intros Hwf Hbs Hroom. rewrite length_contents in Hroom. pose proof (vty_wf_used dev Hwf).
  destruct (vty_receive_ok dev bs (Z.of_nat (length bs))) as (dev' & Hrun & Hd & Hc & _);
    [done | done | lia | lia |].
  exists dev'. unfold vty_enqueue. rewrite Hrun. split_and!; [done | done |].
  by rewrite Hc, Nat2Z.id, firstn_all.
Qed.

Lemma vty_enqueue_full dev bs :
  vty_wf dev → Forall is_byte bs → (16 < length (contents dev) + length bs)%nat →
  vty_enqueue dev bs = Err AssertFail.
Proof.
  intros Hwf Hbs Hfull. rewrite length_contents in Hfull. pose proof (vty_wf_used dev Hwf).
  unfold vty_enqueue, vty_receive. by rewrite vty_receive_loop_overflow by (done || lia).
Qed.

Lemma vty_dequeue_ok dev n :
  vty_wf dev →
  ∃ dev', vty_dequeue dev n = Ok (dev', take n (contents dev)) ∧
          vty_wf dev' ∧ contents dev' = drop n (contents dev).
Proof.
  intros Hwf. pose proof (vty_wf_used dev Hwf) as Hu.
  pose proof (length_contents dev) as Hlen.
  destruct (vty_getchars_ok dev (replicate n 0) (Z.of_nat n) Hwf) as (Hrun & Hwf' & Hc);
    [rewrite length_replicate; lia |].
  set (k := Z.to_nat (Z.of_nat n `min` used dev)) in *.
  assert (Htake : take k (contents dev) = take n (contents dev)).
  { destruct (decide (n ≤ Z.to_nat (used dev))%nat); [f_equal; lia |].
    rewrite !take_ge; [done | lia | lia]. }
  assert (Hdrop : drop k (contents dev) = drop n (contents dev)).
  { destruct (decide (n ≤ Z.to_nat (used dev))%nat); [f_equal; lia |].
    rewrite !drop_ge; [done | lia | lia]. }
  exists (vty_consume dev (Z.of_nat k)). unfold vty_dequeue. rewrite Hrun. cbn.
  rewrite Nat2Z.id, take_app_length' by (rewrite length_take; lia).
  by rewrite Htake, Hc, Hdrop.
Qed.

#[export] Instance vty_byte_queue_laws : ByteQueueLaws VIOsPAPRVTYDevice.
Proof.
  split; simpl.
  - intros dev Hwf%vty_wf_used. rewrite length_contents. lia.
  - apply contents_bytes.
  - intros dev. unfold vty_can_receive, VTERM_BUFSIZE. fold (used dev).
    rewrite length_contents. pose proof (used_range dev).
    destruct (Z.ltb_spec (used dev) 16); symmetry;
      [apply bool_decide_eq_true | apply bool_decide_eq_false]; simpl; lia.
  - apply vty_enqueue_ok.
  - apply vty_enqueue_full.
  - apply vty_dequeue_ok.
Qed.

(** ** Runs of the reference *)

(** The reference hands bytes out in the order it took them in: what was
    in the queue followed by what the run handed over is what the run
    returned followed by what is left. *)
Lemma list_run_fifo cap l ops l' out :
  bq_run (H := list_queue cap) l ops = Ok (l', out) →
  l ++ enqueued ops = out ++ l'.
Proof.
  revert l l' out. induction ops as [| op ops IH]; intros l l' out; simpl.
  - intros [= <- <-]. by rewrite app_nil_r.
  - intros (r & Hstep & (r' & Hrun & [= <- <-])%res_bind_Ok)%res_bind_Ok.
    destruct r' as [l'' out']. apply IH in Hrun. destruct op as [bs | n]; simpl in *.
    + case_decide; [| done]. injection Hstep as <-. simpl in *.
      by rewrite app_assoc, Hrun.
    + injection Hstep as <-. simpl in *.
      by rewrite <-app_assoc, <-Hrun, app_assoc, take_drop.
Qed.

(** The reference fails only by overflow. *)
Lemma list_run_error cap l ops e :
  bq_run (H := list_queue cap) l ops = Err e → e = AssertFail.
Proof.
  revert l. induction ops as [| op ops IH]; intros l; simpl; [done |].
  destruct op as [bs | n]; simpl.
  - case_decide; simpl; [| congruence].
    destruct (bq_run _ ops) eqn:Hrun; simpl; [done |]. intros [= <-]. by eapply IH.
  - destruct (bq_run _ ops) eqn:Hrun; simpl; [done |]. intros [= <-]. by eapply IH.
Qed.

(** ** Theorems of every lawful queue *)

Section client.
Context `{ByteQueueLaws Q}.

(** One operation of a lawful queue is one operation of the reference on
    its contents, failures included. *)
Lemma bq_step_sim (q : Q) op :
  bq_wf q → op_ok op →
  match bq_step (H := list_queue bq_capacity) (bq_contents q) op with
  | Ok (l', out) => ∃ q', bq_step q op = Ok (q', out) ∧ bq_wf q' ∧ bq_contents q' = l'
  | Err e => bq_step q op = Err e
  end.
Proof.
  intros Hwf Hop. destruct op as [bs | n]; simpl.
  - case_decide as Hroom; simpl.
    + destruct (bq_enqueue_ok q bs) as (q' & -> & ? & ?); [done .. |]. by exists q'.
    + rewrite bq_enqueue_full; [done .. | lia].
  - destruct (bq_dequeue_ok q n) as (q' & -> & ? & ?); [done |]. by exists q'.
Qed.

(** A run of a lawful queue is the run of the reference on its contents:
    the same bytes come out, the same failure ends it, and the contents
    at the end are the list the reference ends with. *)
Lemma bq_run_sim (q : Q) ops :
  bq_wf q → Forall op_ok ops →
  match bq_run (H := list_queue bq_capacity) (bq_contents q) ops with
  | Ok (l', out) => ∃ q', bq_run q ops = Ok (q', out) ∧ bq_wf q' ∧ bq_contents q' = l'
  | Err e => bq_run q ops = Err e
  end.
Proof.
  revert q. induction ops as [| op ops IH]; intros q Hwf Hops; simpl.
  - by exists q.
  - apply Forall_cons_1 in Hops as [Hop Hops].
    pose proof (bq_step_sim q op Hwf Hop) as Hstep.
    destruct (bq_step (bq_contents q) op) as [[l1 out1] | e]; simpl; [| by rewrite Hstep].
    destruct Hstep as (q1 & -> & Hwf1 & <-). simpl.
    specialize (IH q1 Hwf1 Hops).
    destruct (bq_run (bq_contents q1) ops) as [[l2 out2] | e]; simpl; [| by rewrite IH].
    destruct IH as (q2 & -> & Hwf2 & <-). by exists q2.
Qed.

(** A run that returns kept the queue lawful and handed the bytes out in
    the order they came in. *)
Lemma bq_run_fifo (q q' : Q) ops out :
  bq_wf q → Forall op_ok ops → bq_run q ops = Ok (q', out) →
  bq_wf q' ∧ bq_contents q ++ enqueued ops = out ++ bq_contents q'.
Proof.
  intros Hwf Hops Hrun. pose proof (bq_run_sim q ops Hwf Hops) as Hsim.
  destruct (bq_run (bq_contents q) ops) as [[l' out'] | e] eqn:Href;
    [| congruence].
  destruct Hsim as (q'' & Hrun' & Hwf' & <-).
  rewrite Hrun in Hrun'. injection Hrun' as <- <-.
  split; [done |]. by eapply list_run_fifo.
Qed.

(** A run of reads alone cannot fail. *)
Lemma bq_run_dequeues (q : Q) ns :
  bq_wf q → is_Ok (bq_run q (Dequeue <$> ns)).
Proof.
  revert q. induction ns as [| n ns IH]; intros q Hwf; [by eexists |].
  rewrite fmap_cons. cbn [bq_run bq_step].
  destruct (bq_dequeue_ok q n) as (q' & -> & Hwf' & _); [done |]. cbn [mbind res_bind fst snd].
  destruct (IH q' Hwf') as [r ->]. by eexists.
Qed.
End client.

(** Two lawful queues of the same capacity that hold the same bytes, of
    the same implementation or not, cannot be told apart by a run. *)
Lemma bq_run_agree `{ByteQueueLaws Q1} `{ByteQueueLaws Q2} (q1 : Q1) (q2 : Q2) ops :
  @bq_capacity Q1 _ = @bq_capacity Q2 _ →
  bq_wf q1 → bq_wf q2 → bq_contents q1 = bq_contents q2 → Forall op_ok ops →
  match bq_run q1 ops, bq_run q2 ops with
  | Ok r1, Ok r2 => bq_contents r1.1 = bq_contents r2.1 ∧ r1.2 = r2.2
  | Err e1, Err e2 => e1 = e2
  | _, _ => False
  end.
Proof.
  intros Hcap Hwf1 Hwf2 Hc Hops.
  pose proof (bq_run_sim q1 ops Hwf1 Hops) as H1.
  pose proof (bq_run_sim q2 ops Hwf2 Hops) as H2. rewrite <-Hc, <-Hcap in H2.
  destruct (bq_run (bq_contents q1) ops) as [[l out] | e].
  - destruct H1 as (r1 & -> & _ & <-), H2 as (r2 & -> & _ & Hr2). simpl. by rewrite Hr2.
  - by rewrite H1, H2.
Qed.

(** ** Observational equivalence of terminals *)

(** Two terminals are equivalent when they hold the same unread bytes:
    the values of the cursors and the slots outside the unread window may
    differ. *)
#[export] Instance vty_equiv : Equiv VIOsPAPRVTYDevice :=
  λ dev dev', contents dev = contents dev'.

#[export] Instance vty_equiv_equivalence : Equivalence (≡@{VIOsPAPRVTYDevice}).
Proof. unfold equiv, vty_equiv. split; [by intros ? | by intros ? ? | by intros ? ? ? -> ->]. Qed.

Lemma used_contents dev : used dev = Z.of_nat (length (contents dev)).
Proof. rewrite length_contents. pose proof (used_range dev). lia. Qed.

#[export] Instance used_proper : Proper ((≡) ==> (=)) used.
Proof. intros d d' Hd. by rewrite !used_contents, Hd. Qed.

#[export] Instance vty_can_receive_proper : Proper ((≡) ==> (=)) vty_can_receive.
Proof.
  intros d d' Hd. unfold vty_can_receive. fold (used d) (used d'). by rewrite Hd.
Qed.

(** Two results of a run that look the same from outside: the same bytes
    and equivalent terminals, or the same failure. *)
Definition run_equiv (r r' : res (VIOsPAPRVTYDevice * list Z)) : Prop :=
  match r, r' with
  | Ok (d, out), Ok (d', out') => d ≡ d' ∧ out = out'
  | Err e, Err e' => e = e'
  | _, _ => False
  end.

(** ** The ring is a lawful queue: what the code promises *)

(** C13: Refinement: every sequence of calls of [vty_receive] (on whole
    buffers) and [vty_getchars] on a well-formed terminal behaves as the
    same sequence of operations on a list of at most 16 bytes that starts
    as the unread bytes: the same bytes are returned, the run aborts on the
    same operation with the same failure, and the unread bytes at the end
    are the list the reference ends with. *)
Theorem vty_run_refines_list dev ops :
  vty_wf dev → Forall op_ok ops →
  match bq_run (H := list_queue 16) (contents dev) ops with
  | Ok (l', out) => ∃ dev', bq_run dev ops = Ok (dev', out) ∧ vty_wf dev' ∧ contents dev' = l'
  | Err e => bq_run dev ops = Err e
  end.
Proof. exact (bq_run_sim dev ops). Qed.

(** C27: First in, first out, across any number of operations and of
    wrap-arounds of the cursors: when a sequence of calls returns, the
    bytes that were unread at the start followed by the bytes received
    are the bytes read followed by the bytes still unread.  No byte is
    lost, duplicated or reordered. *)
Theorem vty_run_fifo dev dev' ops out :
  vty_wf dev → Forall op_ok ops → bq_run dev ops = Ok (dev', out) →
  vty_wf dev' ∧ contents dev ++ enqueued ops = out ++ contents dev'.
Proof. exact (bq_run_fifo dev dev' ops out). Qed.

(** Reading never fails: any sequence of calls of [vty_getchars] on a
    well-formed terminal returns, whatever the sizes asked for. *)
Theorem vty_run_reads_total dev ns :
  vty_wf dev → is_Ok (bq_run dev (Dequeue <$> ns)).
Proof. exact (bq_run_dequeues dev ns). Qed.

(** C28: The abstraction is sound: two well-formed terminals with the same
    unread bytes, whatever the values of their cursors and the bytes in
    the slots that are not unread, answer [vty_can_receive] alike and go
    through every sequence of [vty_receive] and [vty_getchars] calls
    alike: the same bytes are returned, the same failure ends the run,
    and the terminals are equivalent again at the end. *)
Theorem vty_run_proper dev dev' ops :
  vty_wf dev → vty_wf dev' → dev ≡ dev' → Forall op_ok ops →
  vty_can_receive dev = vty_can_receive dev' ∧
  run_equiv (bq_run dev ops) (bq_run dev' ops).
Proof.
  intros Hwf Hwf' Hd Hops. split; [by rewrite Hd |].
  pose proof (bq_run_agree dev dev' ops eq_refl Hwf Hwf' Hd Hops) as Hrun.
  unfold run_equiv. by destruct (bq_run dev ops) as [[] |], (bq_run dev' ops) as [[] |].
Qed.

(** ** Witnesses *)

(** Eleven bytes in, twenty asked for, three more in, two out, on the
    terminal whose cursors are about to wrap. *)
Definition example_ops : list queue_op :=
  [Enqueue (seqZ 1 11); Dequeue 20; Enqueue [65; 66; 67]; Dequeue 2].

Lemma example_ops_ok : Forall op_ok example_ops.
Proof. by_compute. Qed.

Lemma vty_run_refines_list_witness :
  match bq_run (H := list_queue 16) (contents wrapped_dev) example_ops with
  | Ok (l', out) =>
      ∃ dev', bq_run wrapped_dev example_ops = Ok (dev', out) ∧ vty_wf dev' ∧ contents dev' = l'
  | Err e => bq_run wrapped_dev example_ops = Err e
  end.
Proof.
  apply (vty_run_refines_list wrapped_dev example_ops);
    [apply wrapped_dev_wf | apply example_ops_ok].
Defined.

Lemma vty_run_fifo_witness :
  ∃ dev', vty_wf dev' ∧
          contents wrapped_dev ++ enqueued example_ops
          = (contents wrapped_dev ++ seqZ 1 11 ++ [65; 66]) ++ contents dev'.
Proof.
  destruct (bq_run wrapped_dev example_ops) as [[dev' out] |] eqn:Hrun;
    [| by vm_compute in Hrun].
  exists dev'. replace (contents wrapped_dev ++ seqZ 1 11 ++ [65; 66]) with out
    by (vm_compute in Hrun; by injection Hrun as _ <-).
  apply (vty_run_fifo wrapped_dev dev' example_ops out);
    [apply wrapped_dev_wf | apply example_ops_ok | done].
Defined.

(** The five unread bytes of [wrapped_dev] in a terminal whose cursors
    are 0 and 5 and whose other slots hold 255. *)
Definition unwrapped_dev : VIOsPAPRVTYDevice :=
  mkVTY (mkVIO 5 7) (Some 1) 5 0 ([113; 114; 115; 100; 101] ++ replicate 11 255).

Lemma vty_run_proper_witness :
  vty_can_receive wrapped_dev = vty_can_receive unwrapped_dev ∧
  run_equiv (bq_run wrapped_dev example_ops) (bq_run unwrapped_dev example_ops).
Proof.
  apply (vty_run_proper wrapped_dev unwrapped_dev example_ops);
    [apply wrapped_dev_wf | by_compute | by vm_compute | apply example_ops_ok].
Defined.

Lemma vty_run_reads_total_witness :
  is_Ok (bq_run wrapped_dev (Dequeue <$> [3; 0; 20; 1]%nat)).
Proof. apply (vty_run_reads_total wrapped_dev [3; 0; 20; 1]%nat), wrapped_dev_wf. Defined.
