(* ===== verification/Registry.v ===== *)
(** * Registry: the VIO bus and the choice of a terminal

    Models lines 160-210 of [src/hw/spapr_vty.c]: [spapr_vty_get_default],
    which walks the children of the bus and keeps the VTY with the lowest
    [reg], and [vty_lookup], which finds a device by [reg] and falls back
    to the default one for [reg == 0].

    The bus is the list of its children in the order of the [QTAILQ] the C
    code walks. A child is either a VTY or a device of another type; both
    start with a [VIOsPAPRDevice]. A pointer to a child is its index in the
    list. [spapr_vio_find_by_reg] belongs to another file (hw/spapr_vio.c)
    and is modelled from its contract: the first child whose [reg] is the
    one asked for, of whatever type.  The address is compared as the
    handler passes it, a 64-bit register; if the function of that file
    takes a narrower argument, the model is that of the addresses that
    fit it. *)

From stdpp Require Import base numbers list option.
From S2P Require Import Prelude RingBuffer.

Local Open Scope Z_scope.

(** ** Data *)

(** A child of the bus ([DeviceState]), by its dynamic type. *)
Inductive DeviceState : Type :=
| VtyDevice (dev : VIOsPAPRVTYDevice)   (* an object of type "spapr-vty" *)
| OtherDevice (sdev : VIOsPAPRDevice).  (* any other VIO device *)

#[export] Instance DeviceState_eq_dec : EqDecision DeviceState.
Proof. solve_decision. Defined.

(** [bus->bus.children], in list order. *)
Abbreviation VIOsPAPRBus := (list DeviceState).

(** The part of [sPAPREnvironment] the terminal uses. *)
Record sPAPREnvironment : Type := mkSpapr {
  vio_bus : VIOsPAPRBus;
}.

(** [object_dynamic_cast(OBJECT(iter), "spapr-vty")] is not NULL. *)
Definition is_spapr_vty (q : DeviceState) : bool :=
  match q with VtyDevice _ => true | OtherDevice _ => false end.

(** [DO_UPCAST(VIOsPAPRDevice, qdev, iter)]. *)
Definition qdev_sdev (q : DeviceState) : VIOsPAPRDevice :=
  match q with VtyDevice dev => dev_sdev dev | OtherDevice sdev => sdev end.

(** The variable [selected] of [spapr_vty_get_default]: NULL, or a
    pointer to a child together with the device it points to. *)
Definition selection : Type := option (nat * VIOsPAPRDevice).

(** ** Operations *)

(** The body of the [QTAILQ_FOREACH] (lines 173-189) for the child [q] at
    position [iter]. *)
Definition get_default_visit (selected : selection) (iter : nat) (q : DeviceState)
  : selection :=
  if is_spapr_vty q then
    let sdev := qdev_sdev q in
    match selected with
    | None => Some (iter, sdev)
    | Some (_, sel) =>
        if sdev_reg sdev <? sdev_reg sel then Some (iter, sdev) else selected
    end
  else selected.

(** The walk over the children from position [iter] on. *)
Fixpoint get_default_walk (children : list DeviceState) (iter : nat)
    (selected : selection) : selection :=
  match children with
  | [] => selected
  | q :: rest => get_default_walk rest (S iter) (get_default_visit selected iter q)
  end.

(** [spapr_vty_get_default] (lines 160-193). *)
Definition spapr_vty_get_default (bus : VIOsPAPRBus) : option nat :=
  fst <$> get_default_walk bus 0%nat None.

(** [spapr_vio_find_by_reg] (hw/spapr_vio.c): the first child with this
    [reg]. *)
Definition spapr_vio_find_by_reg (bus : VIOsPAPRBus) (reg : Z) : option nat :=
  fst <$> list_find (λ q, sdev_reg (qdev_sdev q) = reg) bus.

(** [vty_lookup] (lines 195-210). *)
Definition vty_lookup (spapr : sPAPREnvironment) (reg : Z) : option nat :=
  let sdev := spapr_vio_find_by_reg (vio_bus spapr) reg in
  if bool_decide (sdev = None) && (reg =? 0)
  then spapr_vty_get_default (vio_bus spapr)
  else sdev.

(** ** Specification *)

(** What no operation of the terminal changes in a child: its type, its
    [VIOsPAPRDevice] part and its backend. *)
Definition static_of (q : DeviceState) : bool * VIOsPAPRDevice * option Z :=
  (is_spapr_vty q, qdev_sdev q,
   match q with VtyDevice dev => dev_chardev dev | OtherDevice _ => None end).

(** [i] is the default terminal of [bus]: a VTY whose [reg] is the least
    among the VTYs of the bus, and the first such. *)
Definition is_default (bus : VIOsPAPRBus) (i : nat) : Prop :=
  ∃ d, bus !! i = Some (VtyDevice d) ∧
       ∀ j d', bus !! j = Some (VtyDevice d') →
               sdev_reg (dev_sdev d) ≤ sdev_reg (dev_sdev d') ∧
               (sdev_reg (dev_sdev d') = sdev_reg (dev_sdev d) → (i ≤ j)%nat).

(** What [selected] is worth after the children in [pre] have been
    visited. *)
Definition selection_ok (pre : list DeviceState) (selected : selection) : Prop :=
  match selected with
  | None => Forall (λ q, is_spapr_vty q = false) pre
  | Some (i, s) => is_default pre i ∧ (qdev_sdev <$> pre !! i) = Some s
  end.

(** ** The walk *)

Lemma is_default_unique bus i j : is_default bus i → is_default bus j → i = j.
Proof.
  intros (d & Hd & Hmin) (d' & Hd' & Hmin').
  destruct (Hmin j d' Hd') as [? ?], (Hmin' i d Hd) as [? ?].
  assert (sdev_reg (dev_sdev d') = sdev_reg (dev_sdev d)) by lia.
  apply Nat.le_antisymm; auto with lia.
Qed.

Lemma is_default_lt bus i : is_default bus i → (i < length bus)%nat.
Proof. intros (d & Hd & _). by eapply lookup_lt_Some. Qed.

(** The selected child stays the default when the next child is not a VTY
    or has no lower [reg]. *)
Lemma is_default_snoc_old pre q i d :
  is_default pre i → pre !! i = Some (VtyDevice d) →
  (is_spapr_vty q = true → sdev_reg (dev_sdev d) ≤ sdev_reg (qdev_sdev q)) →
  is_default (pre ++ [q]) i.
Proof.
  intros (d0 & Hd0 & Hmin) Hd Hq. pose proof (lookup_lt_Some _ _ _ Hd).
  assert (d0 = d) as -> by congruence.
  exists d. rewrite lookup_app_l by done. split; [done |].
  intros j d' [[_ Hj] | [-> ?]]%lookup_snoc_Some; [eauto |]. subst q.
  split; [by apply Hq | lia].
Qed.

(** A VTY with a [reg] lower than every VTY before it becomes the
    default. *)
Lemma is_default_snoc_new pre dev :
  (∀ j d', pre !! j = Some (VtyDevice d') →
           sdev_reg (dev_sdev dev) < sdev_reg (dev_sdev d')) →
  is_default (pre ++ [VtyDevice dev]) (length pre).
Proof.
  intros Hlow. exists dev. rewrite lookup_app_r, Nat.sub_diag by done. split; [done |].
  intros j d' [[_ Hj] | [-> [= ->]]]%lookup_snoc_Some; [| done].
  specialize (Hlow j d' Hj). lia.
Qed.

Lemma selection_ok_Some pre i s :
  selection_ok pre (Some (i, s)) ↔
  ∃ d, is_default pre i ∧ pre !! i = Some (VtyDevice d) ∧ dev_sdev d = s.
Proof.
  simpl. split.
  - intros [Hdef Hs]. destruct Hdef as (d & Hd & Hmin).
    exists d. rewrite Hd in Hs. injection Hs as <-. split; [by exists d | done].
  - intros (d & Hdef & Hd & <-). by rewrite Hd.
Qed.

(** Visiting one more child keeps [selected] right. *)
Lemma get_default_visit_ok pre selected q :
  selection_ok pre selected →
  selection_ok (pre ++ [q]) (get_default_visit selected (length pre) q).
Proof.
  unfold get_default_visit. destruct selected as [[i s] |].
  - intros (d & Hdef & Hd & <-)%selection_ok_Some.
    pose proof (lookup_lt_Some _ _ _ Hd).
    destruct q as [dev | s']; simpl is_spapr_vty; cbv iota.
    + simpl qdev_sdev. destruct (Z.ltb_spec (sdev_reg (dev_sdev dev)) (sdev_reg (dev_sdev d))).
      * apply selection_ok_Some. exists dev. rewrite lookup_app_r, Nat.sub_diag by done.
        split; [| done]. apply is_default_snoc_new. intros j d' Hj.
        destruct Hdef as (d0 & Hd0 & Hmin). destruct (Hmin j d' Hj). 
        assert (d0 = d) as -> by congruence. lia.
      * apply selection_ok_Some. exists d. rewrite lookup_app_l by done.
        split; [| done]. by apply is_default_snoc_old with d.
    + apply selection_ok_Some. exists d. rewrite lookup_app_l by done.
      split; [| done]. by apply is_default_snoc_old with d.
  - simpl. intros Hpre. destruct q as [dev | s']; simpl.
    + rewrite lookup_app_r, Nat.sub_diag by done. split; [| done].
      apply is_default_snoc_new. intros j d' Hj.
      rewrite Forall_lookup in Hpre. by specialize (Hpre j _ Hj).
    + apply Forall_app. split; [done |]. by repeat constructor.
Qed.

Lemma get_default_walk_ok pre rest selected :
  selection_ok pre selected →
  selection_ok (pre ++ rest) (get_default_walk rest (length pre) selected).
Proof.
  revert pre selected. induction rest as [| q rest IH]; intros pre selected Hok; simpl.
  - by rewrite app_nil_r.
  - rewrite cons_middle, app_assoc.
    replace (S (length pre)) with (length (pre ++ [q])) by (rewrite length_app; simpl; lia).
    by apply IH, get_default_visit_ok.
Qed.

Lemma spapr_vty_get_default_ok bus :
  selection_ok bus (get_default_walk bus 0%nat None).
Proof. apply (get_default_walk_ok [] bus None). constructor. Qed.

Lemma spapr_vty_get_default_Some bus i :
  spapr_vty_get_default bus = Some i → is_default bus i.
Proof.
  unfold spapr_vty_get_default. pose proof (spapr_vty_get_default_ok bus) as Hok.
  destruct (get_default_walk bus 0%nat None) as [[j s] |]; intros [= <-].
  by apply selection_ok_Some in Hok as (d & ? & _).
Qed.

Lemma spapr_vty_get_default_None bus :
  spapr_vty_get_default bus = None → Forall (λ q, is_spapr_vty q = false) bus.
Proof.
  unfold spapr_vty_get_default. pose proof (spapr_vty_get_default_ok bus) as Hok.
  by destruct (get_default_walk bus 0%nat None) as [[j s] |].
Qed.

Lemma spapr_vty_get_default_iff bus i :
  spapr_vty_get_default bus = Some i ↔ is_default bus i.
Proof.
  split; [apply spapr_vty_get_default_Some |].
  intros Hi. destruct (spapr_vty_get_default bus) as [j |] eqn:Hdef.
  - f_equal. apply (is_default_unique bus); [by apply spapr_vty_get_default_Some | done].
  - apply spapr_vty_get_default_None in Hdef. destruct Hi as (d & Hd & _).
    rewrite Forall_lookup in Hdef. by specialize (Hdef i _ Hd).
Qed.

(** ** [spapr_vty_get_default] *)

(** C15: [spapr_vty_get_default] returns the first VTY of the bus among
    those with the lowest [reg], and NULL exactly when the bus has no
    VTY; devices of other types are never selected. *)
Theorem spapr_vty_get_default_spec bus :
  match spapr_vty_get_default bus with
  | Some i => is_default bus i
  | None => Forall (λ q, is_spapr_vty q = false) bus
  end.
Proof.
  destruct (spapr_vty_get_default bus) as [i |] eqn:Hdef;
    [by apply spapr_vty_get_default_Some | by apply spapr_vty_get_default_None].
Qed.

(** C29: The choice is the only one possible: every index that satisfies
    the description of the default terminal is the one returned, so the
    result is stable across calls on the same bus and ties on [reg] go to
    the child that comes first. *)
Theorem spapr_vty_get_default_complete bus i :
  is_default bus i → spapr_vty_get_default bus = Some i.
Proof. apply spapr_vty_get_default_iff. Qed.

(** ** [vty_lookup] *)

Lemma spapr_vio_find_by_reg_Some bus reg i :
  spapr_vio_find_by_reg bus reg = Some i ↔
  ∃ q, bus !! i = Some q ∧ sdev_reg (qdev_sdev q) = reg ∧
       ∀ j q', bus !! j = Some q' → (j < i)%nat → sdev_reg (qdev_sdev q') ≠ reg.
Proof.
  unfold spapr_vio_find_by_reg. rewrite fmap_Some. split.
  - intros ([j q] & Hfind%list_find_Some & ->). by exists q.
  - intros (q & Hq). exists (i, q). split; [by apply list_find_Some | done].
Qed.

Lemma spapr_vio_find_by_reg_None bus reg :
  spapr_vio_find_by_reg bus reg = None ↔
  Forall (λ q, sdev_reg (qdev_sdev q) ≠ reg) bus.
Proof. unfold spapr_vio_find_by_reg. by rewrite fmap_None, list_find_None. Qed.

(** A [reg] that some child of the bus has resolves to the first
    such child, whatever [reg] is: the fallback is not consulted. *)
Theorem vty_lookup_exact spapr reg i q :
  vio_bus spapr !! i = Some q → sdev_reg (qdev_sdev q) = reg →
  (∀ j q', vio_bus spapr !! j = Some q' → (j < i)%nat → sdev_reg (qdev_sdev q') ≠ reg) →
  vty_lookup spapr reg = Some i.
Proof.
  intros Hq Hreg Hfirst. unfold vty_lookup.
  by rewrite (proj2 (spapr_vio_find_by_reg_Some _ reg i)) by eauto.
Qed.

(** C26: A [reg] that no child has resolves to the default terminal when
    it is 0 (the early-boot probe) and to NULL otherwise. *)
Theorem vty_lookup_fallback spapr reg :
  Forall (λ q, sdev_reg (qdev_sdev q) ≠ reg) (vio_bus spapr) →
  vty_lookup spapr reg
  = if decide (reg = 0) then spapr_vty_get_default (vio_bus spapr) else None.
Proof.
  intros Hnone%spapr_vio_find_by_reg_None. unfold vty_lookup. rewrite Hnone. simpl.
  destruct (Z.eqb_spec reg 0); by case_decide.
Qed.

(** [vty_lookup] returns NULL exactly for an address that no child has
    and that is not 0 on a bus with a terminal. *)
Lemma vty_lookup_None spapr reg :
  vty_lookup spapr reg = None ↔
  Forall (λ q, sdev_reg (qdev_sdev q) ≠ reg) (vio_bus spapr) ∧
  (reg = 0 → Forall (λ q, is_spapr_vty q = false) (vio_bus spapr)).
Proof.
  unfold vty_lookup. rewrite <-spapr_vio_find_by_reg_None.
  destruct (spapr_vio_find_by_reg _ _) as [j |]; simpl; [naive_solver |].
  destruct (Z.eqb_spec reg 0) as [-> | ?]; [| naive_solver]. split.
  - by intros ?%spapr_vty_get_default_None.
  - intros [_ Hvty]. destruct (spapr_vty_get_default _) as [i |] eqn:Hdef; [| done].
    apply spapr_vty_get_default_Some in Hdef as (d & Hd & _).
    specialize (Hvty eq_refl). rewrite Forall_lookup in Hvty. by specialize (Hvty i _ Hd).
Qed.

(** On a bus where no two children have the same address, the address
    of a child resolves to that child. *)
Lemma vty_lookup_nodup spapr i q :
  NoDup (sdev_reg ∘ qdev_sdev <$> vio_bus spapr) → vio_bus spapr !! i = Some q →
  vty_lookup spapr (sdev_reg (qdev_sdev q)) = Some i.
Proof.
  intros Hnodup Hq. unfold vty_lookup.
  rewrite (proj2 (spapr_vio_find_by_reg_Some _ _ i)); [done |].
  exists q. split_and!; [done .. |]. intros j q' Hq' Hlt Heq.
  assert (i = j); [| lia].
  apply (NoDup_lookup _ _ _ (sdev_reg (qdev_sdev q)) Hnodup);
    rewrite list_lookup_fmap; [by rewrite Hq | by rewrite Hq', <-Heq].
Qed.

Lemma vty_lookup_lt spapr reg i :
  vty_lookup spapr reg = Some i → (i < length (vio_bus spapr))%nat.
Proof.
  unfold vty_lookup. destruct (spapr_vio_find_by_reg _ _) as [j |] eqn:Hfind; simpl.
  - intros [= <-]. apply spapr_vio_find_by_reg_Some in Hfind as (q & Hq & _).
    by eapply lookup_lt_Some.
  - destruct (reg =? 0); [| done].
    intros Hdef%spapr_vty_get_default_Some. by apply is_default_lt.
Qed.

(** The pointer [vty_lookup] returns is never dangling: it is the
    index of a child of the bus. *)
Theorem vty_lookup_valid spapr reg i :
  vty_lookup spapr reg = Some i → is_Some (vio_bus spapr !! i).
Proof. intros Hi%vty_lookup_lt. by apply lookup_lt_is_Some. Qed.

(** C38: [vty_lookup] returns a VTY as long as no device of another type
    has the [reg] asked for. *)
Theorem vty_lookup_is_vty spapr reg i :
  Forall (λ q, is_spapr_vty q = false → sdev_reg (qdev_sdev q) ≠ reg) (vio_bus spapr) →
  vty_lookup spapr reg = Some i →
  ∃ dev, vio_bus spapr !! i = Some (VtyDevice dev).
Proof.
  intros Hother. unfold vty_lookup.
  destruct (spapr_vio_find_by_reg _ _) as [j |] eqn:Hfind; simpl.
  - intros [= <-]. apply spapr_vio_find_by_reg_Some in Hfind as (q & Hq & Hreg & _).
    rewrite Forall_lookup in Hother. specialize (Hother j q Hq).
    destruct q as [dev | s]; [by exists dev | by destruct Hother].
  - destruct (reg =? 0); [| done].
    intros (d & -> & _)%spapr_vty_get_default_Some. by eexists.
Qed.

(** ** The registry reads the static part only *)

Lemma static_of_vty dev dev' :
  same_static dev dev' → static_of (VtyDevice dev') = static_of (VtyDevice dev).
Proof. intros [Hs Hc]. unfold static_of. simpl. by rewrite Hs, Hc. Qed.

Lemma static_of_insert (bus : VIOsPAPRBus) p q q' :
  bus !! p = Some q → static_of q' = static_of q →
  static_of <$> <[p := q']> bus = static_of <$> bus.
Proof.
  intros Hq Hs. rewrite list_fmap_insert, Hs. apply list_insert_id.
  by rewrite list_lookup_fmap, Hq.
Qed.

Lemma get_default_walk_static (bus bus' : VIOsPAPRBus) iter selected :
  static_of <$> bus = static_of <$> bus' →
  get_default_walk bus iter selected = get_default_walk bus' iter selected.
Proof.
  revert bus' iter selected.
  induction bus as [| q bus IH]; intros [| q' bus'] iter selected; simpl; try done.
  intros [= Hvty Hsdev _ Hrest]. unfold get_default_visit.
  rewrite Hvty, Hsdev. by apply IH.
Qed.

Lemma spapr_vio_find_by_reg_static (bus bus' : VIOsPAPRBus) reg :
  static_of <$> bus = static_of <$> bus' →
  spapr_vio_find_by_reg bus reg = spapr_vio_find_by_reg bus' reg.
Proof.
  unfold spapr_vio_find_by_reg. revert bus'.
  induction bus as [| q bus IH]; intros [| q' bus']; simpl; try done.
  intros [= _ Hsdev _ Hrest]. rewrite Hsdev.
  case_decide; [done |]. specialize (IH bus' Hrest).
  destruct (list_find _ bus), (list_find _ bus'); naive_solver.
Qed.

(** Two buses with the same static parts resolve every [reg] alike. *)
Lemma vty_lookup_static spapr spapr' reg :
  static_of <$> vio_bus spapr = static_of <$> vio_bus spapr' →
  vty_lookup spapr reg = vty_lookup spapr' reg.
Proof.
  intros Hs. unfold vty_lookup, spapr_vty_get_default.
  by rewrite (spapr_vio_find_by_reg_static _ _ reg Hs), (get_default_walk_static _ _ _ _ Hs).
Qed.

(** ** Examples and witnesses *)

(** A VTY with the given [reg], freshly allocated. *)
Definition vty_at (reg : Z) : DeviceState :=
  VtyDevice (vty_zeroed (mkVIO reg reg) (Some reg)).

(** The bus of the specification's example: terminals at 5, 2 and 9, with
    a device of another type at 1 in front. *)
Definition example_bus : VIOsPAPRBus :=
  [OtherDevice (mkVIO 1 1); vty_at 5; vty_at 2; vty_at 9].

(** With terminals at addresses 5, 2 and 9, the probe of address 0
    resolves to the terminal at 2, and with no device at all to NULL. *)
Theorem vty_lookup_example :
  vty_lookup (mkSpapr example_bus) 0 = Some 2%nat ∧
  example_bus !! 2%nat = Some (vty_at 2) ∧
  vty_lookup (mkSpapr []) 0 = None.
Proof. done. Qed.

(** [vty_lookup] does not check the type of a device it finds by [reg]:
    the device of another type at address 1 is returned as if it were a
    terminal. *)
Example vty_lookup_other_type :
  vty_lookup (mkSpapr example_bus) 1 = Some 0%nat ∧
  example_bus !! 0%nat = Some (OtherDevice (mkVIO 1 1)).
Proof. done. Qed.

Lemma spapr_vty_get_default_complete_witness :
  spapr_vty_get_default example_bus = Some 2%nat.
Proof.
  apply (spapr_vty_get_default_complete example_bus 2).
  by apply spapr_vty_get_default_Some.
Defined.

Lemma vty_lookup_exact_witness : vty_lookup (mkSpapr example_bus) 9 = Some 3%nat.
Proof.
  apply (vty_lookup_exact (mkSpapr example_bus) 9 3 (vty_at 9)); [done | done |].
  intros j q' Hj Hlt. destruct j as [| [| [| j]]]; simpl in Hj; [| | | lia];
    injection Hj as <-; done.
Defined.

Lemma vty_lookup_fallback_witness :
  vty_lookup (mkSpapr example_bus) 7
  = if decide (7 = 0) then spapr_vty_get_default example_bus else None.
Proof. apply (vty_lookup_fallback (mkSpapr example_bus) 7). by_compute. Defined.

Lemma vty_lookup_valid_witness : is_Some (example_bus !! 2%nat).
Proof. by apply (vty_lookup_valid (mkSpapr example_bus) 0 2). Defined.

Lemma vty_lookup_is_vty_witness :
  ∃ dev, example_bus !! 2%nat = Some (VtyDevice dev).
Proof. apply (vty_lookup_is_vty (mkSpapr example_bus) 0 2); [by_compute | done]. Defined.
