(* ===== verification/Hcall.v ===== *)
(** * Hcall: the guest-facing handlers

    Models lines 49-124 of [src/hw/spapr_vty.c]: [vty_putchars],
    [spapr_vty_init] and the two hypercall handlers [h_put_term_char] and
    [h_get_term_char].

    A handler receives the machine and the array [args] of 64-bit
    registers, and returns a status; [h_get_term_char] also writes its
    results into [args] (its first result overwrites the register [reg]
    was read from) and moves the read cursor of the device it resolved.
    The 16-byte local [buf] of [h_get_term_char] is not initialised by the
    C code: the model takes the bytes the stack happens to hold as the
    parameter [stack], and the theorems show that they never reach the
    guest. *)

From stdpp Require Import base numbers list option.
From S2P Require Import Prelude Wire RingBuffer Registry.

Local Open Scope Z_scope.

(** ** Status codes (hw/spapr.h), as [target_ulong] *)

Definition H_SUCCESS : Z := 0.
Definition H_PARAMETER : Z := wrap 64 (-4).

(** ** Pointers *)

(** Following a pointer to a child of the bus. *)
Definition bus_deref (bus : VIOsPAPRBus) (p : nat) : res DeviceState :=
  match bus !! p with Some q => Ok q | None => Err NullDeref end.

(** The cast [(VIOsPAPRVTYDevice * )sdev], followed by a use of the
    fields of the VTY: meaningful on a VTY only. *)
Definition as_vty (q : DeviceState) : res VIOsPAPRVTYDevice :=
  match q with VtyDevice dev => Ok dev | OtherDevice _ => Err TypeConfusion end.

(** ** Operations *)

(** [vty_putchars] (lines 49-55): the bytes go to the character backend
    at once; the value [qemu_chr_fe_write] returns is dropped. *)
Definition vty_putchars (sdev : DeviceState) (buf : list Z) (len : Z)
  : res (list event) :=
  dev ← as_vty sdev;
  match dev_chardev dev with
  | None => Err NullDeref
  | Some chr =>
      if decide (0 ≤ len ≤ Z.of_nat (length buf))
      then Ok [EvChrWrite chr (take (Z.to_nat len) buf)]
      else Err OutOfBounds
  end.

(** [spapr_vty_init] (lines 57-70) on the device at position [self]:
    without a backend the program exits (the message it prints first is
    not modelled); otherwise [vty_can_receive] and [vty_receive] are
    registered with the backend as its two receive callbacks, no event
    callback, and the device as their argument. *)
Definition spapr_vty_init (sdev : DeviceState) (self : nat) : res (Z * list event) :=
  dev ← as_vty sdev;
  match dev_chardev dev with
  | None => Err (Exit 1)
  | Some chr =>
      Ok (0, [EvChrAddHandlers chr (Some FN_vty_can_receive) (Some FN_vty_receive)
                               None self])
  end.

(** [h_put_term_char] (lines 73-98). *)
Definition h_put_term_char (spapr : sPAPREnvironment) (args : list Z)
  : res (Z * list event) :=
  reg ← array_get args 0;
  len ← array_get args 1;
  char0_7 ← array_get args 2;
  char8_15 ← array_get args 3;
  match vty_lookup spapr reg with
  | None => Ok (H_PARAMETER, [])
  | Some p =>
      if 16 <? len then Ok (H_PARAMETER, [])
      else
        let buf := chunk_of_words char0_7 char8_15 in
        sdev ← bus_deref (vio_bus spapr) p;
        evs ← vty_putchars sdev buf len;
        Ok (H_SUCCESS, evs)
  end.

(** [h_get_term_char] (lines 100-124). [stack] is the content of the local
    [buf] on entry. The result is the status, the machine and [args]. *)
Definition h_get_term_char (spapr : sPAPREnvironment) (args stack : list Z)
  : res (Z * sPAPREnvironment * list Z) :=
  reg ← array_get args 0;
  match vty_lookup spapr reg with
  | None => Ok (H_PARAMETER, spapr, args)
  | Some p =>
      sdev ← bus_deref (vio_bus spapr) p;
      dev ← as_vty sdev;
      '(dev', buf, n) ← vty_getchars dev stack 16;
      args ← array_set args 0 n;
      buf ← (if n <? 16 then array_memset buf n 0 (16 - n) else Ok buf);
      args ← array_set args 1 (be64_to_cpu buf);
      args ← array_set args 2 (be64_to_cpu (drop 8 buf));
      Ok (H_SUCCESS, mkSpapr (<[p := VtyDevice dev']> (vio_bus spapr)), args)
  end.

(** ** Specification of a read *)

(** The number of bytes one read takes from a terminal. *)
Definition read_count (dev : VIOsPAPRVTYDevice) : nat := Z.to_nat (16 `min` used dev).

(** The 16-byte chunk a read of [k] bytes from [dev] hands to the guest:
    the oldest [k] unread bytes, then zeros. *)
Definition read_chunk (dev : VIOsPAPRVTYDevice) (k : nat) : list Z :=
  take k (contents dev) ++ replicate (16 - k) 0.

(** The registers a successful read of [k] bytes from [dev] leaves:
    the count, then the two words of the chunk. *)
Definition read_args (args : list Z) (dev : VIOsPAPRVTYDevice) (k : nat) : list Z :=
  <[2%nat := (words_of_chunk (read_chunk dev k)).2]>
    (<[1%nat := (words_of_chunk (read_chunk dev k)).1]>
       (<[0%nat := Z.of_nat k]> args)).

(** ** Lemmas *)

Lemma bus_deref_Ok bus p q : bus !! p = Some q → bus_deref bus p = Ok q.
Proof. unfold bus_deref. by intros ->. Qed.

Lemma length_read_chunk dev k :
  (k ≤ length (contents dev))%nat → (k ≤ 16)%nat → length (read_chunk dev k) = 16%nat.
Proof.
  intros. unfold read_chunk. rewrite length_app, length_take, length_replicate. lia.
Qed.

Lemma read_chunk_bytes dev k : vty_wf dev → Forall is_byte (read_chunk dev k).
Proof.
  intros Hwf. apply Forall_app. split.
  - by apply Forall_take, contents_bytes.
  - apply Forall_replicate. unfold is_byte, in_width. lia.
Qed.

(** The terminal a read leaves: well-formed, with the bytes read gone. *)
Lemma vty_consume_read_count dev :
  vty_wf dev →
  vty_wf (vty_consume dev (Z.of_nat (read_count dev))) ∧
  contents (vty_consume dev (Z.of_nat (read_count dev))) = drop (read_count dev) (contents dev).
Proof.
  intros Hwf.
  by destruct (vty_getchars_ok dev (replicate 16 0) 16 Hwf) as (_ & ? & ?);
    [rewrite length_replicate; lia |].
Qed.

(** The [memset] of [h_get_term_char] (lines 116-118) replaces whatever the
    stack held after the bytes read by zeros. *)
Lemma get_term_char_pad (bytes stack : list Z) (k : nat) :
  length stack = 16%nat → (k ≤ length bytes)%nat → (k ≤ 16)%nat →
  (if Z.of_nat k <? 16
   then array_memset (take k bytes ++ drop k stack) (Z.of_nat k) 0 (16 - Z.of_nat k)
   else Ok (take k bytes ++ drop k stack))
  = Ok (take k bytes ++ replicate (16 - k) 0).
Proof.
  intros Hstack Hk Hk16.
  assert (Hlen : length (take k bytes ++ drop k stack) = 16%nat)
    by (rewrite length_app, length_take, length_drop; lia).
  destruct (Z.ltb_spec (Z.of_nat k) 16).
  - replace (16 - Z.of_nat k) with (Z.of_nat (length (take k bytes ++ drop k stack)) - Z.of_nat k)
      by (rewrite Hlen; lia).
    rewrite array_memset_tail by (rewrite Hlen; lia).
    rewrite Hlen, Nat2Z.id, take_app_length' by (rewrite length_take; lia). done.
  - replace k with 16%nat by lia. by rewrite drop_ge by lia.
Qed.

(** ** [h_put_term_char] *)

Section put.
Context (spapr : sPAPREnvironment) (reg len char0_7 char8_15 : Z) (rest : list Z).
#[local] Abbreviation args := (reg :: len :: char0_7 :: char8_15 :: rest).

(** Reading the four registers. *)
Local Ltac read_args :=
  unfold h_put_term_char;
  repeat (erewrite (proj2 (array_get_Ok _ _ _)) by (split; [lia | reflexivity]));
  cbn [mbind res_bind].

(** The handler once its four registers are read. *)
Lemma h_put_term_char_read :
  h_put_term_char spapr args
  = match vty_lookup spapr reg with
    | None => Ok (H_PARAMETER, [])
    | Some p =>
        if 16 <? len then Ok (H_PARAMETER, [])
        else sdev ← bus_deref (vio_bus spapr) p;
             evs ← vty_putchars sdev (chunk_of_words char0_7 char8_15) len;
             Ok (H_SUCCESS, evs)
    end.
Proof. by read_args. Qed.

(** C22: A write of more than 16 bytes is refused with [H_PARAMETER] and
    nothing reaches the backend, whether the address resolves or not. *)
Theorem h_put_term_char_too_long :
  16 < len → h_put_term_char spapr args = Ok (H_PARAMETER, []).
Proof.
  intros Hlen. read_args.
  destruct (vty_lookup spapr reg); [| done].
  by rewrite (proj2 (Z.ltb_lt 16 len)).
Qed.

(** A write to an address that does not resolve is refused with
    [H_PARAMETER] and nothing reaches the backend. *)
Theorem h_put_term_char_unresolved :
  vty_lookup spapr reg = None → h_put_term_char spapr args = Ok (H_PARAMETER, []).
Proof. intros Hnone. read_args. by rewrite Hnone. Qed.

(** The write to a terminal in closed form. *)
Lemma h_put_term_char_ok p dev chr :
  vty_lookup spapr reg = Some p → vio_bus spapr !! p = Some (VtyDevice dev) →
  dev_chardev dev = Some chr → 0 ≤ len ≤ 16 →
  h_put_term_char spapr args
  = Ok (H_SUCCESS, [EvChrWrite chr (take (Z.to_nat len) (chunk_of_words char0_7 char8_15))]).
Proof.
  intros Hp Hdev Hchr Hlen. read_args.
  rewrite Hp, (proj2 (Z.ltb_ge 16 len)), (bus_deref_Ok _ _ _ Hdev) by lia. cbn.
  by rewrite Hchr, length_chunk_of_words, decide_True by lia.
Qed.

(** C10: A write of [len <= 16] bytes to a terminal returns [H_SUCCESS]
    and hands the backend of that terminal, in one call, exactly [len]
    bytes: the first [len] bytes of the buffer the two stores fill, and
    byte [i] of them is byte [i mod 8], counted from the most significant
    one, of [char0_7] when [i < 8] and of [char8_15] otherwise. The ring
    buffer is not involved. *)
Theorem h_put_term_char_writes p dev chr :
  vty_lookup spapr reg = Some p → vio_bus spapr !! p = Some (VtyDevice dev) →
  dev_chardev dev = Some chr → 0 ≤ len ≤ 16 →
  ∃ data,
    h_put_term_char spapr args = Ok (H_SUCCESS, [EvChrWrite chr data]) ∧
    data = take (Z.to_nat len) (chunk_of_words char0_7 char8_15) ∧
    length data = Z.to_nat len ∧
    ∀ i : nat, (i < Z.to_nat len)%nat →
      data !! i = Some (Z.land ((if decide (i < 8)%nat then char0_7 else char8_15)
                                  ≫ (8 * Z.of_nat (7 - i mod 8))) 255).
Proof.
  intros Hp Hdev Hchr Hlen. eexists. split_and!; [by eapply h_put_term_char_ok | done | |].
  - rewrite length_take, length_chunk_of_words. lia.
  - intros i Hi. rewrite lookup_take_lt by done. apply chunk_of_words_lookup. lia.
Qed.

(** C23: A write to the address of a device that is not a terminal is not
    refused: the handler goes on to use the device as a terminal. *)
Theorem h_put_term_char_other_type p sdev :
  vty_lookup spapr reg = Some p → vio_bus spapr !! p = Some (OtherDevice sdev) →
  len ≤ 16 →
  h_put_term_char spapr args = Err TypeConfusion.
Proof.
  intros Hp Hdev Hlen. read_args.
  by rewrite Hp, (proj2 (Z.ltb_ge 16 len)), (bus_deref_Ok _ _ _ Hdev) by lia.
Qed.
End put.

(** ** [h_get_term_char] *)

(** A read from an address that does not resolve returns
    [H_PARAMETER] and changes neither the machine nor the registers. *)
Theorem h_get_term_char_unresolved spapr reg rest stack :
  vty_lookup spapr reg = None →
  h_get_term_char spapr (reg :: rest) stack = Ok (H_PARAMETER, spapr, reg :: rest).
Proof.
  intros Hnone. unfold h_get_term_char.
  erewrite (proj2 (array_get_Ok _ _ _)) by (split; [lia | reflexivity]). cbn.
  by rewrite Hnone.
Qed.

(** C25: An address that no child of the bus has, and that is not 0 on a
    bus with a terminal, is refused by both handlers with [H_PARAMETER]:
    the write hands nothing to any backend, the read changes neither a
    ring buffer nor a register, whatever the other registers hold. *)
Theorem hcall_unresolved spapr reg put_rest get_rest stack :
  Forall (λ q, sdev_reg (qdev_sdev q) ≠ reg) (vio_bus spapr) →
  (reg = 0 → Forall (λ q, is_spapr_vty q = false) (vio_bus spapr)) →
  (3 ≤ length put_rest)%nat →
  h_put_term_char spapr (reg :: put_rest) = Ok (H_PARAMETER, []) ∧
  h_get_term_char spapr (reg :: get_rest) stack = Ok (H_PARAMETER, spapr, reg :: get_rest).
Proof.
  intros Hreg Hvty Hlen. assert (vty_lookup spapr reg = None) as Hnone
    by by apply vty_lookup_None.
  destruct put_rest as [| len [| c0 [| c1 rest]]]; [simpl in Hlen; lia .. |].
  split; [by apply h_put_term_char_unresolved | by apply h_get_term_char_unresolved].
Qed.

(** The result of a read from a terminal in closed form. *)
Lemma h_get_term_char_ok spapr args stack reg p dev :
  args !! 0%nat = Some reg → (3 ≤ length args)%nat → length stack = 16%nat →
  vty_lookup spapr reg = Some p → vio_bus spapr !! p = Some (VtyDevice dev) →
  vty_wf dev →
  h_get_term_char spapr args stack
  = Ok (H_SUCCESS,
        mkSpapr (<[p := VtyDevice (vty_consume dev (Z.of_nat (read_count dev)))]> (vio_bus spapr)),
        read_args args dev (read_count dev)).
Proof.
  intros Hreg Hargs Hstack Hp Hdev Hwf. pose proof (vty_wf_used dev Hwf) as Hu.
  destruct (vty_getchars_ok dev stack 16 Hwf) as (Hrun & Hrest); [lia |].
  fold (read_count dev) in Hrun. set (k := read_count dev) in *.
  assert (Hk : (k ≤ 16 ∧ k ≤ Z.to_nat (used dev))%nat) by (unfold k, read_count; lia).
  unfold h_get_term_char. rewrite (proj2 (array_get_Ok args 0 reg)) by (split; [lia | done]). cbn.
  rewrite Hp, (bus_deref_Ok _ _ _ Hdev). cbn. rewrite Hrun. cbn.
  rewrite array_set_Ok by lia. cbn.
  rewrite get_term_char_pad by (rewrite ?length_contents; lia). cbn.
  fold (read_chunk dev k).
  repeat (rewrite array_set_Ok by (rewrite ?length_insert; lia); cbn [mbind res_bind]).
  done.
Qed.

(** C9: A read from a terminal returns [H_SUCCESS], even from an empty
    ring; the count is [k = min 16 unread], the two words are the chunk
    made of the [k] oldest unread bytes followed by zeros, the terminal
    keeps the other unread bytes and its static fields, the other
    children of the bus are untouched, and none of this depends on what
    the stack held. *)
Theorem h_get_term_char_reads spapr args stack reg p dev :
  args !! 0%nat = Some reg → (3 ≤ length args)%nat → length stack = 16%nat →
  vty_lookup spapr reg = Some p → vio_bus spapr !! p = Some (VtyDevice dev) →
  vty_wf dev →
  let k := Z.to_nat (16 `min` used dev) in
  ∃ dev', h_get_term_char spapr args stack
          = Ok (H_SUCCESS, mkSpapr (<[p := VtyDevice dev']> (vio_bus spapr)),
                read_args args dev k) ∧
          vty_wf dev' ∧ contents dev' = drop k (contents dev) ∧ same_static dev dev'.
Proof.
  intros Hreg Hargs Hstack Hp Hdev Hwf k.
  destruct (vty_consume_read_count dev Hwf) as [Hwf' Hc].
  exists (vty_consume dev (Z.of_nat k)).
  by rewrite (h_get_term_char_ok spapr args stack reg p dev).
Qed.

Lemma read_args_lookup args dev k :
  (3 ≤ length args)%nat →
  read_args args dev k !! 0%nat = Some (Z.of_nat k) ∧
  read_args args dev k !! 1%nat = Some (words_of_chunk (read_chunk dev k)).1 ∧
  read_args args dev k !! 2%nat = Some (words_of_chunk (read_chunk dev k)).2.
Proof.
  intros Hlen. unfold read_args. split_and!.
  - rewrite !list_lookup_insert_ne by done. apply list_lookup_insert_eq. lia.
  - rewrite list_lookup_insert_ne by done. apply list_lookup_insert_eq.
    rewrite length_insert. lia.
  - apply list_lookup_insert_eq. rewrite !length_insert. lia.
Qed.

(** C19: What the guest decodes: after a read from a terminal, register 0
    holds the count [k], and the 16 bytes rebuilt from registers 1 and 2
    are the [k] oldest unread bytes, in the order they arrived, followed
    by [16 - k] zero bytes. *)
Theorem h_get_term_char_decodes spapr args stack reg p dev :
  args !! 0%nat = Some reg → (3 ≤ length args)%nat → length stack = 16%nat →
  vty_lookup spapr reg = Some p → vio_bus spapr !! p = Some (VtyDevice dev) →
  vty_wf dev →
  let k := Z.to_nat (16 `min` used dev) in
  ∃ spapr' args' w0 w1,
    h_get_term_char spapr args stack = Ok (H_SUCCESS, spapr', args') ∧
    args' !! 0%nat = Some (Z.of_nat k) ∧
    args' !! 1%nat = Some w0 ∧ args' !! 2%nat = Some w1 ∧
    chunk_of_words w0 w1 = take k (contents dev) ++ replicate (16 - k) 0.
Proof.
  intros Hreg Hargs Hstack Hp Hdev Hwf k. pose proof (vty_wf_used dev Hwf) as Hu.
  rewrite (h_get_term_char_ok spapr args stack reg p dev) by done.
  destruct (read_args_lookup args dev k Hargs) as (H0 & H1 & H2).
  do 4 eexists. split_and!; [done .. |].
  unfold chunk_of_words, words_of_chunk. cbn [fst snd].
  apply cpu_to_be64_pair; [| by apply read_chunk_bytes].
  apply length_read_chunk; rewrite ?length_contents; lia.
Qed.

(** C37: The uninitialised local buffer of [h_get_term_char] does not leak:
    whatever two stacks hold, a read from a terminal returns the same
    status, the same machine and the same registers. *)
Theorem h_get_term_char_stack_independent spapr args stack stack' reg p dev :
  args !! 0%nat = Some reg → (3 ≤ length args)%nat →
  length stack = 16%nat → length stack' = 16%nat →
  vty_lookup spapr reg = Some p → vio_bus spapr !! p = Some (VtyDevice dev) →
  vty_wf dev →
  h_get_term_char spapr args stack = h_get_term_char spapr args stack'.
Proof.
  intros Hreg Hargs Hstack Hstack' Hp Hdev Hwf.
  by rewrite (h_get_term_char_ok spapr args stack reg p dev),
    (h_get_term_char_ok spapr args stack' reg p dev).
Qed.

(** ** Witnesses *)

(** The example bus with five unread bytes in the terminal at 5. *)
Definition example_spapr : sPAPREnvironment :=
  mkSpapr [OtherDevice (mkVIO 1 1); VtyDevice wrapped_dev; vty_at 2; vty_at 9].

Lemma h_put_term_char_too_long_witness :
  h_put_term_char example_spapr [5; 17; 0; 0] = Ok (H_PARAMETER, []).
Proof. apply (h_put_term_char_too_long example_spapr 5 17 0 0 []). lia. Defined.

Lemma h_put_term_char_unresolved_witness :
  h_put_term_char example_spapr [7; 3; 0; 0] = Ok (H_PARAMETER, []).
Proof. by apply (h_put_term_char_unresolved example_spapr 7 3 0 0 []). Defined.

Lemma h_put_term_char_writes_witness :
  ∃ data,
    h_put_term_char example_spapr [5; 10; 0x4142434445464748; 0x494a4b4c4d4e4f50]
    = Ok (H_SUCCESS, [EvChrWrite 1 data]) ∧
    data = take (Z.to_nat 10) (chunk_of_words 0x4142434445464748 0x494a4b4c4d4e4f50) ∧
    length data = Z.to_nat 10 ∧
    ∀ i : nat, (i < Z.to_nat 10)%nat →
      data !! i = Some (Z.land ((if decide (i < 8)%nat
                                 then 0x4142434445464748 else 0x494a4b4c4d4e4f50)
                                  ≫ (8 * Z.of_nat (7 - i mod 8))) 255).
Proof.
  apply (h_put_term_char_writes example_spapr 5 10 _ _ [] 1%nat wrapped_dev 1);
    [done | done | done | lia].
Defined.

(** The ten bytes of that write are "ABCDEFGHIJ". *)
Example h_put_term_char_example :
  h_put_term_char example_spapr [5; 10; 0x4142434445464748; 0x494a4b4c4d4e4f50]
  = Ok (H_SUCCESS, [EvChrWrite 1 (seqZ 0x41 10)]).
Proof. by vm_compute. Qed.

Lemma hcall_unresolved_witness :
  h_put_term_char example_spapr [7; 3; 0; 0] = Ok (H_PARAMETER, []) ∧
  h_get_term_char example_spapr [7; 0; 0] (replicate 16 255)
  = Ok (H_PARAMETER, example_spapr, [7; 0; 0]).
Proof.
  apply (hcall_unresolved example_spapr 7 [3; 0; 0] [0; 0]); [| done | simpl; lia].
  by repeat constructor.
Defined.

Lemma h_put_term_char_other_type_witness :
  h_put_term_char example_spapr [1; 3; 0; 0] = Err TypeConfusion.
Proof.
  apply (h_put_term_char_other_type example_spapr 1 3 0 0 [] 0%nat (mkVIO 1 1));
    [done | done | lia].
Defined.

Lemma h_get_term_char_unresolved_witness :
  h_get_term_char example_spapr [7; 0; 0] (replicate 16 255)
  = Ok (H_PARAMETER, example_spapr, [7; 0; 0]).
Proof. by apply (h_get_term_char_unresolved example_spapr 7 [0; 0]). Defined.

Lemma h_get_term_char_reads_witness :
  let k := Z.to_nat (16 `min` used wrapped_dev) in
  ∃ dev', h_get_term_char example_spapr [5; 0; 0] (replicate 16 255)
          = Ok (H_SUCCESS, mkSpapr (<[1%nat := VtyDevice dev']> (vio_bus example_spapr)),
                read_args [5; 0; 0] wrapped_dev k) ∧
          vty_wf dev' ∧ contents dev' = drop k (contents wrapped_dev) ∧
          same_static wrapped_dev dev'.
Proof.
  apply (h_get_term_char_reads example_spapr [5; 0; 0] (replicate 16 255) 5 1 wrapped_dev);
    [done | simpl; lia | done | done | done | apply wrapped_dev_wf].
Defined.

Lemma h_get_term_char_decodes_witness :
  let k := Z.to_nat (16 `min` used wrapped_dev) in
  ∃ spapr' args' w0 w1,
    h_get_term_char example_spapr [5; 0; 0] (replicate 16 255)
    = Ok (H_SUCCESS, spapr', args') ∧
    args' !! 0%nat = Some (Z.of_nat k) ∧
    args' !! 1%nat = Some w0 ∧ args' !! 2%nat = Some w1 ∧
    chunk_of_words w0 w1 = take k (contents wrapped_dev) ++ replicate (16 - k) 0.
Proof.
  apply (h_get_term_char_decodes example_spapr [5; 0; 0] (replicate 16 255) 5 1 wrapped_dev);
    [done | simpl; lia | done | done | done | apply wrapped_dev_wf].
Defined.

Lemma h_get_term_char_stack_independent_witness :
  h_get_term_char example_spapr [5; 0; 0] (replicate 16 255)
  = h_get_term_char example_spapr [5; 0; 0] (seqZ 0 16).
Proof.
  apply (h_get_term_char_stack_independent example_spapr [5; 0; 0] _ _ 5 1 wrapped_dev);
    [done | simpl; lia | done | done | done | done | apply wrapped_dev_wf].
Defined.
