(* ===== verification/Machine.v ===== *)
(** * Machine: the terminals of a machine as a transition system

    The code of hw/spapr_vty.c runs when one of three things happens: the
    character backend of a terminal has input (it calls the callbacks that
    [spapr_vty_init] registered, [vty_can_receive] and [vty_receive], with
    the terminal as their argument), the guest makes the hypercall
    H_PUT_TERM_CHAR, or the guest makes the hypercall H_GET_TERM_CHAR.
    All three run to completion on one thread, so the behaviour of the
    machine is the set of sequences of such calls: the relation [step] has
    one rule for each, [steps] is its closure, and [machine_step] and
    [machine_run] are the same as functions.

    The theorems are about every sequence of calls: the invariant [bus_wf]
    and the static part of every child of the bus are preserved, so a
    [reg] resolves alike before and after; a sequence that respects the
    contracts of the callers never aborts; what the guest decodes from
    its reads of a terminal is what the backend delivered to it, in
    order; a delivery pulses the interrupt exactly when the guest has
    read all that came before; and the registers a read returns are in
    range. *)

From stdpp Require Import base numbers list option.
From S2P Require Import Prelude Wire RingBuffer Registry Hcall.

Local Open Scope Z_scope.

(** ** Calls and what they return *)

(** A call into the terminal code. [p] points to the terminal whose
    backend has input; [stack] is what the local buffer of
    [h_get_term_char] holds on entry. *)
Inductive action : Type :=
  | ChrInput (p : nat) (data : list Z)
  | HPutTermChar (args : list Z)
  | HGetTermChar (args stack : list Z).

(** What the caller gets back: nothing from a callback; the status and
    the registers from a hypercall. *)
Inductive reply : Type :=
  | RInput
  | RHcall (status : Z) (args : list Z).

#[export] Instance action_eq_dec : EqDecision action.
Proof. solve_decision. Defined.
#[export] Instance reply_eq_dec : EqDecision reply.
Proof. solve_decision. Defined.

(** A call, its reply and the calls it made to the outside. *)
Definition label : Type := action * reply * list event.

(** The calls the callers can make: the backend delivers bytes; the
    hypercall layer passes at least the registers a handler uses, each a
    64-bit value; the local buffer has 16 bytes. *)
Definition action_ok (a : action) : Prop :=
  match a with
  | ChrInput _ data => Forall is_byte data
  | HPutTermChar args => (4 ≤ length args)%nat ∧ Forall (in_width 64) args
  | HGetTermChar args stack => (3 ≤ length args)%nat ∧ length stack = 16%nat
  end.

#[export] Instance action_ok_dec a : Decision (action_ok a).
Proof. destruct a; apply _. Defined.

(** ** The machine as a function *)

(** The backend of the terminal [p] delivers [data]: the callback
    [vty_receive] runs on the terminal registered with it. *)
Definition chr_input (spapr : sPAPREnvironment) (p : nat) (data : list Z)
  : res (sPAPREnvironment * list event) :=
  sdev ← bus_deref (vio_bus spapr) p;
  dev ← as_vty sdev;
  r ← vty_receive dev data (Z.of_nat (length data));
  Ok (mkSpapr (<[p := VtyDevice r.1]> (vio_bus spapr)), r.2).

(** One call. *)
Definition machine_step (spapr : sPAPREnvironment) (a : action)
  : res (sPAPREnvironment * reply * list event) :=
  match a with
  | ChrInput p data =>
      r ← chr_input spapr p data; Ok (r.1, RInput, r.2)
  | HPutTermChar args =>
      r ← h_put_term_char spapr args; Ok (spapr, RHcall r.1 args, r.2)
  | HGetTermChar args stack =>
      r ← h_get_term_char spapr args stack; Ok (r.1.2, RHcall r.1.1 r.2, [])
  end.

(** A sequence of calls; the first fatal error ends the run. *)
Fixpoint machine_run (spapr : sPAPREnvironment) (acts : list action)
  : res (sPAPREnvironment * list label) :=
  match acts with
  | [] => Ok (spapr, [])
  | a :: acts =>
      r ← machine_step spapr a;
      r' ← machine_run r.1.1 acts;
      Ok (r'.1, (a, r.1.2, r.2) :: r'.2)
  end.

(** What the callers of a run saw: the replies and the outside calls. *)
Definition observations (tr : list label) : list (reply * list event) :=
  (λ l : label, (l.1.2, l.2)) <$> tr.

(** ** The machine as a relation *)

Inductive step : sPAPREnvironment → label → sPAPREnvironment → Prop :=
  | step_chr_input spapr p dev data dev' evs :
      Forall is_byte data →
      vio_bus spapr !! p = Some (VtyDevice dev) →
      vty_receive dev data (Z.of_nat (length data)) = Ok (dev', evs) →
      step spapr (ChrInput p data, RInput, evs)
           (mkSpapr (<[p := VtyDevice dev']> (vio_bus spapr)))
  | step_put_term_char spapr args status evs :
      action_ok (HPutTermChar args) →
      h_put_term_char spapr args = Ok (status, evs) →
      step spapr (HPutTermChar args, RHcall status args, evs) spapr
  | step_get_term_char spapr args stack status spapr' args' :
      action_ok (HGetTermChar args stack) →
      h_get_term_char spapr args stack = Ok (status, spapr', args') →
      step spapr (HGetTermChar args stack, RHcall status args', []) spapr'.

Inductive steps : sPAPREnvironment → list label → sPAPREnvironment → Prop :=
  | steps_nil spapr : steps spapr [] spapr
  | steps_cons spapr l spapr' tr spapr'' :
      step spapr l spapr' → steps spapr' tr spapr'' →
      steps spapr (l :: tr) spapr''.

(** ** Invariant *)

(** Every terminal of the bus is well-formed. *)
Definition dev_ok (q : DeviceState) : Prop :=
  match q with VtyDevice dev => vty_wf dev | OtherDevice _ => True end.

#[export] Instance dev_ok_dec q : Decision (dev_ok q).
Proof. destruct q; apply _. Defined.

Definition bus_wf (spapr : sPAPREnvironment) : Prop := Forall dev_ok (vio_bus spapr).

#[export] Instance bus_wf_dec spapr : Decision (bus_wf spapr).
Proof. unfold bus_wf. apply _. Defined.

(** ** What a terminal received and what the guest read from it *)

(** The bytes a label delivers to the terminal [p]. *)
Definition delivered (p : nat) (l : label) : list Z :=
  match l.1.1 with
  | ChrInput p' data => if decide (p' = p) then data else []
  | _ => []
  end.

(** The bytes the guest decodes from a reply: the first [n] bytes of the
    two words, when the status is [H_SUCCESS]. *)
Definition guest_bytes (r : reply) : list Z :=
  match r with
  | RHcall status (n :: w0 :: w1 :: _) =>
      if decide (status = H_SUCCESS) then take (Z.to_nat n) (chunk_of_words w0 w1) else []
  | _ => []
  end.

(** The bytes the guest reads from the terminal [p] with a label, where
    [spapr] resolves the addresses. *)
Definition consumed (spapr : sPAPREnvironment) (p : nat) (l : label) : list Z :=
  match l.1.1 with
  | HGetTermChar args _ =>
      if decide (args !! 0%nat ≫= vty_lookup spapr = Some p) then guest_bytes l.1.2 else []
  | _ => []
  end.

(** The child a call changes, if any: the terminal the backend delivers
    to, or the child the address of a read resolves to; a write changes
    none. *)
Definition targeted (spapr : sPAPREnvironment) (a : action) : option nat :=
  match a with
  | ChrInput p _ => Some p
  | HPutTermChar _ => None
  | HGetTermChar args _ => args !! 0%nat ≫= vty_lookup spapr
  end.

(** ** The contracts of the callers *)

(** The address in register 0 is not that of a device of another type,
    and the terminal it resolves to has a backend. *)
Definition targets_vty (spapr : sPAPREnvironment) (args : list Z) : Prop :=
  match args !! 0%nat ≫= vty_lookup spapr with
  | None => True
  | Some p =>
      match vio_bus spapr !! p with
      | Some (VtyDevice dev) => is_Some (dev_chardev dev)
      | _ => False
      end
  end.

(** What the callers promise: the backend delivers to a terminal, and no
    more bytes than [vty_can_receive] allowed; the guest addresses
    terminals. *)
Definition enabled (spapr : sPAPREnvironment) (a : action) : Prop :=
  match a with
  | ChrInput p data =>
      match vio_bus spapr !! p with
      | Some (VtyDevice dev) => Z.of_nat (length data) ≤ vty_can_receive dev
      | _ => False
      end
  | HPutTermChar args => targets_vty spapr args
  | HGetTermChar args _ => targets_vty spapr args
  end.

(** Every call of a run is one the callers can make, and respects the
    contracts in the state it is made in. *)
Fixpoint run_enabled (spapr : sPAPREnvironment) (acts : list action) : Prop :=
  match acts with
  | [] => True
  | a :: acts =>
      action_ok a ∧ enabled spapr a ∧
      match machine_step spapr a with
      | Ok r => run_enabled r.1.1 acts
      | Err _ => True
      end
  end.

#[export] Instance targets_vty_dec spapr args : Decision (targets_vty spapr args).
Proof. unfold targets_vty. repeat case_match; apply _. Defined.

#[export] Instance enabled_dec spapr a : Decision (enabled spapr a).
Proof. destruct a; simpl; repeat case_match; apply _. Defined.

#[export] Instance run_enabled_dec spapr acts : Decision (run_enabled spapr acts).
Proof.
  revert spapr. induction acts as [| a acts IH]; intros spapr; simpl; [apply _ |].
  destruct (machine_step spapr a); apply _.
Defined.

(** ** The invariant and the bus *)

Lemma bus_wf_lookup spapr p dev :
  bus_wf spapr → vio_bus spapr !! p = Some (VtyDevice dev) → vty_wf dev.
Proof. intros Hwf Hp. apply (Forall_lookup_1 _ _ _ _ Hwf Hp). Qed.

Lemma bus_wf_insert spapr p dev :
  bus_wf spapr → vty_wf dev →
  bus_wf (mkSpapr (<[p := VtyDevice dev]> (vio_bus spapr))).
Proof. intros Hwf Hdev. by apply Forall_insert. Qed.

(** Replacing a terminal by one with the same static fields keeps the
    static part of the bus. *)
Lemma bus_static_insert spapr p dev dev' :
  vio_bus spapr !! p = Some (VtyDevice dev) → same_static dev dev' →
  static_of <$> <[p := VtyDevice dev']> (vio_bus spapr) = static_of <$> vio_bus spapr.
Proof. intros Hp Hs. eapply static_of_insert; [done | by apply static_of_vty]. Qed.

(** ** What a hypercall that returns did *)

(** Runs a handler in [Hrun] up to the lookup of the address in register
    0, with [args !! 0 = Some reg] and the result of the lookup at hand. *)
Local Ltac run_head Hrun :=
  unfold h_get_term_char, h_put_term_char, bus_deref in Hrun;
  match goal with
  | Hreg : ?args !! 0%nat = Some ?reg, Hp : vty_lookup _ ?reg = _ |- _ =>
      rewrite (proj2 (array_get_Ok args 0 reg)) in Hrun by (split; [lia | exact Hreg]);
      cbn [mbind res_bind] in Hrun; rewrite ?Hp in Hrun
  end.

(** The two ways [h_get_term_char] returns: the address does not resolve
    and nothing changes, or it resolves to a terminal and the read of
    [h_get_term_char_ok] happens. *)
Lemma h_get_term_char_cases spapr args stack status spapr' args' :
  bus_wf spapr → action_ok (HGetTermChar args stack) →
  h_get_term_char spapr args stack = Ok (status, spapr', args') →
  (args !! 0%nat ≫= vty_lookup spapr = None ∧
   status = H_PARAMETER ∧ spapr' = spapr ∧ args' = args) ∨
  (∃ p dev, args !! 0%nat ≫= vty_lookup spapr = Some p ∧
            vio_bus spapr !! p = Some (VtyDevice dev) ∧ status = H_SUCCESS ∧
            spapr' = mkSpapr (<[p := VtyDevice (vty_consume dev (Z.of_nat (read_count dev)))]>
                                (vio_bus spapr)) ∧
            args' = read_args args dev (read_count dev)).
Proof.
  intros Hwf [Hargs Hstack] Hrun.
  destruct (args !! 0%nat) as [reg |] eqn:Hreg; [| apply lookup_ge_None in Hreg; lia].
  simpl. destruct (vty_lookup spapr reg) as [p |] eqn:Hp;
    [destruct (vio_bus spapr !! p) as [[dev | sdev] |] eqn:Hdev |].
  - rewrite (h_get_term_char_ok spapr args stack reg p dev) in Hrun
      by eauto using bus_wf_lookup.
    injection Hrun as <- <- <-. right. by exists p, dev.
  - run_head Hrun. by rewrite Hdev in Hrun.
  - run_head Hrun. by rewrite Hdev in Hrun.
  - run_head Hrun. injection Hrun as <- <- <-. by left.
Qed.

Lemma targets_vty_elim spapr args reg p :
  targets_vty spapr args → args !! 0%nat = Some reg → vty_lookup spapr reg = Some p →
  ∃ dev chr, vio_bus spapr !! p = Some (VtyDevice dev) ∧ dev_chardev dev = Some chr.
Proof.
  unfold targets_vty. intros Htarget Hreg Hp. rewrite Hreg in Htarget.
  simpl in Htarget. rewrite Hp in Htarget.
  destruct (vio_bus spapr !! p) as [[dev | ?] |]; [| done ..].
  destruct Htarget as [chr Hchr]. by exists dev, chr.
Qed.

(** With an address that is not that of another device, a write
    returns. *)
Lemma h_put_term_char_total spapr args :
  action_ok (HPutTermChar args) → targets_vty spapr args →
  is_Ok (h_put_term_char spapr args).
Proof.
  intros [Hlen Hargs] Htarget.
  destruct args as [| reg [| len [| c0 [| c1 rest]]]]; simpl in Hlen; try lia.
  assert (0 ≤ len) by (apply (Forall_lookup_1 _ _ 1%nat len) in Hargs; [apply Hargs | done]).
  rewrite h_put_term_char_read.
  destruct (vty_lookup spapr reg) as [p |] eqn:Hp; [| by eexists].
  destruct (Z.ltb_spec 16 len); [by eexists |].
  destruct (targets_vty_elim _ _ reg p Htarget) as (dev & chr & Hdev & Hchr); [done .. |].
  rewrite (bus_deref_Ok _ _ _ Hdev). cbn. unfold vty_putchars. cbn.
  rewrite Hchr, length_chunk_of_words, decide_True by lia. by eexists.
Qed.

(** With an address that is not that of another device, a read
    returns. *)
Lemma h_get_term_char_total spapr args stack :
  bus_wf spapr → action_ok (HGetTermChar args stack) → targets_vty spapr args →
  is_Ok (h_get_term_char spapr args stack).
Proof.
  intros Hwf [Hlen Hstack] Htarget.
  destruct (args !! 0%nat) as [reg |] eqn:Hreg; [| apply lookup_ge_None in Hreg; lia].
  destruct (vty_lookup spapr reg) as [p |] eqn:Hp.
  - destruct (targets_vty_elim _ _ reg p Htarget) as (dev & chr & Hdev & Hchr); [done .. |].
    rewrite (h_get_term_char_ok spapr args stack reg p dev) by eauto using bus_wf_lookup.
    by eexists.
  - unfold h_get_term_char.
    rewrite (proj2 (array_get_Ok args 0 reg)) by (split; [lia | done]). cbn.
    rewrite Hp. by eexists.
Qed.

(** ** One step *)

(** The relation and the function agree. *)
Lemma step_machine_step spapr a r evs spapr' :
  step spapr (a, r, evs) spapr' ↔
  action_ok a ∧ machine_step spapr a = Ok (spapr', r, evs).
Proof.
  split.
  - inversion 1 as [? ? ? ? ? ? ? Hp Hrun | ? ? ? ? ? Hrun | ? ? ? ? ? ? ? Hrun]; subst;
      (split; [done |]); simpl; [| by rewrite Hrun ..].
    unfold chr_input. rewrite (bus_deref_Ok _ _ _ Hp). cbn. by rewrite Hrun.
  - intros [Hok Hrun]. destruct a as [p data | args | args stack]; simpl in Hrun.
    + apply res_bind_Ok in Hrun as ([s1 evs1] & Hchr & [= <- <- <-]).
      unfold chr_input, bus_deref in Hchr.
      destruct (vio_bus spapr !! p) as [[dev | sdev] |] eqn:Hp; try done. cbn in Hchr.
      apply res_bind_Ok in Hchr as ([dev' evs'] & Hrun & [= <- <-]).
      by eapply step_chr_input.
    + apply res_bind_Ok in Hrun as ([status evs'] & Hrun & [= <- <- <-]).
      by apply step_put_term_char.
    + apply res_bind_Ok in Hrun as ([[status s1] args'] & Hrun & [= <- <- <-]).
      by apply step_get_term_char.
Qed.

(** A call that respects the contracts is a step: it does not abort. *)
Lemma step_progress spapr a :
  bus_wf spapr → action_ok a → enabled spapr a →
  ∃ r evs spapr', step spapr (a, r, evs) spapr'.
Proof.
  intros Hwf Hok Hen. destruct a as [p data | args | args stack]; simpl in Hen.
  - destruct (vio_bus spapr !! p) as [[dev | ?] |] eqn:Hp; [| done ..].
    rename Hen into Hsize. pose proof (bus_wf_lookup _ _ _ Hwf Hp) as Hdev. pose proof (vty_wf_used dev Hdev).
    destruct (vty_receive_ok dev data (Z.of_nat (length data))) as (dev' & Hrun & _);
      [done | done | lia | | by do 3 eexists; eapply step_chr_input].
    revert Hsize. unfold vty_can_receive, VTERM_BUFSIZE. fold (used dev).
    destruct (Z.ltb_spec (used dev) 16); simpl; lia.
  - destruct (h_put_term_char_total spapr args) as [[status evs] Hrun]; [done .. |].
    do 3 eexists. by apply step_put_term_char.
  - destruct (h_get_term_char_total spapr args stack) as [[[status s'] args'] Hrun];
      [done .. |].
    do 3 eexists. by apply step_get_term_char.
Qed.

(** A step keeps the invariant and the static part of the bus. *)
Lemma step_inv spapr l spapr' :
  step spapr l spapr' → bus_wf spapr →
  bus_wf spapr' ∧ static_of <$> vio_bus spapr' = static_of <$> vio_bus spapr.
Proof.
  intros Hstep Hwf. destruct Hstep as
    [spapr p dev data dev' evs Hdata Hp Hrun | | spapr args stack status spapr' args' Hok Hrun];
    [| done |].
  - apply vty_receive_Ok_inv in Hrun as (_ & _ & Hdev' & _ & _ & _ & Hs);
      [| by eapply bus_wf_lookup | done | lia].
    split; [by apply bus_wf_insert | by eapply bus_static_insert].
  - destruct (h_get_term_char_cases _ _ _ _ _ _ Hwf Hok Hrun)
      as [(_ & _ & -> & _) | (p & dev & _ & Hp & _ & -> & _)]; [done |].
    destruct (vty_consume_read_count dev) as [Hdev' _]; [by eapply bus_wf_lookup |].
    split; [by apply bus_wf_insert | by eapply bus_static_insert].
Qed.

(** The guest decodes from a successful read the bytes the read took. *)
Lemma guest_bytes_read_args args dev :
  (3 ≤ length args)%nat → vty_wf dev →
  guest_bytes (RHcall H_SUCCESS (read_args args dev (read_count dev)))
  = take (read_count dev) (contents dev).
Proof.
  intros Hargs Hwf. pose proof (vty_wf_used dev Hwf) as Hu.
  pose proof (length_contents dev) as Hlen.
  assert (Hk : (read_count dev ≤ 16 ∧ read_count dev ≤ length (contents dev))%nat)
    by (unfold read_count; lia).
  destruct args as [| a0 [| a1 [| a2 rest]]]; simpl in Hargs; try lia.
  unfold read_args, guest_bytes. cbn. rewrite decide_True, Nat2Z.id by done.
  unfold chunk_of_words.
  rewrite cpu_to_be64_pair; [| apply length_read_chunk; lia | by apply read_chunk_bytes].
  unfold read_chunk. by rewrite take_app_length' by (rewrite length_take; lia).
Qed.

(** The labels resolve addresses on the static part of the bus. *)
Lemma consumed_static spapr spapr' p l :
  static_of <$> vio_bus spapr = static_of <$> vio_bus spapr' →
  consumed spapr p l = consumed spapr' p l.
Proof.
  intros Hs. unfold consumed. destruct (l.1.1) as [| | args stack]; try done.
  destruct (args !! 0%nat) as [reg |]; simpl; [| done].
  by rewrite (vty_lookup_static spapr spapr' reg Hs).
Qed.

(** A step moves the bytes it delivers to a terminal in at the back of
    its ring, and the bytes the guest reads from it out at the front. *)
Lemma step_fifo spapr l spapr' p dev :
  step spapr l spapr' → bus_wf spapr → vio_bus spapr !! p = Some (VtyDevice dev) →
  ∃ dev', vio_bus spapr' !! p = Some (VtyDevice dev') ∧
          contents dev ++ delivered p l = consumed spapr p l ++ contents dev'.
Proof.
  intros Hstep Hwf Hdev. pose proof (lookup_lt_Some _ _ _ Hdev) as Hlt.
  destruct Hstep as
    [spapr p0 dev0 data dev' evs Hdata Hp Hrun | |
     spapr args stack status spapr' args' Hok Hrun];
    unfold delivered, consumed; cbn [fst snd vio_bus].
  - apply vty_receive_Ok_inv in Hrun as (_ & _ & _ & Hc & _);
      [| by eapply bus_wf_lookup | done | lia].
    rewrite Nat2Z.id, firstn_all in Hc. case_decide as Hp0; [subst p0 |].
    + rewrite Hp in Hdev. injection Hdev as ->. exists dev'.
      by rewrite list_lookup_insert_eq.
    + exists dev. by rewrite list_lookup_insert_ne, app_nil_r.
  - exists dev. by rewrite app_nil_r.
  - destruct (h_get_term_char_cases _ _ _ _ _ _ Hwf Hok Hrun)
      as [(-> & _ & -> & _) | (p0 & dev0 & -> & Hp & -> & -> & ->)].
    { exists dev. by rewrite decide_False, app_nil_r. }
    cbn [vio_bus]. destruct (decide (p0 = p)) as [-> | Hp0].
    + rewrite Hp in Hdev. injection Hdev as ->.
      destruct (vty_consume_read_count dev) as [_ Hc]; [by eapply bus_wf_lookup |].
      eexists. rewrite list_lookup_insert_eq, decide_True by done. split; [done |].
      rewrite guest_bytes_read_args, Hc, take_drop, app_nil_r;
        [done | apply Hok | by eapply bus_wf_lookup].
    + exists dev. rewrite list_lookup_insert_ne, decide_False, app_nil_r by congruence.
      done.
Qed.

(** The same along a sequence of steps. *)
Lemma steps_fifo_eq spapr tr spapr' p dev :
  steps spapr tr spapr' → bus_wf spapr → vio_bus spapr !! p = Some (VtyDevice dev) →
  ∃ dev', vio_bus spapr' !! p = Some (VtyDevice dev') ∧
          contents dev ++ (tr ≫= delivered p) = (tr ≫= consumed spapr p) ++ contents dev'.
Proof.
  intros Hsteps. revert dev.
  induction Hsteps as [| spapr l spapr' tr spapr'' Hstep _ IH]; intros dev Hwf Hdev.
  - exists dev. by rewrite app_nil_r.
  - destruct (step_fifo _ _ _ p dev Hstep Hwf Hdev) as (dev1 & Hdev1 & Hc1).
    destruct (step_inv _ _ _ Hstep Hwf) as [Hwf' Hs].
    destruct (IH dev1 Hwf' Hdev1) as (dev2 & Hdev2 & Hc2).
    exists dev2. split; [done |]. rewrite !bind_cons, app_assoc, Hc1, <-!app_assoc.
    f_equal. rewrite Hc2. f_equal. apply list_bind_ext; [| done].
    intros l'. by apply consumed_static.
Qed.

Lemma steps_inv spapr tr spapr' :
  steps spapr tr spapr' → bus_wf spapr →
  bus_wf spapr' ∧ static_of <$> vio_bus spapr' = static_of <$> vio_bus spapr.
Proof.
  induction 1 as [| spapr l spapr' tr spapr'' Hstep _ IH]; intros Hwf; [done |].
  destruct (step_inv _ _ _ Hstep Hwf) as [Hwf' Hs].
  destruct (IH Hwf') as [Hwf'' Hs']. split; [done | congruence].
Qed.

(** A sequence of steps stops over at the state between two parts of its
    trace. *)
Lemma steps_app_inv spapr tr1 tr2 spapr'' :
  steps spapr (tr1 ++ tr2) spapr'' →
  ∃ spapr', steps spapr tr1 spapr' ∧ steps spapr' tr2 spapr''.
Proof.
  revert spapr. induction tr1 as [| l tr1 IH]; intros spapr Hsteps; simpl in *.
  - exists spapr. split; [constructor | done].
  - inversion Hsteps as [| ? ? s1 ? ? Hstep Hrest]; subst.
    destruct (IH _ Hrest) as (s2 & Htr1 & Htr2). exists s2.
    split; [by eapply steps_cons | done].
Qed.

(** The line of a terminal is part of what no step changes. *)
Lemma static_lookup_irq (bus bus' : VIOsPAPRBus) p dev dev' :
  static_of <$> bus' = static_of <$> bus →
  bus !! p = Some (VtyDevice dev) → bus' !! p = Some (VtyDevice dev') →
  sdev_qirq (dev_sdev dev') = sdev_qirq (dev_sdev dev).
Proof.
  intros Hs Hdev Hdev'. apply (f_equal (.!! p)) in Hs.
  rewrite !list_lookup_fmap, Hdev, Hdev' in Hs. by injection Hs as ->.
Qed.

(** C3: End to end, first in first out: after any sequence of calls that
    returned, for every terminal, the bytes that were unread at the start
    followed by the bytes its backend delivered are the bytes the guest
    decoded from its successful reads of that terminal (the first [n]
    bytes of the two words of each reply, in the order of the replies)
    followed by the bytes still unread.  No byte is lost, duplicated,
    reordered or handed to another terminal, and padding never passes
    for data. *)
Theorem steps_fifo spapr tr spapr' p dev :
  steps spapr tr spapr' → bus_wf spapr → vio_bus spapr !! p = Some (VtyDevice dev) →
  ∃ dev', vio_bus spapr' !! p = Some (VtyDevice dev') ∧
          contents dev ++ (tr ≫= delivered p) = (tr ≫= consumed spapr p) ++ contents dev'.
Proof. apply steps_fifo_eq. Qed.

(** C12: The interrupt is an edge signal, in terms of what the callers
    of a run see: a delivery to a terminal pulses the line of that
    terminal, once, exactly when it brings at least one byte and the
    guest has read every byte that was unread at the start or delivered
    to that terminal earlier in the run; a delivery made while bytes are
    still unread raises nothing, however many bytes it brings, and a
    delivery makes no other call to the outside. *)
Theorem steps_irq_edge spapr tr1 p data evs tr2 spapr' dev :
  steps spapr (tr1 ++ (ChrInput p data, RInput, evs) :: tr2) spapr' → bus_wf spapr →
  vio_bus spapr !! p = Some (VtyDevice dev) →
  evs = if bool_decide (data ≠ [] ∧
                        contents dev ++ (tr1 ≫= delivered p) = tr1 ≫= consumed spapr p)
        then [EvIrqPulse (sdev_qirq (dev_sdev dev))] else [].
Proof.
  intros (s1 & Htr1 & Hrest)%steps_app_inv Hwf Hdev.
  destruct (steps_fifo_eq _ _ _ p dev Htr1 Hwf Hdev) as (dev1 & Hdev1 & ->).
  destruct (steps_inv _ _ _ Htr1 Hwf) as [Hwf1 Hs].
  inversion Hrest as [| ? ? s2 ? ? Hstep _]; subst.
  inversion Hstep as [? ? d ? ? ? Hdata Hp Hrun | |]; subst.
  rewrite Hdev1 in Hp. injection Hp as <-.
  apply vty_receive_Ok_inv in Hrun as (_ & -> & _); [| by eapply bus_wf_lookup | done | lia].
  unfold receive_irq. rewrite (static_lookup_irq _ _ p dev dev1 Hs) by done.
  rewrite (bool_decide_ext (contents dev1 = [] ∧ _) (data ≠ [] ∧
    (tr1 ≫= consumed spapr p) ++ contents dev1 = tr1 ≫= consumed spapr p)); [done |].
  rewrite <-(app_nil_r (tr1 ≫= consumed spapr p)) at 2.
  rewrite (inj_iff (app (tr1 ≫= consumed spapr p))). destruct data; naive_solver lia.
Qed.

(** C5: Invariant of the machine: after any sequence of backend
    deliveries and hypercalls that returned, every terminal is
    well-formed (its cursors are 32-bit values at most 16 apart, so the
    number of unread bytes is between 0 and 16), the bus has the same
    children with the same type, [reg], interrupt line and backend, and
    every [reg] resolves to the child it resolved to at the start. *)
Theorem steps_invariant spapr tr spapr' :
  steps spapr tr spapr' → bus_wf spapr →
  bus_wf spapr' ∧ static_of <$> vio_bus spapr' = static_of <$> vio_bus spapr ∧
  ∀ reg, vty_lookup spapr' reg = vty_lookup spapr reg.
Proof.
  intros Hsteps Hwf. destruct (steps_inv _ _ _ Hsteps Hwf) as [Hwf' Hs].
  split_and!; [done | done |]. intros reg. by apply vty_lookup_static.
Qed.

(** A call leaves alone every child but the one it is made on. *)
Lemma step_frame spapr l spapr' p :
  step spapr l spapr' → bus_wf spapr → targeted spapr l.1.1 ≠ Some p →
  vio_bus spapr' !! p = vio_bus spapr !! p.
Proof.
  intros Hstep Hwf. destruct Hstep as
    [spapr p0 dev data dev' evs Hdata Hp Hrun | |
     spapr args stack status spapr' args' Hok Hrun]; cbn [targeted fst snd vio_bus];
    [| done |].
  - intros Hne. apply list_lookup_insert_ne. congruence.
  - destruct (h_get_term_char_cases _ _ _ _ _ _ Hwf Hok Hrun)
      as [(_ & _ & -> & _) | (p0 & dev & -> & _ & _ & -> & _)]; [done |].
    intros Hne. apply list_lookup_insert_ne. congruence.
Qed.

Lemma targeted_static spapr spapr' a :
  static_of <$> vio_bus spapr = static_of <$> vio_bus spapr' →
  targeted spapr a = targeted spapr' a.
Proof.
  intros Hs. destruct a as [| | args stack]; simpl; [done .. |].
  destruct (args !! 0%nat) as [reg |]; simpl; [| done]. by apply vty_lookup_static.
Qed.

(** C17: Terminals are independent: after any sequence of calls that
    returned, a child of the bus that no call of the sequence was made
    on (no delivery to it, no read from an address that resolves to it)
    is exactly as it was at the start, cursors and slots included;
    writes change no child at all. *)
Theorem steps_frame spapr tr spapr' p :
  steps spapr tr spapr' → bus_wf spapr →
  Forall (λ l : label, targeted spapr l.1.1 ≠ Some p) tr →
  vio_bus spapr' !! p = vio_bus spapr !! p.
Proof.
  induction 1 as [| spapr l spapr' tr spapr'' Hstep _ IH]; intros Hwf Htr; [done |].
  apply Forall_cons_1 in Htr as [Hl Htr].
  destruct (step_inv _ _ _ Hstep Hwf) as [Hwf' Hs].
  rewrite IH, (step_frame _ _ _ p Hstep Hwf Hl); [done | done |].
  eapply List.Forall_impl; [| exact Htr]. intros l' Hl'. simpl in *.
  by rewrite (targeted_static spapr' spapr).
Qed.

(** C21: The registers of a read stay in range: when [h_get_term_char]
    returns on 64-bit registers, the status is a 64-bit value
    ([H_PARAMETER] is -4 as an unsigned word), the register array has
    the length it had and holds 64-bit values only, and after a
    successful read register 0 is a count between 0 and 16: the guest
    never sees an index into the 16 bytes of the two words that is out
    of range. *)
Theorem h_get_term_char_bounds spapr args stack status spapr' args' :
  bus_wf spapr → action_ok (HGetTermChar args stack) → Forall (in_width 64) args →
  h_get_term_char spapr args stack = Ok (status, spapr', args') →
  in_width 64 status ∧ length args' = length args ∧ Forall (in_width 64) args' ∧
  (status = H_SUCCESS → ∃ n, args' !! 0%nat = Some n ∧ 0 ≤ n ≤ 16).
Proof.
  intros Hwf Hok Hargs Hrun.
  destruct (h_get_term_char_cases _ _ _ _ _ _ Hwf Hok Hrun)
    as [(_ & -> & -> & ->) | (p & dev & _ & Hp & -> & -> & ->)].
  { split_and!; [by_compute | done | done |]. intros Heq. by vm_compute in Heq. }
  pose proof (read_chunk_bytes dev (read_count dev) (bus_wf_lookup _ _ _ Hwf Hp)) as Hb.
  split_and!; [by_compute | unfold read_args; by rewrite !length_insert | |].
  - unfold read_args, words_of_chunk. cbn [fst snd].
    repeat apply Forall_insert; [done | unfold in_width, read_count; lia | ..];
      apply be64_to_cpu_in_width; by try apply Forall_drop.
  - intros _. exists (Z.of_nat (read_count dev)).
    split; [by apply read_args_lookup, Hok | unfold read_count; lia].
Qed.

(** ** Runs *)

(** A run of the function is a sequence of steps of the relation, one for
    each call. *)
Lemma machine_run_steps spapr acts spapr' tr :
  Forall action_ok acts → machine_run spapr acts = Ok (spapr', tr) →
  steps spapr tr spapr' ∧ tr.*1.*1 = acts.
Proof.
  revert spapr tr. induction acts as [| a acts IH]; intros spapr tr Hok; simpl.
  - intros [= <- <-]. split; [constructor | done].
  - apply Forall_cons_1 in Hok as [Ha Hok].
    intros ([[s1 r] evs] & Hstep & ([s2 tr'] & Hrun & [= <- <-])%res_bind_Ok)%res_bind_Ok.
    destruct (IH _ _ Hok Hrun) as [Hsteps Hacts]. simpl in *. split; [| by f_equal].
    eapply steps_cons; [by apply step_machine_step | done].
Qed.

(** C11: No abort under the contracts: a sequence of calls in which the
    backend never delivers more bytes than [vty_can_receive] allowed at
    that moment, and the guest never addresses a device that is not a
    terminal, runs to its end from a well-formed machine: the assertion
    of [vty_receive] does not fail and no array is left. *)
Theorem machine_run_safe spapr acts :
  bus_wf spapr → run_enabled spapr acts → is_Ok (machine_run spapr acts).
Proof.
  revert spapr. induction acts as [| a acts IH]; intros spapr Hwf; simpl; [by eexists |].
  intros (Hok & Hen & Hrest).
  destruct (step_progress spapr a Hwf Hok Hen) as (r & evs & s1 & Hstep).
  destruct (step_inv _ _ _ Hstep Hwf) as [Hwf1 _].
  apply step_machine_step in Hstep as [_ Hrun]. rewrite Hrun in Hrest |- *. simpl in *.
  destruct (IH s1 Hwf1 Hrest) as [r' ->]. by eexists.
Qed.

(** ** Examples and witnesses *)

(** Two deliveries of one byte to the terminal at 5 (which holds five
    unread bytes and whose cursors are about to wrap), a write to it, a
    read from it, a delivery to the terminal at 2 and a read from
    address 0, which no child has. *)
Definition example_actions : list action :=
  [ChrInput 1 [0x41]; ChrInput 1 [0x42];
   HPutTermChar [5; 3; 0x4142434445464748; 0];
   HGetTermChar [5; 0; 0] (replicate 16 255);
   ChrInput 2 [0x44];
   HGetTermChar [0; 0; 0] (seqZ 0 16)].

Definition example_run : res (sPAPREnvironment * list label) :=
  Eval vm_compute in machine_run example_spapr example_actions.

Definition example_final : sPAPREnvironment :=
  match example_run with Ok r => r.1 | Err _ => example_spapr end.

Definition example_trace : list label :=
  match example_run with Ok r => r.2 | Err _ => [] end.

Lemma example_spapr_wf : bus_wf example_spapr.
Proof. by_compute. Qed.

Lemma example_steps : steps example_spapr example_trace example_final.
Proof.
  apply (machine_run_steps example_spapr example_actions); [by_compute |].
  by vm_compute.
Qed.

(** The scenario of the specification: three bytes delivered to an
    empty terminal pulse its interrupt once, two more before any read
    pulse nothing, a read takes the five bytes in order, and one more
    byte pulses the interrupt again. *)
Example notify_scenario :
  (r ← machine_run (mkSpapr [vty_at 2])
         [ChrInput 0 [1; 2; 3]; ChrInput 0 [4; 5];
          HGetTermChar [2; 0; 0] (replicate 16 255); ChrInput 0 [6]];
   Ok (observations r.2))
  = Ok [(RInput, [EvIrqPulse 2]); (RInput, []);
        (RHcall H_SUCCESS [5; 0x0102030405000000; 0], []); (RInput, [EvIrqPulse 2])].
Proof. by vm_compute. Qed.

Lemma steps_invariant_witness :
  bus_wf example_final ∧
  static_of <$> vio_bus example_final = static_of <$> vio_bus example_spapr ∧
  ∀ reg, vty_lookup example_final reg = vty_lookup example_spapr reg.
Proof.
  apply (steps_invariant example_spapr example_trace example_final);
    [apply example_steps | apply example_spapr_wf].
Defined.

Lemma steps_fifo_witness :
  ∃ dev', vio_bus example_final !! 1%nat = Some (VtyDevice dev') ∧
          contents wrapped_dev ++ (example_trace ≫= delivered 1)
          = (example_trace ≫= consumed example_spapr 1) ++ contents dev'.
Proof.
  apply (steps_fifo example_spapr example_trace example_final 1 wrapped_dev);
    [apply example_steps | apply example_spapr_wf | done].
Defined.

(** A delivery to the terminal at 5 (five unread bytes), a read that
    takes the six bytes, and another delivery. *)
Definition edge_actions : list action :=
  [ChrInput 1 [0x41]; HGetTermChar [5; 0; 0] (replicate 16 255); ChrInput 1 [0x42]].

Definition edge_run : res (sPAPREnvironment * list label) :=
  Eval vm_compute in machine_run example_spapr edge_actions.

Definition edge_final : sPAPREnvironment :=
  match edge_run with Ok r => r.1 | Err _ => example_spapr end.

Definition edge_trace : list label :=
  match edge_run with Ok r => r.2 | Err _ => [] end.

Lemma steps_irq_edge_witness :
  [EvIrqPulse 7]
  = if bool_decide ([0x42] ≠ [] ∧
                    contents wrapped_dev ++ (take 2 edge_trace ≫= delivered 1)
                    = take 2 edge_trace ≫= consumed example_spapr 1)
    then [EvIrqPulse (sdev_qirq (dev_sdev wrapped_dev))] else [].
Proof.
  apply (steps_irq_edge example_spapr (take 2 edge_trace) 1 [0x42] [EvIrqPulse 7] []
           edge_final wrapped_dev); [| apply example_spapr_wf | done].
  apply (machine_run_steps example_spapr edge_actions); [by_compute | by vm_compute].
Defined.

Lemma h_get_term_char_bounds_witness :
  ∃ status args', in_width 64 status ∧ length args' = 3%nat ∧
                  Forall (in_width 64) args' ∧
                  (status = H_SUCCESS → ∃ n, args' !! 0%nat = Some n ∧ 0 ≤ n ≤ 16).
Proof.
  destruct (h_get_term_char example_spapr [5; 0; 0] (replicate 16 255))
    as [[[status spapr'] args'] |] eqn:Hrun; [| by vm_compute in Hrun].
  exists status, args'.
  apply (h_get_term_char_bounds example_spapr [5; 0; 0] (replicate 16 255) status spapr' args');
    [apply example_spapr_wf | by_compute | by_compute | done].
Defined.

Lemma steps_frame_witness :
  vio_bus example_final !! 3%nat = vio_bus example_spapr !! 3%nat.
Proof.
  apply (steps_frame example_spapr example_trace example_final 3);
    [apply example_steps | apply example_spapr_wf | by_compute].
Defined.

Lemma machine_run_safe_witness : is_Ok (machine_run example_spapr example_actions).
Proof.
  apply (machine_run_safe example_spapr example_actions);
    [apply example_spapr_wf | by_compute].
Defined.
