(* ===== verification/Spec.v ===== *)
(** * Spec: what the terminals promise, with every terminal a queue

    The abstract machine the code of hw/spapr_vty.c implements.  A
    terminal is its address, its interrupt line, its backend and the list
    of the bytes delivered to it that the guest has not read yet; there
    are no cursors, no array, no wrap-around and no loops.  The calls are
    those of [Machine] and the replies have the same shape, so that the
    two machines can be compared label by label; the fatal paths of the
    code (the assertion on overflow, the use of a device of another type
    as a terminal) are results of the abstract machine as well.

    [Refinement] proves that the machine of [Machine] implements this
    one. *)

From stdpp Require Import base numbers list option.
From S2P Require Import Prelude Wire Hcall Machine.

Local Open Scope Z_scope.

(** ** States *)

Record terminal : Type := mkTerminal {
  t_reg : Z;                (* the address the guest uses *)
  t_irq : Z;                (* the interrupt line *)
  t_chardev : option Z;     (* the backend *)
  t_pending : list Z;       (* delivered and not read yet, oldest first *)
}.

(** A child of the bus: a terminal, or a device of another type, of which
    only the address matters. *)
Inductive child : Type :=
  | Terminal (t : terminal)
  | Other (reg : Z).

#[export] Instance terminal_eq_dec : EqDecision terminal.
Proof. solve_decision. Defined.
#[export] Instance child_eq_dec : EqDecision child.
Proof. solve_decision. Defined.

Abbreviation spec_machine := (list child).

Definition child_reg (c : child) : Z :=
  match c with Terminal t => t_reg t | Other reg => reg end.

Definition is_terminal (c : child) : Prop :=
  match c with Terminal _ => True | Other _ => False end.

#[export] Instance is_terminal_dec c : Decision (is_terminal c).
Proof. destruct c; apply _. Defined.

(** ** Addresses *)

(** A terminal whose address is the least among the terminals. *)
Definition least_terminal (m : spec_machine) (c : child) : Prop :=
  is_terminal c ∧ Forall (λ c', is_terminal c' → child_reg c ≤ child_reg c') m.

#[export] Instance least_terminal_dec m c : Decision (least_terminal m c).
Proof. unfold least_terminal. apply _. Defined.

(** The child an address stands for: the first child with that address;
    failing that, for address 0, the first of the terminals with the
    least address. *)
Definition resolve (m : spec_machine) (reg : Z) : option nat :=
  match list_find (λ c, child_reg c = reg) m with
  | Some ic => Some ic.1
  | None => if decide (reg = 0) then fst <$> list_find (least_terminal m) m else None
  end.

(** ** Calls *)

(** The most the queue of a terminal holds. *)
Definition capacity : nat := 16.

Definition set_pending (t : terminal) (q : list Z) : terminal :=
  mkTerminal (t_reg t) (t_irq t) (t_chardev t) q.

(** The child a pointer leads to, used as a terminal. *)
Definition terminal_at (m : spec_machine) (p : nat) : res terminal :=
  match m !! p with
  | Some (Terminal t) => Ok t
  | Some (Other _) => Err TypeConfusion
  | None => Err NullDeref
  end.

(** The backend of the terminal [p] delivers [data]: the bytes join the
    queue, and the interrupt is pulsed when the queue was empty and gets
    a byte.  More bytes than fit is a failed assertion. *)
Definition spec_input (m : spec_machine) (p : nat) (data : list Z)
  : res (spec_machine * list event) :=
  t ← terminal_at m p;
  if decide (length (t_pending t) + length data ≤ capacity)%nat then
    Ok (<[p := Terminal (set_pending t (t_pending t ++ data))]> m,
        if bool_decide (t_pending t = [] ∧ data ≠ []) then [EvIrqPulse (t_irq t)] else [])
  else Err AssertFail.

(** The guest writes the first [len] bytes of two words to the terminal
    at [reg]. *)
Definition spec_put (m : spec_machine) (args : list Z) : res (Z * list event) :=
  match args with
  | reg :: len :: char0_7 :: char8_15 :: _ =>
      match resolve m reg with
      | None => Ok (H_PARAMETER, [])
      | Some p =>
          if decide (16 < len) then Ok (H_PARAMETER, [])
          else
            t ← terminal_at m p;
            match t_chardev t with
            | Some chr =>
                Ok (H_SUCCESS,
                    [EvChrWrite chr (take (Z.to_nat len) (chunk_of_words char0_7 char8_15))])
            | None => Err NullDeref
            end
      end
  | _ => Err OutOfBounds
  end.

(** The registers after a read of [bytes]: the count, and the bytes
    padded with zeros to 16 as two words. *)
Definition spec_read_args (args bytes : list Z) : list Z :=
  let ws := words_of_chunk (bytes ++ replicate (16 - length bytes) 0) in
  <[2%nat := ws.2]> (<[1%nat := ws.1]> (<[0%nat := Z.of_nat (length bytes)]> args)).

(** The guest reads from the terminal at [reg]: the oldest bytes of the
    queue, 16 at most, leave it. *)
Definition spec_get (m : spec_machine) (args : list Z) : res (Z * spec_machine * list Z) :=
  match args with
  | reg :: _ :: _ :: _ =>
      match resolve m reg with
      | None => Ok (H_PARAMETER, m, args)
      | Some p =>
          t ← terminal_at m p;
          Ok (H_SUCCESS, <[p := Terminal (set_pending t (drop 16 (t_pending t)))]> m,
              spec_read_args args (take 16 (t_pending t)))
      end
  | _ => Err OutOfBounds
  end.

(** One call. *)
Definition spec_step (m : spec_machine) (a : action)
  : res (spec_machine * reply * list event) :=
  match a with
  | ChrInput p data =>
      r ← spec_input m p data; Ok (r.1, RInput, r.2)
  | HPutTermChar args =>
      r ← spec_put m args; Ok (m, RHcall r.1 args, r.2)
  | HGetTermChar args _ =>
      r ← spec_get m args; Ok (r.1.2, RHcall r.1.1 r.2, [])
  end.

(** A sequence of calls; the first fatal error ends the run. *)
Fixpoint spec_run (m : spec_machine) (acts : list action)
  : res (spec_machine * list label) :=
  match acts with
  | [] => Ok (m, [])
  | a :: acts =>
      r ← spec_step m a;
      r' ← spec_run r.1.1 acts;
      Ok (r'.1, (a, r.1.2, r.2) :: r'.2)
  end.
