(* ===== verification/Refinement.v ===== *)
(** * Refinement: the machine implements the abstract machine

    The abstraction [abs] forgets how a terminal stores its unread bytes:
    a [VIOsPAPRVTYDevice] becomes the [terminal] with its address, line and
    backend and with [contents] as its queue.  On a well-formed machine
    every call of [Machine] is the call of [Spec] on the abstraction, with
    the same reply, the same outside calls and the same fatal errors
    ([machine_step_abs]), and so is every sequence of calls.  The ring, the
    32-bit cursors and their wrap-around, the loops, the local buffer of
    the read and the walk over the bus are thus invisible to the callers.
    In particular [vty_lookup] is the declarative [resolve] of [Spec]. *)

From stdpp Require Import base numbers list option.
From S2P Require Import Prelude Wire RingBuffer Registry Hcall Machine Spec.

Local Open Scope Z_scope.

(** ** The abstraction *)

Definition abs_child (q : DeviceState) : child :=
  match q with
  | VtyDevice dev =>
      Terminal (mkTerminal (sdev_reg (dev_sdev dev)) (sdev_qirq (dev_sdev dev))
                           (dev_chardev dev) (contents dev))
  | OtherDevice sdev => Other (sdev_reg sdev)
  end.

Definition abs (spapr : sPAPREnvironment) : spec_machine := abs_child <$> vio_bus spapr.

(** What a call returns, with the machine abstracted. *)
Definition abs_result {A} (r : sPAPREnvironment * A) : spec_machine * A := (abs r.1, r.2).

(** ** Addresses *)

Lemma child_reg_abs q : child_reg (abs_child q) = sdev_reg (qdev_sdev q).
Proof. by destruct q. Qed.

Lemma is_terminal_abs q : is_terminal (abs_child q) ↔ is_spapr_vty q = true.
Proof. by destruct q. Qed.

Lemma abs_lookup spapr p : abs spapr !! p = abs_child <$> vio_bus spapr !! p.
Proof. apply list_lookup_fmap. Qed.

(** The first of the terminals with the least address is the default
    terminal of [Registry]. *)
Lemma least_terminal_default bus i q :
  list_find (least_terminal (abs_child <$> bus) ∘ abs_child) bus = Some (i, q) →
  is_default bus i.
Proof.
  intros (Hq & [Hvty Hleast] & Hfirst)%list_find_Some.
  destruct q as [d | ?]; [| done]. exists d. split; [done |].
  intros j d' Hd'. rewrite Forall_fmap, Forall_lookup in Hleast.
  pose proof (Hleast j _ Hd' I) as Hle. split; [done |].
  intros Heq. apply Nat.nlt_ge. intros Hlt. apply (Hfirst j _ Hd' Hlt).
  split; [done |]. rewrite Forall_fmap, Forall_lookup. intros k q' Hq' Hvty'.
  specialize (Hleast k q' Hq' Hvty'). simpl in *. lia.
Qed.

Lemma default_abs bus :
  fst <$> list_find (least_terminal (abs_child <$> bus)) (abs_child <$> bus)
  = spapr_vty_get_default bus.
Proof.
  rewrite list_find_fmap.
  destruct (list_find _ bus) as [[i q] |] eqn:Hfind; simpl.
  - symmetry. by apply spapr_vty_get_default_iff, (least_terminal_default bus i q).
  - destruct (spapr_vty_get_default bus) as [i |] eqn:Hdef; [| done].
    apply spapr_vty_get_default_iff in Hdef as (d & Hd & Hmin).
    rewrite list_find_None, Forall_lookup in Hfind. destruct (Hfind i _ Hd).
    split; [done |]. rewrite Forall_fmap, Forall_lookup. intros j [d' | ?] Hd' Hvty; [| done].
    apply (Hmin j d' Hd').
Qed.

(** The abstract machine resolves an address as [vty_lookup] does. *)
Lemma resolve_abs spapr reg : resolve (abs spapr) reg = vty_lookup spapr reg.
Proof.
  unfold resolve, vty_lookup, spapr_vio_find_by_reg, abs. rewrite default_abs, list_find_fmap.
  rewrite (list_find_ext _ (λ q, sdev_reg (qdev_sdev q) = reg))
    by (intros; simpl; by rewrite child_reg_abs).
  destruct (list_find _ (vio_bus spapr)) as [[i q] |]; simpl; [done |].
  destruct (Z.eqb_spec reg 0); by case_decide.
Qed.

(** ** Calls *)

Lemma abs_insert spapr p dev :
  abs (mkSpapr (<[p := VtyDevice dev]> (vio_bus spapr)))
  = <[p := abs_child (VtyDevice dev)]> (abs spapr).
Proof. apply list_fmap_insert. Qed.

(** A delivery. *)
Lemma chr_input_abs spapr p data :
  bus_wf spapr → Forall is_byte data →
  abs_result <$> chr_input spapr p data = spec_input (abs spapr) p data.
Proof.
  intros Hwf Hdata. unfold chr_input, spec_input, terminal_at, bus_deref.
  rewrite abs_lookup.
  destruct (vio_bus spapr !! p) as [[dev | sdev] |] eqn:Hp; [| done ..]. cbn.
  pose proof (bus_wf_lookup _ _ _ Hwf Hp) as Hdev. pose proof (vty_wf_used dev Hdev).
  rewrite length_contents. unfold capacity. case_decide as Hroom.
  - destruct (vty_receive_ok dev data (Z.of_nat (length data)))
      as (dev' & -> & _ & Hc & _ & _ & Hs1 & Hs2); [done | done | lia | lia |].
    cbn. unfold abs_result. cbn [fst snd]. rewrite abs_insert. simpl.
    rewrite Hc, Hs1, Hs2, Nat2Z.id, firstn_all. do 2 f_equal.
    unfold receive_irq.
    by rewrite (bool_decide_ext (_ ∧ _ ≠ 0) (contents dev = [] ∧ data ≠ []))
      by (destruct data; naive_solver).
  - unfold vty_receive. by rewrite vty_receive_loop_overflow by (done || lia).
Qed.

(** A write. *)
Lemma h_put_term_char_abs spapr args :
  action_ok (HPutTermChar args) → h_put_term_char spapr args = spec_put (abs spapr) args.
Proof.
  intros [Hlen Hargs]. destruct args as [| reg [| len [| c0 [| c1 rest]]]]; simpl in Hlen; try lia.
  assert (0 ≤ len) by (apply (Forall_lookup_1 _ _ 1%nat len) in Hargs; [apply Hargs | done]).
  rewrite h_put_term_char_read. unfold spec_put. rewrite resolve_abs.
  destruct (vty_lookup spapr reg) as [p |]; [| done].
  destruct (Z.ltb_spec 16 len); [by rewrite decide_True | rewrite decide_False by lia].
  unfold bus_deref, terminal_at. rewrite abs_lookup.
  destruct (vio_bus spapr !! p) as [[dev | sdev] |]; [| done ..]. cbn.
  unfold vty_putchars. cbn. destruct (dev_chardev dev); [| done].
  by rewrite length_chunk_of_words, decide_True by lia.
Qed.

(** A read takes all the unread bytes: there are at most 16. *)
Lemma read_count_length dev : vty_wf dev → read_count dev = length (contents dev).
Proof.
  intros Hwf. pose proof (vty_wf_used dev Hwf). unfold read_count.
  rewrite length_contents. lia.
Qed.

Lemma read_args_abs args dev :
  vty_wf dev → read_args args dev (read_count dev) = spec_read_args args (take 16 (contents dev)).
Proof.
  intros Hwf. pose proof (vty_wf_used dev Hwf). pose proof (length_contents dev).
  unfold read_args, spec_read_args, read_chunk.
  by rewrite read_count_length, !firstn_all, take_ge by (done || lia).
Qed.

(** The result of a read, with the machine abstracted. *)
Definition abs_get (r : Z * sPAPREnvironment * list Z) : Z * spec_machine * list Z :=
  (r.1.1, abs r.1.2, r.2).

(** Runs [h_get_term_char] up to the lookup of the address. *)
Local Ltac get_head :=
  unfold h_get_term_char, bus_deref;
  erewrite (proj2 (array_get_Ok _ 0 _)) by (split; [lia | reflexivity]);
  cbn [mbind res_bind].

Lemma h_get_term_char_abs spapr args stack :
  bus_wf spapr → action_ok (HGetTermChar args stack) →
  abs_get <$> h_get_term_char spapr args stack = spec_get (abs spapr) args.
Proof.
  intros Hwf [Hlen Hstack].
  destruct args as [| reg [| a1 [| a2 rest]]]; simpl in Hlen; try lia.
  unfold spec_get, terminal_at. rewrite resolve_abs.
  destruct (vty_lookup spapr reg) as [p |] eqn:Hp; [rewrite abs_lookup |].
  - destruct (vio_bus spapr !! p) as [[dev | sdev] |] eqn:Hdev.
    + pose proof (bus_wf_lookup _ _ _ Hwf Hdev) as Hd.
      rewrite (h_get_term_char_ok spapr _ stack reg p dev) by (done || simpl; lia).
      destruct (vty_consume_read_count dev Hd) as [_ Hc]. pose proof (length_contents dev).
      pose proof (vty_wf_used dev Hd).
      rewrite read_args_abs by done. unfold abs_get. cbn [fmap res_fmap fst snd].
      rewrite abs_insert. simpl. by rewrite Hc, read_count_length, !drop_ge by (done || lia).
    + get_head. by rewrite Hp, Hdev.
    + get_head. by rewrite Hp, Hdev.
  - get_head. by rewrite Hp.
Qed.

(** ** Steps and runs *)

(** What a call returns, with the machine abstracted. *)
Definition abs_step (r : sPAPREnvironment * reply * list event)
  : spec_machine * reply * list event :=
  (abs r.1.1, r.1.2, r.2).

(** Every call is the call of the abstract machine on the abstraction:
    same reply, same outside calls, same fatal errors. *)
Lemma machine_step_abs spapr a :
  bus_wf spapr → action_ok a →
  abs_step <$> machine_step spapr a = spec_step (abs spapr) a.
Proof.
  intros Hwf Hok. destruct a as [p data | args | args stack]; simpl.
  - rewrite <-chr_input_abs by done. by destruct (chr_input spapr p data) as [[s evs] |].
  - rewrite <-h_put_term_char_abs by done.
    by destruct (h_put_term_char spapr args) as [[status evs] |].
  - rewrite <-(h_get_term_char_abs spapr args stack) by done.
    by destruct (h_get_term_char spapr args stack) as [[[status s] args'] |].
Qed.

Lemma machine_step_wf spapr a r :
  bus_wf spapr → action_ok a → machine_step spapr a = Ok r → bus_wf r.1.1.
Proof.
  intros Hwf Hok Hrun. destruct r as [[s rep] evs].
  eapply step_inv; [| done]. apply step_machine_step. by split.
Qed.

Lemma machine_run_abs spapr acts :
  bus_wf spapr → Forall action_ok acts →
  abs_result <$> machine_run spapr acts = spec_run (abs spapr) acts.
Proof.
  revert spapr. induction acts as [| a acts IH]; intros spapr Hwf Hok; [done |].
  apply Forall_cons_1 in Hok as [Ha Hok]. cbn [machine_run spec_run].
  rewrite <-machine_step_abs by done.
  destruct (machine_step spapr a) as [[[s r] evs] |] eqn:Hstep; [| done].
  cbn. rewrite <-IH by (done || by apply (machine_step_wf spapr a _ Hwf Ha Hstep)).
  by destruct (machine_run s acts) as [[s' tr] |].
Qed.

(** ** Theorems *)

(** C4: The machine implements the abstract machine: from a well-formed
    machine, every sequence of backend deliveries and hypercalls gives
    the replies, the outside calls and the final queues that the same
    sequence gives on the abstract machine, where each terminal is the
    list of its unread bytes; and it aborts exactly when the abstract
    machine does, with the same fault (a delivery that does not fit, a
    terminal pointer that leads to a device of another type).  The
    cursors, their wrap-around, the slots of the ring, the local buffer
    of a read and the walk over the bus cannot be observed. *)
Theorem machine_run_refines spapr acts :
  bus_wf spapr → Forall action_ok acts →
  abs_result <$> machine_run spapr acts = spec_run (abs spapr) acts.
Proof. apply machine_run_abs. Qed.

(** C16: [vty_lookup] against its description: an address stands for the
    first child of the bus that has it, whatever the type of that child;
    an address that no child has stands for nothing, except address 0,
    which stands for the first of the terminals with the least address
    when there is a terminal. *)
Theorem vty_lookup_resolve spapr reg : vty_lookup spapr reg = resolve (abs spapr) reg.
Proof. symmetry. apply resolve_abs. Qed.

(** ** Witnesses *)

Lemma machine_run_refines_witness :
  abs_result <$> machine_run example_spapr example_actions
  = spec_run (abs example_spapr) example_actions.
Proof.
  apply (machine_run_refines example_spapr example_actions);
    [apply example_spapr_wf | by_compute].
Defined.
