(* ===== verification/Liveness.v ===== *)
(** * Liveness: an interrupt-driven guest receives every byte

    The machine of [Machine] is closed here with the two parties that
    call it for one terminal.  The character backend holds the input of
    the terminal and what [qemu_chr_add_handlers] stored for it
    ([chr_handlers]): it calls the function registered as [fd_can_read]
    with the registered argument, and then hands the function registered
    as [fd_read] at least one byte and at most as many as the answer
    allowed.  The guest reads with [H_GET_TERM_CHAR] when the interrupt
    of its line is pending, and a read acknowledges the interrupt.
    Nothing else is assumed: the two parties interleave in any order.

    The calls are those of the code, faults included: a state of the
    system is the result of the calls made so far, and a fault is a state
    from which nothing more happens.  The theorem says that whatever the
    interleaving, the system neither faults, nor gets stuck, nor runs for
    ever: it reaches the state where the backend has handed over all its
    input, no interrupt is pending, the ring is empty, and the guest has
    received the bytes that were unread followed by the input, in order.
    It holds because the code pulses the interrupt when the ring goes
    from empty to non-empty, because a read takes all the unread bytes,
    and because [vty_can_receive] lets a byte in exactly when the ring is
    not full. *)

From stdpp Require Import base numbers list option.
From S2P Require Import Prelude Wire RingBuffer Registry Hcall Machine Spec Refinement.

Local Open Scope Z_scope.

(** ** The backend *)

(** What [qemu_chr_add_handlers] stores in a backend: the two receive
    functions and the argument they are called with. *)
Record chr_handlers : Type := mkHandlers {
  fd_can_read : option fn_ptr;
  fd_read : option fn_ptr;
  fd_opaque : nat;
}.

(** What the call of lines 66-67 stores, for the terminal at position
    [p]. *)
Definition vty_handlers (p : nat) : chr_handlers :=
  mkHandlers (Some FN_vty_can_receive) (Some FN_vty_receive) p.

(** The backend asks how many bytes it may deliver
    ([qemu_chr_be_can_write]): 0 without a function, else the answer of
    the function on the registered argument.  [vty_can_receive] uses the
    argument as a terminal (line 17). *)
Definition call_can_read (h : chr_handlers) (spapr : sPAPREnvironment) : res Z :=
  match fd_can_read h with
  | None => Ok 0
  | Some FN_vty_can_receive =>
      sdev ← bus_deref (vio_bus spapr) (fd_opaque h);
      dev ← as_vty sdev;
      Ok (vty_can_receive dev)
  | Some _ => Err TypeConfusion
  end.

(** The backend delivers [data] ([qemu_chr_be_write]): a call of the
    registered function on the registered argument, the bytes and their
    number. *)
Definition call_read (h : chr_handlers) (spapr : sPAPREnvironment) (data : list Z)
  : res (sPAPREnvironment * list event) :=
  match fd_read h with
  | None => Err NullDeref
  | Some FN_vty_receive => chr_input spapr (fd_opaque h) data
  | Some _ => Err TypeConfusion
  end.

(** ** The closed system *)

Record io_state : Type := mkIo {
  io_machine : sPAPREnvironment;
  io_input : list Z;      (* what the backend still holds for the terminal *)
  io_irq : bool;          (* the interrupt of the guest is pending *)
  io_received : list Z;   (* what the guest has read so far *)
}.

Section io.
(** What the backend was given at registration, the address the guest
    reads from and the interrupt line it listens to. *)
Context (h : chr_handlers) (reg irq : Z).

(** The terminal the backend was registered with. *)
Definition dev_at (spapr : sPAPREnvironment) : option VIOsPAPRVTYDevice :=
  match vio_bus spapr !! fd_opaque h with Some (VtyDevice dev) => Some dev | _ => None end.

(** The unread bytes of that terminal. *)
Definition unread (spapr : sPAPREnvironment) : list Z :=
  default [] (contents <$> dev_at spapr).

(** The system after a delivery that returned [r]: the interrupt is
    latched when the call pulsed the line of the guest. *)
Definition io_delivered (s : io_state) (rest : list Z)
    (r : sPAPREnvironment * list event) : io_state :=
  mkIo r.1 rest (io_irq s || bool_decide (EvIrqPulse irq ∈ r.2)) (io_received s).

(** The system after a read that returned [r]: the interrupt is
    acknowledged and the guest has the bytes it decodes from the
    registers. *)
Definition io_got (s : io_state) (r : Z * sPAPREnvironment * list Z) : io_state :=
  mkIo r.1.2 (io_input s) false (io_received s ++ guest_bytes (RHcall r.1.1 r.2)).

(** One call of a party, with the result the code gives: the backend
    polls and the poll faults; the backend polls and delivers; the guest
    reads. *)
Inductive io_step : res io_state → res io_state → Prop :=
  | io_poll_fault s e :
      call_can_read h (io_machine s) = Err e →
      io_step (Ok s) (Err e)
  | io_deliver s n data rest :
      call_can_read h (io_machine s) = Ok n →
      io_input s = data ++ rest → data ≠ [] → Z.of_nat (length data) ≤ n →
      io_step (Ok s) (io_delivered s rest <$> call_read h (io_machine s) data)
  | io_read s stack :
      io_irq s = true → length stack = 16%nat →
      io_step (Ok s) (io_got s <$> h_get_term_char (io_machine s) [reg; 0; 0] stack).

(** The backend has nothing left and the guest nothing to do. *)
Definition io_done (s : io_state) : Prop := io_input s = [] ∧ io_irq s = false.

(** The end of the exchange that started in [s]: no fault, the backend
    has nothing left, no interrupt is pending, the ring is empty, and the
    guest has the bytes that were unread and then the input. *)
Definition io_ended (s : io_state) (r : res io_state) : Prop :=
  ∃ s', r = Ok s' ∧ io_input s' = [] ∧ io_irq s' = false ∧ unread (io_machine s') = [] ∧
        io_received s' = io_received s ++ unread (io_machine s) ++ io_input s.

(** ** Invariant and measure *)

(** The backend holds the two receive functions of the terminal; the
    machine is well-formed; the argument of the backend, the address of
    the guest and the line of the guest are those of one terminal; and
    the interrupt is pending exactly when that terminal holds unread
    bytes. *)
Definition io_inv (s : io_state) : Prop :=
  fd_can_read h = Some FN_vty_can_receive ∧ fd_read h = Some FN_vty_receive ∧
  bus_wf (io_machine s) ∧ vty_lookup (io_machine s) reg = Some (fd_opaque h) ∧
  sdev_qirq ∘ dev_sdev <$> dev_at (io_machine s) = Some irq ∧
  Forall is_byte (io_input s) ∧
  io_irq s = bool_decide (unread (io_machine s) ≠ []).

#[export] Instance io_inv_dec s : Decision (io_inv s).
Proof. unfold io_inv. apply _. Defined.

(** The bytes of the system, in the order the guest gets them. *)
Definition io_total (s : io_state) : list Z :=
  io_received s ++ unread (io_machine s) ++ io_input s.

Definition io_measure (s : io_state) : nat :=
  2 * length (io_input s) + length (unread (io_machine s)).

(** The states the system is in while the exchange that started in [s]
    goes on, and how far they are from its end. *)
Definition io_running (s : io_state) (r : res io_state) : Prop :=
  ∃ s', r = Ok s' ∧ io_inv s' ∧ io_total s' = io_total s.

Definition res_measure (r : res io_state) : nat :=
  match r with Ok s => io_measure s | Err _ => 0 end.

(** ** The terminal of the backend *)

Lemma dev_at_Some spapr dev :
  dev_at spapr = Some dev ↔ vio_bus spapr !! fd_opaque h = Some (VtyDevice dev).
Proof. unfold dev_at. destruct (vio_bus spapr !! _) as [[d | ?] |]; naive_solver. Qed.

Lemma unread_dev spapr dev : dev_at spapr = Some dev → unread spapr = contents dev.
Proof. unfold unread. by intros ->. Qed.

Lemma dev_at_insert spapr dev dev' :
  dev_at spapr = Some dev →
  dev_at (mkSpapr (<[fd_opaque h := VtyDevice dev']> (vio_bus spapr))) = Some dev'.
Proof.
  intros Hdev%dev_at_Some. apply dev_at_Some. simpl.
  apply list_lookup_insert_eq. by eapply lookup_lt_Some.
Qed.

Lemma dev_at_qirq spapr dev :
  dev_sdev <$> dev_at spapr = Some (dev_sdev dev) → sdev_qirq (dev_sdev dev) = irq →
  sdev_qirq ∘ dev_sdev <$> dev_at spapr = Some irq.
Proof.
  destruct (dev_at spapr) as [d |]; [| done]. intros [= Hs] <-.
  unfold compose. simpl. by rewrite Hs.
Qed.

Lemma io_inv_dev s :
  io_inv s →
  ∃ dev, dev_at (io_machine s) = Some dev ∧ vty_wf dev ∧ sdev_qirq (dev_sdev dev) = irq.
Proof.
  intros (_ & _ & Hwf & _ & Hirq & _).
  destruct (dev_at (io_machine s)) as [dev |] eqn:Hdev; [| done].
  exists dev. split_and!; [done | | by injection Hirq].
  by eapply bus_wf_lookup, dev_at_Some.
Qed.

(** ** The calls, on a state of the invariant *)

(** A delivery appends to the unread bytes, and pulses the line of the
    terminal when there were none. *)
Lemma step_input_appends spapr data evs spapr' dev :
  step spapr (ChrInput (fd_opaque h) data, RInput, evs) spapr' → bus_wf spapr →
  dev_at spapr = Some dev →
  unread spapr' = contents dev ++ data ∧ dev_sdev <$> dev_at spapr' = Some (dev_sdev dev) ∧
  (contents dev = [] → data ≠ [] → evs = [EvIrqPulse (sdev_qirq (dev_sdev dev))]).
Proof.
  inversion 1 as [? ? d ? d' ? Hdata Hp Hrun | |]; subst. intros Hwf Hdev.
  pose proof (proj1 (dev_at_Some _ _) Hdev) as Hdev'. rewrite Hp in Hdev'.
  injection Hdev' as ->.
  apply vty_receive_Ok_inv in Hrun as (_ & -> & _ & Hc & _ & _ & Hs & _);
    [| by eapply bus_wf_lookup | done | lia].
  rewrite Nat2Z.id, firstn_all in Hc.
  pose proof (dev_at_insert spapr dev d' Hdev) as Hd'.
  rewrite (unread_dev _ d' Hd'), Hd'. simpl. split_and!; [done | by rewrite Hs |].
  intros Hempty Hne. unfold receive_irq. rewrite bool_decide_true; [done |].
  split; [done |]. destruct data; [done | simpl; lia].
Qed.

(** A read of the terminal takes all its unread bytes. *)
Lemma step_read_drains spapr stack r evs spapr' dev :
  step spapr (HGetTermChar [reg; 0; 0] stack, r, evs) spapr' → bus_wf spapr →
  vty_lookup spapr reg = Some (fd_opaque h) → dev_at spapr = Some dev →
  unread spapr' = [] ∧ dev_sdev <$> dev_at spapr' = Some (dev_sdev dev) ∧
  guest_bytes r = contents dev.
Proof.
  inversion 1 as [| | ? ? ? ? ? ? Hok Hrun]; subst. intros Hwf Hreg Hdev.
  pose proof (bus_wf_lookup _ _ _ Hwf (proj1 (dev_at_Some _ _) Hdev)) as Hd.
  rewrite (h_get_term_char_ok spapr _ stack reg (fd_opaque h) dev) in Hrun
    by (done || apply Hok || by apply dev_at_Some).
  injection Hrun as <- <- <-.
  destruct (vty_consume_read_count dev Hd) as [_ Hc].
  pose proof (dev_at_insert spapr dev (vty_consume dev (Z.of_nat (read_count dev))) Hdev)
    as Hd'.
  set (dev' := vty_consume dev _) in *.
  rewrite read_count_length, drop_all in Hc by done.
  rewrite (unread_dev _ _ Hd'), Hd'. split_and!; [done | done |].
  rewrite guest_bytes_read_args by (done || simpl; lia).
  by rewrite read_count_length, firstn_all.
Qed.

(** A step keeps the address of the terminal. *)
Lemma step_lookup spapr l spapr' :
  step spapr l spapr' → bus_wf spapr →
  bus_wf spapr' ∧ vty_lookup spapr' reg = vty_lookup spapr reg.
Proof.
  intros Hstep Hwf. destruct (step_inv _ _ _ Hstep Hwf) as [Hwf' Hs].
  split; [done |]. by apply vty_lookup_static.
Qed.

(** The poll of the backend returns the answer of [vty_can_receive]. *)
Lemma call_can_read_ok s dev :
  io_inv s → dev_at (io_machine s) = Some dev →
  call_can_read h (io_machine s) = Ok (vty_can_receive dev).
Proof.
  intros (Hcan & _) Hdev%dev_at_Some. unfold call_can_read.
  by rewrite Hcan, (bus_deref_Ok _ _ _ Hdev).
Qed.

(** A delivery of no more than [vty_can_receive] allowed returns, and is
    a step of the machine. *)
Lemma call_read_ok s dev data :
  io_inv s → dev_at (io_machine s) = Some dev → Forall is_byte data →
  Z.of_nat (length data) ≤ vty_can_receive dev →
  ∃ r, call_read h (io_machine s) data = Ok r ∧
       step (io_machine s) (ChrInput (fd_opaque h) data, RInput, r.2) r.1.
Proof.
  intros (_ & Hread & Hwf & _) Hdev%dev_at_Some Hdata Hlen.
  destruct (step_progress (io_machine s) (ChrInput (fd_opaque h) data))
    as (r & evs & spapr' & Hstep); [done | done | by simpl; rewrite Hdev |].
  pose proof (proj1 (step_machine_step _ _ _ _ _) Hstep) as [_ Hrun]. simpl in Hrun.
  apply res_bind_Ok in Hrun as ([s1 evs1] & Hchr & [= <- <- <-]).
  exists (s1, evs1). unfold call_read. by rewrite Hread.
Qed.

(** The read of the guest returns, and is a step of the machine. *)
Lemma h_get_term_char_step s stack :
  io_inv s → length stack = 16%nat →
  ∃ r, h_get_term_char (io_machine s) [reg; 0; 0] stack = Ok r ∧
       step (io_machine s) (HGetTermChar [reg; 0; 0] stack, RHcall r.1.1 r.2, []) r.1.2.
Proof.
  intros Hinv Hstack. destruct (io_inv_dev s Hinv) as (dev & Hdev%dev_at_Some & Hd & _).
  destruct Hinv as (_ & _ & _ & Hreg & _). eexists. split.
  - by apply (h_get_term_char_ok _ _ _ reg (fd_opaque h) dev).
  - apply step_get_term_char; [by split |].
    by apply (h_get_term_char_ok _ _ _ reg (fd_opaque h) dev).
Qed.

(** ** Steps of the system *)

(** A delivery keeps the invariant and the bytes of the system, and
    lowers the measure. *)
Lemma io_delivered_inv s data rest r :
  io_inv s → io_input s = data ++ rest → data ≠ [] →
  step (io_machine s) (ChrInput (fd_opaque h) data, RInput, r.2) r.1 →
  io_inv (io_delivered s rest r) ∧ io_total (io_delivered s rest r) = io_total s ∧
  (io_measure (io_delivered s rest r) < io_measure s)%nat.
Proof.
  intros Hinv Hinput Hdata Hstep. destruct (io_inv_dev s Hinv) as (dev & Hdev & _ & Hq).
  destruct Hinv as (Hcan & Hread & Hwf & Hreg & _ & Hin & Hirq).
  destruct (step_lookup _ _ _ Hstep Hwf) as [Hwf' Hreg'].
  destruct (step_input_appends _ _ _ _ dev Hstep Hwf Hdev) as (Hu & Hd' & Hpulse).
  unfold io_inv, io_total, io_measure. cbn [io_delivered io_machine io_input io_irq io_received].
  rewrite Hu, (unread_dev _ dev Hdev) in *. rewrite Hinput in *.
  apply Forall_app in Hin as [_ Hrest]. rewrite !length_app.
  split_and!; [done | done | done | congruence | | done | | by rewrite <-app_assoc |].
  - by apply (dev_at_qirq _ dev).
  - rewrite (bool_decide_true (_ ≠ [])) by (by destruct (contents dev), data).
    destruct (contents dev) as [| b bs]; [| by rewrite Hirq].
    rewrite Hpulse, Hq by done. rewrite bool_decide_true by constructor.
    by destruct (io_irq s).
  - destruct data; [done | simpl; lia].
Qed.

(** A read on interrupt keeps the invariant and the bytes of the system,
    and lowers the measure. *)
Lemma io_got_inv s stack r :
  io_inv s → io_irq s = true →
  step (io_machine s) (HGetTermChar [reg; 0; 0] stack, RHcall r.1.1 r.2, []) r.1.2 →
  io_inv (io_got s r) ∧ io_total (io_got s r) = io_total s ∧
  (io_measure (io_got s r) < io_measure s)%nat.
Proof.
  intros Hinv Hpending Hstep. destruct (io_inv_dev s Hinv) as (dev & Hdev & _ & Hq).
  destruct Hinv as (Hcan & Hread & Hwf & Hreg & _ & Hin & Hirq).
  destruct (step_lookup _ _ _ Hstep Hwf) as [Hwf' Hreg'].
  destruct (step_read_drains _ _ _ _ _ dev Hstep Hwf Hreg Hdev) as (Hu & Hd' & Hr).
  unfold io_inv, io_total, io_measure. cbn [io_got io_machine io_input io_irq io_received].
  rewrite Hu, Hr, (unread_dev _ dev Hdev) in *.
  split_and!; [done | done | done | congruence | | done | done | by rewrite <-app_assoc |].
  - by apply (dev_at_qirq _ dev).
  - rewrite Hpending in Hirq. symmetry in Hirq. apply bool_decide_eq_true in Hirq.
    destruct (contents dev); [done | simpl; lia].
Qed.

(** No step from a state of the invariant faults; every step keeps the
    invariant and the bytes of the system, and lowers the measure. *)
Lemma io_step_inv s r :
  io_inv s → io_step (Ok s) r →
  ∃ s', r = Ok s' ∧ io_inv s' ∧ io_total s' = io_total s ∧
        (io_measure s' < io_measure s)%nat.
Proof.
  intros Hinv Hstep. destruct (io_inv_dev s Hinv) as (dev & Hdev & _).
  inversion Hstep as [s0 e Hpoll | s0 n data rest Hpoll Hinput Hdata Hlen |
                      s0 stack Hpending Hstack]; subst s0;
    try rewrite (call_can_read_ok s dev Hinv Hdev) in Hpoll; [done | |].
  - injection Hpoll as <-. pose proof Hinv as (_ & _ & _ & _ & _ & Hin & _).
    rewrite Hinput in Hin. apply Forall_app in Hin as [Hbytes _].
    destruct (call_read_ok s dev data) as (r' & -> & Hstep'); [done .. |].
    eexists. split; [done |]. by apply (io_delivered_inv s data).
  - destruct (h_get_term_char_step s stack) as (r' & -> & Hstep'); [done .. |].
    eexists. split; [done |]. by eapply io_got_inv.
Qed.

(** With no interrupt pending the ring is empty. *)
Lemma io_inv_idle s :
  io_inv s → io_irq s = false → unread (io_machine s) = [].
Proof.
  intros (_ & _ & _ & _ & _ & _ & Hirq) Hidle. rewrite Hidle in Hirq.
  symmetry in Hirq. apply bool_decide_eq_false in Hirq.
  destruct (unread _); [done | by destruct Hirq].
Qed.

(** A state that is not done has a step: the guest reads when the
    interrupt is pending; otherwise the ring is empty and the backend can
    deliver a byte. *)
Lemma io_progress s : io_inv s → io_done s ∨ ∃ r, io_step (Ok s) r.
Proof.
  intros Hinv. destruct (io_inv_dev s Hinv) as (dev & Hdev & Hd & _).
  destruct (io_irq s) eqn:Hpending.
  - right. eexists. by apply (io_read s (replicate 16 0)).
  - destruct (io_input s) as [| b rest] eqn:Hinput; [by left | right].
    pose proof (io_inv_idle s Hinv Hpending) as Hempty.
    rewrite (unread_dev _ dev Hdev) in Hempty.
    assert (Hu : used dev = 0).
    { pose proof (used_range dev). pose proof (length_contents dev) as Hlen.
      rewrite Hempty in Hlen. simpl in Hlen. lia. }
    eexists. apply (io_deliver s 1 [b] rest); [| done | done | simpl; lia].
    rewrite (call_can_read_ok s dev) by done.
    unfold vty_can_receive. fold (used dev). by rewrite Hu.
Qed.

(** The end of every interleaving. *)
Lemma io_live_eq s : io_inv s → eventually io_step (io_ended s) (Ok s).
Proof.
  intros Hinv.
  apply (eventually_weaken _
           (λ r, ∃ s', r = Ok s' ∧ io_done s' ∧ io_inv s' ∧ io_total s' = io_total s)).
  - intros r (s' & -> & [Hin Hirq] & Hinv' & Htotal). exists s'.
    pose proof (io_inv_idle s' Hinv' Hirq) as Hu.
    unfold io_total in Htotal at 1. by rewrite Hu, Hin, !app_nil_r in Htotal.
  - apply (eventually_measure _ (io_running s) res_measure); [| by exists s].
    intros r (s' & -> & Hinv' & Htotal).
    destruct (io_progress s' Hinv') as [Hdone | Hex]; [left; by exists s' |].
    right. split; [done |]. intros r Hstep.
    destruct (io_step_inv _ _ Hinv' Hstep) as (s'' & -> & ? & ? & ?).
    split; [exists s''; split_and!; [done | done | congruence] | done].
Qed.

(** C6: Delivery is inevitable: from a state where the backend holds the
    two receive functions of the terminal with that terminal as their
    argument, and the interrupt is pending exactly when the terminal
    holds unread bytes, every interleaving of a backend that delivers
    what the poll allows and a guest that reads on interrupt is finite,
    and none of its calls faults: it ends with the input of the backend
    handed over, no interrupt pending, the ring empty, and the guest
    having received the bytes that were unread followed by the whole
    input, in order. *)
Theorem io_live s : io_inv s → eventually io_step (io_ended s) (Ok s).
Proof. apply io_live_eq. Qed.
End io.

(** ** Witness *)

(** The backend of a fresh terminal at address 2 holds three bytes. *)
Definition io_example : io_state := mkIo (mkSpapr [vty_at 2]) [1; 2; 3] false [].

Lemma io_live_witness :
  eventually (io_step (vty_handlers 0) 2 2) (io_ended (vty_handlers 0) io_example)
             (Ok io_example).
Proof. apply (io_live (vty_handlers 0) 2 2 io_example). by_compute. Defined.

(** A delivery the poll did not allow: with a backend that hands over
    two bytes when the ring holds 15, the assertion of [vty_receive]
    stops the program. *)
Example call_read_overflow :
  call_read (vty_handlers 0)
            (mkSpapr [VtyDevice (mkVTY (mkVIO 2 2) (Some 2) 15 0 (replicate 16 0))]) [1; 2]
  = Err AssertFail.
Proof. by vm_compute. Qed.
