(* ===== verification/Qom.v ===== *)
(** * Qom: the type of the terminal, its class and the hypercall table

    Models lines 135-158 and 212-219 of [src/hw/spapr_vty.c]: the property
    table [spapr_vty_properties], the class initialiser
    [spapr_vty_class_init], the type description [spapr_vty_info], and
    [spapr_vty_register_types], which the module constructor [type_init]
    runs at start-up to register the two hypercalls and the type.

    A function pointer is the name of the function ([fn_ptr] of
    [Prelude]).  The object model and the hypercall layer are code of
    other files and are modelled from their contracts: the table of types
    is a finite map from names, and [spapr_register_hypercall] fills a
    table indexed by opcode and asserts that a slot is not given two
    different handlers.  The tables the program starts from are a
    parameter: line 219 only queues [spapr_vty_register_types] among the
    constructors of the program, and what the other constructors have
    registered by the time it runs is not determined by this file.  The
    second hypercall table (KVM-specific opcodes) and the dispatcher
    [spapr_hypercall] are left out: the terminal registers nothing in the
    one and the other is code of hw/spapr_hcall.c.

    The theorems show what registration leaves in the tables and when it
    aborts. *)

From stdpp Require Import base numbers list option strings gmap.
From S2P Require Import Prelude.

Local Open Scope Z_scope.

(** ** Data *)

(** An entry of a property table, by the macro that builds it. *)
Inductive Property : Type :=
  | DEFINE_SPAPR_PROPERTIES (type field : string) (vec : Z)
  | DEFINE_PROP_CHR (name type field : string)
  | DEFINE_PROP_END_OF_LIST.

#[export] Instance Property_eq_dec : EqDecision Property.
Proof. solve_decision. Defined.

(** [spapr_vty_properties] (lines 135-139). *)
Definition spapr_vty_properties : list Property :=
  [DEFINE_SPAPR_PROPERTIES "VIOsPAPRVTYDevice" "sdev" 0;
   DEFINE_PROP_CHR "chardev" "VIOsPAPRVTYDevice" "chardev";
   DEFINE_PROP_END_OF_LIST].

(** The class of a VIO device, seen as [DeviceClass] ([props]) and as
    [VIOsPAPRDeviceClass] (the other fields). [devnode] is a field the
    terminal leaves as it finds it. *)
Record VIOsPAPRDeviceClass : Type := mkClass {
  dc_props : list Property;
  k_init : option fn_ptr;
  k_dt_name : string;
  k_dt_type : string;
  k_dt_compatible : string;
  k_devnode : option fn_ptr;
}.

(** [TypeInfo]. [instance_size] is [sizeof] of the named struct. *)
Record TypeInfo : Type := mkTypeInfo {
  ti_name : string;
  ti_parent : string;
  ti_instance_size : string;
  ti_class_init : option fn_ptr;
}.

#[export] Instance TypeInfo_eq_dec : EqDecision TypeInfo.
Proof. solve_decision. Defined.

(** [TYPE_VIO_SPAPR_DEVICE] (hw/spapr_vio.h). *)
Definition TYPE_VIO_SPAPR_DEVICE : string := "vio-spapr-device".

(** Hypercall numbers (hw/spapr.h). *)
Definition H_GET_TERM_CHAR : Z := 0x54.
Definition H_PUT_TERM_CHAR : Z := 0x58.
Definition MAX_HCALL_OPCODE : Z := 0x2D4.

(** The tables of the object model and of the hypercall layer. *)
Record ObjectModel : Type := mkQom {
  qom_types : gmap string TypeInfo;
  papr_hypercall_table : gmap Z fn_ptr;
}.

Definition qom_empty : ObjectModel := mkQom ∅ ∅.

(** ** Operations *)

(** [spapr_vty_class_init] (lines 141-151). *)
Definition spapr_vty_class_init (klass : VIOsPAPRDeviceClass) : VIOsPAPRDeviceClass :=
  mkClass spapr_vty_properties (Some FN_spapr_vty_init) "vty" "serial" "hvterm1"
          (k_devnode klass).

(** [spapr_vty_info] (lines 153-158). *)
Definition spapr_vty_info : TypeInfo :=
  mkTypeInfo "spapr-vty" TYPE_VIO_SPAPR_DEVICE "VIOsPAPRVTYDevice"
             (Some FN_spapr_vty_class_init).

(** [type_register_static] (qom/object.c). *)
Definition type_register_static (info : TypeInfo) (qom : ObjectModel) : ObjectModel :=
  mkQom (<[ti_name info := info]> (qom_types qom)) (papr_hypercall_table qom).

(** [spapr_register_hypercall] (hw/spapr_hcall.c): the opcode is a
    multiple of 4 up to [MAX_HCALL_OPCODE], and the slot is empty or
    holds the same handler. *)
Definition spapr_register_hypercall (opcode : Z) (fn : fn_ptr) (qom : ObjectModel)
  : res ObjectModel :=
  if decide (0 ≤ opcode ≤ MAX_HCALL_OPCODE ∧ Z.land opcode 3 = 0) then
    match papr_hypercall_table qom !! opcode with
    | Some fn' =>
        if decide (fn' = fn) then Ok qom else Err AssertFail
    | None => Ok (mkQom (qom_types qom) (<[opcode := fn]> (papr_hypercall_table qom)))
    end
  else Err AssertFail.

(** [spapr_vty_register_types] (lines 212-217). *)
Definition spapr_vty_register_types (qom : ObjectModel) : res ObjectModel :=
  qom ← spapr_register_hypercall H_PUT_TERM_CHAR FN_h_put_term_char qom;
  qom ← spapr_register_hypercall H_GET_TERM_CHAR FN_h_get_term_char qom;
  Ok (type_register_static spapr_vty_info qom).

(** [type_init(spapr_vty_register_types)] (line 219): the functions the
    module constructor queues for start-up. *)
Definition type_init : list fn_ptr := [FN_spapr_vty_register_types].

(** The class of a registered type: the class of the parent, passed
    through the [class_init] of the type. *)
Definition class_of (qom : ObjectModel) (name : string) (parent : VIOsPAPRDeviceClass)
  : option VIOsPAPRDeviceClass :=
  info ← qom_types qom !! name;
  match ti_class_init info with
  | Some FN_spapr_vty_class_init => Some (spapr_vty_class_init parent)
  | _ => Some parent
  end.

(** ** Specification *)

(** The terminal is registered: its type is in the table of types and
    its two handlers are in the table of hypercalls. *)
Definition vty_registered (qom : ObjectModel) : Prop :=
  qom_types qom !! "spapr-vty" = Some spapr_vty_info ∧
  papr_hypercall_table qom !! H_PUT_TERM_CHAR = Some FN_h_put_term_char ∧
  papr_hypercall_table qom !! H_GET_TERM_CHAR = Some FN_h_get_term_char.

(** A slot of the hypercall table that [fn] can be registered in. *)
Definition slot_free (qom : ObjectModel) (opcode : Z) (fn : fn_ptr) : Prop :=
  papr_hypercall_table qom !! opcode = None ∨
  papr_hypercall_table qom !! opcode = Some fn.

#[export] Instance slot_free_dec qom opcode fn : Decision (slot_free qom opcode fn).
Proof. unfold slot_free. apply _. Defined.

(** The tables after the terminal has registered. *)
Definition registered_in (qom : ObjectModel) : ObjectModel :=
  mkQom (<["spapr-vty" := spapr_vty_info]> (qom_types qom))
        (<[H_GET_TERM_CHAR := FN_h_get_term_char]>
           (<[H_PUT_TERM_CHAR := FN_h_put_term_char]> (papr_hypercall_table qom))).

(** ** Registration *)

Lemma spapr_register_hypercall_eq opcode fn qom :
  0 ≤ opcode ≤ MAX_HCALL_OPCODE → Z.land opcode 3 = 0 →
  spapr_register_hypercall opcode fn qom
  = if decide (slot_free qom opcode fn)
    then Ok (mkQom (qom_types qom) (<[opcode := fn]> (papr_hypercall_table qom)))
    else Err AssertFail.
Proof.
  intros Hop Hal. unfold spapr_register_hypercall.
  rewrite decide_True by done.
  destruct (papr_hypercall_table qom !! opcode) as [fn' |] eqn:Hslot.
  - destruct (decide (fn' = fn)) as [-> | Hne].
    + rewrite decide_True by (by right). destruct qom as [types table]. simpl in *.
      by rewrite insert_id.
    + rewrite decide_False; [done |]. unfold slot_free. rewrite Hslot.
      intros [? | [= ?]]; done.
  - by rewrite decide_True by (by left).
Qed.

Lemma slot_free_insert_ne qom opcode fn opcode' fn' :
  opcode ≠ opcode' →
  slot_free (mkQom (qom_types qom) (<[opcode := fn]> (papr_hypercall_table qom))) opcode' fn'
  ↔ slot_free qom opcode' fn'.
Proof. intros Hne. unfold slot_free. simpl. by rewrite lookup_insert_ne. Qed.

Lemma spapr_vty_register_types_eq qom :
  spapr_vty_register_types qom
  = if decide (slot_free qom H_PUT_TERM_CHAR FN_h_put_term_char ∧
               slot_free qom H_GET_TERM_CHAR FN_h_get_term_char)
    then Ok (registered_in qom) else Err AssertFail.
Proof.
  unfold spapr_vty_register_types.
  rewrite (spapr_register_hypercall_eq H_PUT_TERM_CHAR) by done.
  destruct (decide (slot_free qom H_PUT_TERM_CHAR _)) as [Hput | Hput]; simpl;
    [| rewrite decide_False; [done | tauto]].
  rewrite (spapr_register_hypercall_eq H_GET_TERM_CHAR) by done.
  rewrite (decide_ext _ (slot_free qom H_GET_TERM_CHAR FN_h_get_term_char))
    by (by apply slot_free_insert_ne).
  destruct (decide (slot_free qom H_GET_TERM_CHAR _)) as [Hget | Hget]; simpl;
    [by rewrite decide_True | rewrite decide_False; [done | tauto]].
Qed.

Lemma registered_in_registered qom : vty_registered (registered_in qom).
Proof.
  unfold vty_registered, registered_in. simpl. split_and!.
  - apply lookup_insert_eq.
  - rewrite lookup_insert_ne by done. apply lookup_insert_eq.
  - apply lookup_insert_eq.
Qed.

Lemma spapr_vty_register_types_registered qom qom' :
  spapr_vty_register_types qom = Ok qom' → vty_registered qom'.
Proof.
  rewrite spapr_vty_register_types_eq. case_decide; [| done].
  intros [= <-]. apply registered_in_registered.
Qed.

(** ** Theorems *)

(** C24: Registration at start-up: [spapr_vty_register_types] returns
    exactly when each of the two opcodes is free or already bound to the
    handler of the terminal, and then the tables hold the type
    ["spapr-vty"] with its description, opcode 0x58 bound to
    [h_put_term_char] and opcode 0x54 bound to [h_get_term_char], every
    other entry as before; when a slot holds another handler the
    assertion of the hypercall layer aborts. *)
Theorem spapr_vty_register_types_spec qom :
  spapr_vty_register_types qom
  = if decide (slot_free qom H_PUT_TERM_CHAR FN_h_put_term_char ∧
               slot_free qom H_GET_TERM_CHAR FN_h_get_term_char)
    then Ok (mkQom (<["spapr-vty" := spapr_vty_info]> (qom_types qom))
               (<[0x54 := FN_h_get_term_char]>
                  (<[0x58 := FN_h_put_term_char]> (papr_hypercall_table qom))))
    else Err AssertFail.
Proof. apply spapr_vty_register_types_eq. Qed.

(** ** Examples *)

(** Registration on empty tables, and on tables where opcode 0x58 was
    taken by another handler. *)
Example spapr_vty_register_types_fresh :
  spapr_vty_register_types qom_empty = Ok (registered_in qom_empty).
Proof. by rewrite spapr_vty_register_types_eq, decide_True by by_compute. Qed.

Example spapr_vty_register_types_clash :
  spapr_vty_register_types (mkQom ∅ {[H_PUT_TERM_CHAR := FN_extern 0]}) = Err AssertFail.
Proof. by vm_compute. Qed.
