(* ===== verification/Lifecycle.v ===== *)
(** * Lifecycle: creation of the terminals and the machines it builds

    Models lines 126-133 of [src/hw/spapr_vty.c], [spapr_vty_create]: the
    board code calls it once for each serial backend, before the guest
    runs.  The three functions of the object model it calls belong to
    other files and are modelled from their contracts, on the tables of
    [Qom]: [qdev_create] stops with [hw_error] when the type is not
    registered, and otherwise allocates a zeroed object of the type and
    puts it at the head of the children of the bus; [qdev_prop_set_chr]
    stores the backend in the field the property table of the class names
    for ["chardev"]; [qdev_init_nofail] runs the [init] function of the
    class, which [spapr_vty_class_init] sets to [spapr_vty_init], and
    exits when it fails.  [boot] is the start-up: the module constructor
    registers the type in the tables it finds, then the board creates the
    terminals.  The [reg] and the interrupt line, which the bus code
    assigns, are a parameter.

    A pointer is an index in the list of children, so the terminal being
    created is at index 0 and the terminals created before move one place
    up.

    The theorems give the bus [create_all] builds in closed form, and show
    that on a machine built this way the contract of the guest holds by
    construction: every child of the bus is a terminal with a backend, in
    every state the machine reaches, so no hypercall can abort. *)

From stdpp Require Import base numbers list option strings gmap.
From S2P Require Import Prelude Wire RingBuffer Registry Hcall Machine Qom.

Local Open Scope Z_scope.

(** ** The object model, from its contract *)

(** The class a type starts from before its [class_init] runs. *)
Definition class_zero : VIOsPAPRDeviceClass := mkClass [] None "" "" "" None.

(** The class of an object. *)
Definition class_of_object (qom : ObjectModel) (q : DeviceState)
  : option VIOsPAPRDeviceClass :=
  match q with
  | VtyDevice _ => class_of qom "spapr-vty" class_zero
  | OtherDevice _ => None
  end.

(** [qdev_create(&bus->bus, name)]: [hw_error] when the type is not
    registered; otherwise a zeroed object of the type, first child of the
    bus. The result is the new bus and the pointer to the object. *)
Definition qdev_create (qom : ObjectModel) (bus : VIOsPAPRBus) (name : string)
    (sdev : VIOsPAPRDevice) : res (VIOsPAPRBus * nat) :=
  match qom_types qom !! name with
  | None => Err HwError
  | Some _ =>
      Ok ((if decide (name = "spapr-vty") then VtyDevice (vty_zeroed sdev None)
           else OtherDevice sdev) :: bus, 0%nat)
  end.

(** [qdev_prop_set_chr(dev, name, chardev)]: the class must have a
    character-device property of that name, which says where the value
    goes. *)
Definition qdev_prop_set_chr (qom : ObjectModel) (bus : VIOsPAPRBus) (dev : nat)
    (name : string) (chardev : option Z) : res VIOsPAPRBus :=
  q ← bus_deref bus dev;
  match class_of_object qom q with
  | None => Err AssertFail
  | Some klass =>
      if decide (DEFINE_PROP_CHR name "VIOsPAPRVTYDevice" "chardev" ∈ dc_props klass) then
        d ← as_vty q;
        Ok (<[dev := VtyDevice (mkVTY (dev_sdev d) chardev (dev_in d) (dev_out d)
                                        (dev_buf d))]> bus)
      else Err AssertFail
  end.

(** A call through the [init] pointer of a class. *)
Definition call_init_fn (fn : fn_ptr) (q : DeviceState) (dev : nat) : res (Z * list event) :=
  match fn with
  | FN_spapr_vty_init => spapr_vty_init q dev
  | _ => Err TypeConfusion
  end.

(** [qdev_init_nofail(dev)]: the [init] of the class, and [exit(1)] when
    it does not return 0. *)
Definition qdev_init_nofail (qom : ObjectModel) (bus : VIOsPAPRBus) (dev : nat)
  : res (list event) :=
  q ← bus_deref bus dev;
  match class_of_object qom q ≫= k_init with
  | None => Err NullDeref
  | Some fn =>
      r ← call_init_fn fn q dev;
      if r.1 =? 0 then Ok r.2 else Err (Exit 1)
  end.

(** ** Operations *)

(** [spapr_vty_create] (lines 126-133). *)
Definition spapr_vty_create (qom : ObjectModel) (bus : VIOsPAPRBus)
    (sdev : VIOsPAPRDevice) (chardev : option Z) : res (VIOsPAPRBus * list event) :=
  r ← qdev_create qom bus "spapr-vty" sdev;
  bus ← qdev_prop_set_chr qom r.1 r.2 "chardev" chardev;
  evs ← qdev_init_nofail qom bus r.2;
  Ok (bus, evs).

(** The board creates one terminal for each configured backend, in
    order. *)
Fixpoint create_all (qom : ObjectModel) (bus : VIOsPAPRBus)
    (cfg : list (VIOsPAPRDevice * option Z)) : res (VIOsPAPRBus * list event) :=
  match cfg with
  | [] => Ok (bus, [])
  | c :: cfg =>
      r ← spapr_vty_create qom bus c.1 c.2;
      r' ← create_all qom r.1 cfg;
      Ok (r'.1, r.2 ++ r'.2)
  end.

(** Start-up: the module constructor registers the type and the
    hypercalls in the tables [qom0] it finds, then the board creates the
    terminals on an empty bus. *)
Definition boot (qom0 : ObjectModel) (cfg : list (VIOsPAPRDevice * option Z))
  : res (ObjectModel * VIOsPAPRBus * list event) :=
  qom ← spapr_vty_register_types qom0;
  r ← create_all qom [] cfg;
  Ok (qom, r.1, r.2).

(** ** Specification *)

(** The terminal a configuration entry becomes. *)
Definition terminal_of (c : VIOsPAPRDevice * option Z) : DeviceState :=
  VtyDevice (vty_zeroed c.1 c.2).

(** The registration a configuration entry causes: the two receive
    functions of the terminal, no event function, and the new device,
    which is the first child of the bus at that time. *)
Definition registration_of (c : VIOsPAPRDevice * option Z) : list event :=
  match c.2 with
  | Some chr =>
      [EvChrAddHandlers chr (Some FN_vty_can_receive) (Some FN_vty_receive) None 0]
  | None => []
  end.

(** The static part of a terminal with a backend. *)
Definition static_ready (st : bool * VIOsPAPRDevice * option Z) : Prop :=
  st.1.1 = true ∧ is_Some st.2.

(** Every child of the bus is a terminal with a backend. *)
Definition all_terminals (bus : VIOsPAPRBus) : Prop :=
  Forall static_ready (static_of <$> bus).

#[export] Instance all_terminals_dec bus : Decision (all_terminals bus).
Proof. unfold all_terminals, static_ready. apply _. Defined.

(** ** Creation *)

Lemma spapr_vty_create_unregistered qom bus sdev chardev :
  qom_types qom !! "spapr-vty" = None →
  spapr_vty_create qom bus sdev chardev = Err HwError.
Proof. intros Hnone. unfold spapr_vty_create, qdev_create. by rewrite Hnone. Qed.

Section registered.
Context (qom : ObjectModel) (Hreg : vty_registered qom).

Lemma class_of_vty :
  class_of qom "spapr-vty" class_zero = Some (spapr_vty_class_init class_zero).
Proof. destruct Hreg as (Htype & _). unfold class_of. by rewrite Htype. Qed.

Lemma qdev_prop_set_chr_vty bus d chardev :
  qdev_prop_set_chr qom (VtyDevice d :: bus) 0 "chardev" chardev
  = Ok (VtyDevice (mkVTY (dev_sdev d) chardev (dev_in d) (dev_out d) (dev_buf d)) :: bus).
Proof.
  unfold qdev_prop_set_chr, bus_deref. cbn [lookup list_lookup mbind res_bind class_of_object].
  rewrite class_of_vty. by rewrite decide_True by (by_compute).
Qed.

Lemma qdev_init_nofail_vty bus d :
  qdev_init_nofail qom (VtyDevice d :: bus) 0
  = r ← spapr_vty_init (VtyDevice d) 0; if r.1 =? 0 then Ok r.2 else Err (Exit 1).
Proof.
  unfold qdev_init_nofail, bus_deref. cbn [lookup list_lookup mbind res_bind class_of_object].
  by rewrite class_of_vty.
Qed.

Lemma spapr_vty_create_eq bus sdev chardev :
  spapr_vty_create qom bus sdev chardev
  = match chardev with
    | Some chr =>
        Ok (VtyDevice (vty_zeroed sdev chardev) :: bus, registration_of (sdev, chardev))
    | None => Err (Exit 1)
    end.
Proof.
  unfold spapr_vty_create, qdev_create. rewrite (proj1 Hreg).
  cbn [mbind res_bind fst snd]. rewrite decide_True by done.
  rewrite qdev_prop_set_chr_vty. cbn [mbind res_bind].
  rewrite qdev_init_nofail_vty. by destruct chardev.
Qed.

Lemma terminal_of_ready c :
  is_Some c.2 → dev_ok (terminal_of c) ∧ static_ready (static_of (terminal_of c)).
Proof. intros Hc. split; [apply vty_zeroed_wf | done]. Qed.

(** The bus a sequence of creations builds, in closed form: the
    terminals in the reverse of the order of creation, before the
    children the bus had; or [exit(1)] when an entry has no backend. *)
Lemma create_all_eq bus cfg :
  create_all qom bus cfg
  = if bool_decide (Forall (λ c, is_Some c.2) cfg)
    then Ok (reverse (terminal_of <$> cfg) ++ bus, cfg ≫= registration_of)
    else Err (Exit 1).
Proof.
  revert bus. induction cfg as [| [sdev chardev] cfg IH]; intros bus; [done |].
  cbn [create_all fst snd]. rewrite spapr_vty_create_eq.
  destruct chardev as [chr |]; cbn [mbind res_bind fst snd].
  - rewrite IH, fmap_cons, reverse_cons, <-app_assoc, bind_cons.
    rewrite (bool_decide_ext (Forall _ (_ :: _)) (Forall (λ c, is_Some c.2) cfg))
      by (split; [by intros [_ ?]%Forall_cons_1 | by apply Forall_cons_2]).
    by case_bool_decide.
  - rewrite bool_decide_false; [done |]. intros [[? [=]] _]%Forall_cons_1.
Qed.

Lemma create_all_ready cfg bus evs :
  create_all qom [] cfg = Ok (bus, evs) → bus_wf (mkSpapr bus) ∧ all_terminals bus.
Proof.
  rewrite create_all_eq. case_bool_decide as Hcfg; [| done]. intros [= <- _].
  rewrite app_nil_r. unfold bus_wf, all_terminals. cbn [vio_bus].
  split; [| apply Forall_fmap]; apply Forall_reverse, Forall_fmap;
    (eapply List.Forall_impl; [| exact Hcfg]); intros c Hc; by apply terminal_of_ready.
Qed.
End registered.

(** A start-up that returns left the terminal registered and built the
    bus with the registered type. *)
Lemma boot_Ok qom0 cfg qom bus evs :
  boot qom0 cfg = Ok (qom, bus, evs) →
  vty_registered qom ∧ create_all qom [] cfg = Ok (bus, evs).
Proof.
  unfold boot. intros (qom' & Hqom & (r & Hr & [= <- <- <-])%res_bind_Ok)%res_bind_Ok.
  split; [by eapply spapr_vty_register_types_registered | by destruct r].
Qed.

(** ** Machines that hold terminals only *)

Lemma all_terminals_lookup bus p q :
  all_terminals bus → bus !! p = Some q →
  ∃ dev chr, q = VtyDevice dev ∧ dev_chardev dev = Some chr.
Proof.
  intros Hall Hq. apply (Forall_lookup_1 _ _ p (static_of q)) in Hall as [Hvty [chr Hchr]];
    [| by rewrite list_lookup_fmap, Hq].
  destruct q as [dev | ?]; [| done]. by exists dev, chr.
Qed.

(** On such a machine every address the guest can give is harmless. *)
Lemma all_terminals_targets spapr args :
  all_terminals (vio_bus spapr) → targets_vty spapr args.
Proof.
  intros Hall. unfold targets_vty.
  destruct (args !! 0%nat ≫= vty_lookup spapr) as [p |] eqn:Hp; [| done].
  apply bind_Some in Hp as (reg & _ & Hp).
  destruct (lookup_lt_is_Some_2 _ _ (vty_lookup_lt _ _ _ Hp)) as [q Hq]. rewrite Hq.
  destruct (all_terminals_lookup _ _ _ Hall Hq) as (dev & chr & -> & Hchr).
  by rewrite Hchr.
Qed.

Lemma all_terminals_static (bus bus' : VIOsPAPRBus) :
  static_of <$> bus' = static_of <$> bus → all_terminals bus → all_terminals bus'.
Proof. unfold all_terminals. by intros ->. Qed.

(** ** Theorems *)

(** C30: Creation with backends: when every configured terminal has a
    backend, the creations return; the bus holds the new terminals in the
    reverse of the order of creation, each zeroed (empty ring, cursors at
    0) with its backend set, ahead of the children the bus had; and each
    creation registered the receive callbacks with its backend once. *)
Theorem create_all_builds qom bus cfg :
  vty_registered qom → Forall (λ c, is_Some c.2) cfg →
  create_all qom bus cfg
  = Ok (reverse (terminal_of <$> cfg) ++ bus, cfg ≫= registration_of).
Proof. intros Hreg Hcfg. by rewrite create_all_eq, bool_decide_true. Qed.

(** C31: Creation without a backend is fatal: if some configured terminal
    has no backend, the program exits with status 1 instead of building
    the machine. *)
Theorem create_all_exits qom bus cfg :
  vty_registered qom → ¬ Forall (λ c, is_Some c.2) cfg →
  create_all qom bus cfg = Err (Exit 1).
Proof. intros Hreg Hcfg. by rewrite create_all_eq, bool_decide_false. Qed.

(** C14: A machine whose bus was built by [spapr_vty_create] alone is
    safe for any guest, whatever the tables held before the terminal
    registered: in every state it reaches, every terminal is
    well-formed, every child of the bus is a terminal with a backend, and
    both hypercalls return on every argument array, whatever address the
    guest gives. *)
Theorem created_machine_total qom0 cfg qom bus evs tr spapr' :
  boot qom0 cfg = Ok (qom, bus, evs) → steps (mkSpapr bus) tr spapr' →
  bus_wf spapr' ∧ all_terminals (vio_bus spapr') ∧
  (∀ args, action_ok (HPutTermChar args) → is_Ok (h_put_term_char spapr' args)) ∧
  (∀ args stack, action_ok (HGetTermChar args stack) →
                 is_Ok (h_get_term_char spapr' args stack)).
Proof.
  intros [Hreg Hbus]%boot_Ok Hsteps.
  apply (create_all_ready qom Hreg) in Hbus as [Hwf Hall].
  destruct (steps_inv _ _ _ Hsteps Hwf) as [Hwf' Hs].
  apply (all_terminals_static _ _ Hs) in Hall.
  split_and!; [done | done | |].
  - intros args Hok. by apply h_put_term_char_total, all_terminals_targets.
  - intros args stack Hok. by apply h_get_term_char_total, all_terminals_targets.
Qed.

(** ** Witnesses *)

(** The terminals of the example of the specification, created in the
    order 9, 2, 5. *)
Definition example_cfg : list (VIOsPAPRDevice * option Z) :=
  [(mkVIO 9 9, Some 9); (mkVIO 2 2, Some 2); (mkVIO 5 5, Some 5)].

Lemma create_all_builds_witness :
  create_all (registered_in qom_empty) [] example_cfg
  = Ok (reverse (terminal_of <$> example_cfg) ++ [], example_cfg ≫= registration_of).
Proof.
  apply (create_all_builds (registered_in qom_empty) [] example_cfg);
    [apply registered_in_registered | by_compute].
Defined.

Lemma create_all_exits_witness :
  create_all (registered_in qom_empty) [] [(mkVIO 9 9, Some 9); (mkVIO 2 2, None)]
  = Err (Exit 1).
Proof.
  apply (create_all_exits (registered_in qom_empty) []
           [(mkVIO 9 9, Some 9); (mkVIO 2 2, None)]); [apply registered_in_registered |].
  intros [_ [[? [=]] _]%Forall_cons_1]%Forall_cons_1.
Defined.

Lemma created_machine_total_witness :
  ∃ spapr',
    bus_wf spapr' ∧ all_terminals (vio_bus spapr') ∧
    (∀ args, action_ok (HPutTermChar args) → is_Ok (h_put_term_char spapr' args)) ∧
    (∀ args stack, action_ok (HGetTermChar args stack) →
                   is_Ok (h_get_term_char spapr' args stack)).
Proof.
  destruct (machine_run (mkSpapr [vty_at 5; vty_at 2; vty_at 9])
              [ChrInput 1 [0x41]; HGetTermChar [0; 0; 0] (replicate 16 255)])
    as [[spapr' tr] |] eqn:Hrun; [| by vm_compute in Hrun].
  apply machine_run_steps in Hrun as [Hsteps _]; [| by_compute].
  exists spapr'.
  apply (created_machine_total qom_empty example_cfg (registered_in qom_empty)
           [vty_at 5; vty_at 2; vty_at 9] (example_cfg ≫= registration_of) tr spapr');
    [| done].
  unfold boot. rewrite spapr_vty_register_types_eq, decide_True by by_compute.
  cbn [mbind res_bind]. by rewrite create_all_eq by apply registered_in_registered.
Defined.
