(* ===== verification/System.v ===== *)
(** * System: from start-up to the delivery of the input

    The parts of the development put together: the module constructor
    registers the type and the hypercalls ([Qom]), the board creates the
    terminals ([Lifecycle]), [spapr_vty_init] registers the receive
    functions of each with its backend ([Hcall]), and then the backend of
    a terminal and the guest call into the code ([Machine], [Liveness]).

    The backend of the closed system is given what the registration
    event of start-up carries, and nothing else: the functions
    [spapr_vty_init] passed to [qemu_chr_add_handlers] and the device it
    passed as their argument.  A pointer is an index in the list of
    children and creation puts a device at the head of the list, so the
    device registered as child 0 is child [later] once [later] more
    devices have been created ([handlers_of]).

    The theorem says that the terminal made from any entry of the
    configuration delivers the whole input of its backend to the guest
    that reads at its address on its interrupt line, in order, whatever
    the interleaving of the two, and that no call on the way faults. *)

From stdpp Require Import base numbers list option strings gmap.
From S2P Require Import Prelude Wire RingBuffer Registry Hcall Machine Qom Lifecycle Liveness.

Local Open Scope Z_scope.

(** ** The system after start-up *)

(** What a backend holds after the call [ev] of [qemu_chr_add_handlers],
    once [later] more devices have been created: the backend the call
    named, the two functions, and the pointer to the device. *)
Definition handlers_of (ev : event) (later : nat) : option (Z * chr_handlers) :=
  match ev with
  | EvChrAddHandlers chr can_read read _ opaque =>
      Some (chr, mkHandlers can_read read (opaque + later))
  | _ => None
  end.

(** The closed system on a bus right after creation, when the backend of
    the terminal has [input] to deliver: no interrupt is pending and the
    guest has read nothing. *)
Definition io_start (bus : VIOsPAPRBus) (input : list Z) : io_state :=
  mkIo (mkSpapr bus) input false [].

(** The end of the delivery for the backend that holds [h]: no fault,
    the backend has nothing left, no interrupt is pending, the ring is
    empty and the guest has received [input]. *)
Definition io_complete (h : chr_handlers) (input : list Z) (r : res io_state) : Prop :=
  ∃ s, r = Ok s ∧ io_input s = [] ∧ io_irq s = false ∧ unread h (io_machine s) = [] ∧
       io_received s = input.

(** ** Created terminals *)

(** The terminal of entry [k] of the configuration is child
    [length cfg - 1 - k] of the bus. *)
Lemma created_lookup (cfg : list (VIOsPAPRDevice * option Z)) k c :
  cfg !! k = Some c →
  reverse (terminal_of <$> cfg) !! (length cfg - 1 - k)%nat = Some (terminal_of c).
Proof.
  intros Hk. pose proof (lookup_lt_Some _ _ _ Hk).
  apply reverse_lookup_Some. rewrite length_fmap, list_lookup_fmap. split; [| lia].
  replace (length cfg - S (length cfg - 1 - k))%nat with k by lia. by rewrite Hk.
Qed.

(** The addresses on the bus are those of the configuration. *)
Lemma created_regs (cfg : list (VIOsPAPRDevice * option Z)) :
  sdev_reg ∘ qdev_sdev <$> reverse (terminal_of <$> cfg) = reverse (sdev_reg ∘ fst <$> cfg).
Proof. by rewrite fmap_reverse, <-list_fmap_compose. Qed.

(** When every entry has a backend, call [k] of
    [qemu_chr_add_handlers] is the one [spapr_vty_init] makes for entry
    [k]. *)
Lemma registrations_lookup (cfg : list (VIOsPAPRDevice * option Z)) k c :
  Forall (λ c, is_Some c.2) cfg → cfg !! k = Some c →
  registration_of c = [] ∨ (cfg ≫= registration_of) !! k = registration_of c !! 0%nat.
Proof.
  intros Hcfg. revert k. induction Hcfg as [| [s [chr |]] cfg [? Hc] _ IH]; intros k Hk;
    [done | | done].
  rewrite bind_cons. destruct k as [| k]; [injection Hk as <-; by right |].
  destruct (IH k Hk) as [? | Hev]; [by left | by right].
Qed.

(** A state of the closed system right after start-up satisfies the
    invariant of [Liveness], with the handlers of the registration. *)
Lemma booted_io_inv qom0 cfg qom bus evs k sdev chr input :
  boot qom0 cfg = Ok (qom, bus, evs) → NoDup (sdev_reg ∘ fst <$> cfg) →
  cfg !! k = Some (sdev, Some chr) → Forall is_byte input →
  let h := vty_handlers (length cfg - 1 - k) in
  evs !! k = registration_of (sdev, Some chr) !! 0%nat ∧
  io_inv h (sdev_reg sdev) (sdev_qirq sdev) (io_start bus input) ∧
  unread h (mkSpapr bus) = [].
Proof.
  intros [Hreg Hbus]%boot_Ok Hnodup Hk Hinput h.
  destruct (create_all_ready qom Hreg _ _ _ Hbus) as [Hwf _].
  rewrite create_all_eq in Hbus by done. case_bool_decide as Hcfg; [| done].
  injection Hbus as <- <-. rewrite app_nil_r in *.
  destruct (registrations_lookup cfg k _ Hcfg Hk) as [? | Hev]; [done |].
  pose proof (created_lookup cfg k _ Hk) as Hp.
  assert (Hdev : dev_at h (mkSpapr (reverse (terminal_of <$> cfg)))
                 = Some (vty_zeroed sdev (Some chr))) by (by apply dev_at_Some).
  unfold io_inv, io_start. cbn [io_machine io_input io_irq].
  rewrite (unread_dev _ _ _ Hdev), Hdev. split_and!; try done.
  apply (vty_lookup_nodup (mkSpapr _) _ (terminal_of (sdev, Some chr))); [| done].
  simpl. by rewrite created_regs, reverse_Permutation.
Qed.

(** ** Theorems *)

(** C7: From start-up to delivery.  Start-up on any tables, with a
    configuration of terminals at distinct addresses, when it returns:
    for entry [k] of the configuration, call [k] of
    [qemu_chr_add_handlers] named the backend of that entry; and when
    that backend uses what the call gave it (the two functions and the
    device) to deliver any input, as much at a time as its poll allows,
    while the guest reads at the address of the entry whenever the
    interrupt line of the entry was pulsed, then every interleaving of
    the two is finite, none of its calls faults, and it ends with the
    guest having received exactly that input, in order, and with the ring
    empty. *)
Theorem booted_io_live qom0 cfg qom bus evs k sdev chr input :
  boot qom0 cfg = Ok (qom, bus, evs) → NoDup (sdev_reg ∘ fst <$> cfg) →
  cfg !! k = Some (sdev, Some chr) → Forall is_byte input →
  ∃ ev h,
    evs !! k = Some ev ∧ handlers_of ev (length cfg - 1 - k) = Some (chr, h) ∧
    eventually (io_step h (sdev_reg sdev) (sdev_qirq sdev)) (io_complete h input)
               (Ok (io_start bus input)).
Proof.
  intros Hboot Hnodup Hk Hinput.
  destruct (booted_io_inv _ _ _ _ _ _ _ _ _ Hboot Hnodup Hk Hinput) as (Hev & Hinv & Hu).
  eexists _, (vty_handlers (length cfg - 1 - k)). split_and!; [exact Hev | done |].
  eapply eventually_weaken; [| by apply io_live_eq].
  intros r (s & -> & ? & ? & ? & Hrecv). exists s. unfold io_start in Hrecv.
  cbn [io_machine io_input io_received] in Hrecv. by rewrite Hu in Hrecv.
Qed.

(** ** Witness *)

Lemma booted_io_live_witness :
  ∃ ev h,
    (example_cfg ≫= registration_of) !! 1%nat = Some ev ∧
    handlers_of ev (length example_cfg - 1 - 1) = Some (2, h) ∧
    eventually (io_step h 2 2) (io_complete h [0x68; 0x69])
               (Ok (io_start [vty_at 5; vty_at 2; vty_at 9] [0x68; 0x69])).
Proof.
  apply (booted_io_live qom_empty example_cfg (registered_in qom_empty)
           [vty_at 5; vty_at 2; vty_at 9] (example_cfg ≫= registration_of) 1
           (mkVIO 2 2) 2 [0x68; 0x69]);
    [| by_compute | done | by_compute].
  unfold boot. rewrite spapr_vty_register_types_eq, decide_True by by_compute.
  cbn [mbind res_bind]. by rewrite create_all_eq by apply registered_in_registered.
Defined.
